(** * CCTNS Copilot: the query-processing pipeline, embedded from the sources

    Shallow embedding of the TypeScript services and of the chart shaping of
    the results table:

    - [executeQuery]            the mock executor over the synthetic tables
    - [generateSqlAndSummary]   the generator that calls the chat model
    - [processQuery]            the client of the backend
    - [chartData]               the series of [DataTable]

    JavaScript strings are modelled as [string]: one [ascii] stands for one
    UTF-16 code unit below 256.  JavaScript numbers are IEEE doubles; they are
    kept abstract behind the interface [JSEngine]. *)

From Stdlib Require Import String Ascii List Bool Arith ZArith Lia.
From Stdlib Require Import Sorting.Sorted Sorting.Permutation.
Import ListNotations.
Open Scope string_scope.
Open Scope nat_scope.

Set Implicit Arguments.
Set Warnings "-register-all".

(* ===================================================================== *)
(** ** JavaScript strings *)
(* ===================================================================== *)

Module JSString.

(** Upper-case code units of the Latin-1 range: A-Z, and U+00C0-U+00DE
    without the multiplication sign U+00D7. *)
Definition isUpper (c : ascii) : bool :=
  let n := nat_of_ascii c in
  ((65 <=? n) && (n <=? 90)) ||
  ((192 <=? n) && (n <=? 222) && negb (n =? 215)).

Definition lowerChar (c : ascii) : ascii :=
  if isUpper c then ascii_of_nat (nat_of_ascii c + 32) else c.

(** [String.prototype.toLowerCase] *)
Fixpoint toLowerCase (s : string) : string :=
  match s with
  | EmptyString => EmptyString
  | String c r => String (lowerChar c) (toLowerCase r)
  end.

(** [String.prototype.startsWith] *)
Fixpoint startsWith (p s : string) : bool :=
  match p, s with
  | EmptyString, _ => true
  | String a p', String b s' => Ascii.eqb a b && startsWith p' s'
  | String _ _, EmptyString => false
  end.

(** [String.prototype.includes] *)
Fixpoint includes (sub s : string) : bool :=
  startsWith sub s ||
  match s with
  | EmptyString => false
  | String _ r => includes sub r
  end.

(** White space of [trim] and of the regular-expression class [\s], for
    code units below 256: TAB, LF, VT, FF, CR, SPACE, NBSP. *)
Definition isSpace (c : ascii) : bool :=
  let n := nat_of_ascii c in
  ((9 <=? n) && (n <=? 13)) || (n =? 32) || (n =? 160).

(** The regular-expression class [\w]: [A-Za-z0-9_]. *)
Definition isWord (c : ascii) : bool :=
  let n := nat_of_ascii c in
  ((65 <=? n) && (n <=? 90)) || ((97 <=? n) && (n <=? 122)) ||
  ((48 <=? n) && (n <=? 57)) || (n =? 95).

(** The regular-expression class [\d]: [0-9]. *)
Definition isDigit (c : ascii) : bool :=
  let n := nat_of_ascii c in (48 <=? n) && (n <=? 57).

Fixpoint trimStart (s : string) : string :=
  match s with
  | String c r => if isSpace c then trimStart r else s
  | EmptyString => EmptyString
  end.

(** Drops the white space at the end of [s]. *)
Fixpoint trimEnd (s : string) : string :=
  match s with
  | EmptyString => EmptyString
  | String c r =>
      match trimEnd r with
      | EmptyString => if isSpace c then EmptyString else String c EmptyString
      | r' => String c r'
      end
  end.

(** [String.prototype.trim] *)
Definition trim (s : string) : string := trimEnd (trimStart s).

Fixpoint allb (p : ascii -> bool) (s : string) : bool :=
  match s with
  | EmptyString => true
  | String c r => p c && allb p r
  end.

(** [s.substring(0, n)] *)
Fixpoint take (n : nat) (s : string) : string :=
  match n, s with
  | S n', String c r => String c (take n' r)
  | _, _ => EmptyString
  end.

Fixpoint drop (n : nat) (s : string) : string :=
  match n, s with
  | S n', String _ r => drop n' r
  | _, _ => s
  end.

End JSString.
Import JSString.

(* ===================================================================== *)
(** ** JavaScript numbers and values *)
(* ===================================================================== *)

(** The built-ins of the JavaScript engine that the sources use.
    [num_of_Z] embeds an integer literal or a counter (exact below 2^53);
    [Number_of_string] is [Number(s)] and [String_of_number] is [String(n)];
    [number_truthy] is false exactly for [0], [-0] and [NaN];
    [localeCompare a b] is [a.localeCompare(b)] in the default locale;
    [protoText k] is [String(Object.prototype[k])] for the property names of
    [Object.prototype]. *)
Class JSEngine : Type := {
  number : Type;
  NaN : number;
  num_of_Z : Z -> number;
  Number_of_string : string -> number;
  String_of_number : number -> string;
  number_truthy : number -> bool;
  localeCompare : string -> string -> Z;
  protoText : string -> string
}.

Section Values.
Context {Engine : JSEngine}.

(** A table cell, [string | number] in [types.ts]. *)
Inductive Cell : Type :=
| CStr (s : string)
| CNum (n : number).

(** [interface QueryResult] of [types.ts]. *)
Record QueryResult : Type := {
  columns : list string;
  rows : list (list Cell);
  query : string
}.

(** Values that property reads and [JSON.parse] produce. *)
Inductive JSValue : Type :=
| VUndefined
| VNull
| VBool (b : bool)
| VNum (n : number)
| VStr (s : string)
| VArr (items : list JSValue)
| VObj (fields : list (string * JSValue)).

Definition Cell_value (c : Cell) : JSValue :=
  match c with
  | CStr s => VStr s
  | CNum n => VNum n
  end.

(** JavaScript truthiness. *)
Definition truthy (v : JSValue) : bool :=
  match v with
  | VUndefined | VNull => false
  | VBool b => b
  | VNum n => number_truthy n
  | VStr s => negb (String.eqb s "")
  | VArr _ | VObj _ => true
  end.

Fixpoint lookupField (k : string) (fs : list (string * JSValue)) : JSValue :=
  match fs with
  | [] => VUndefined
  | (k', v) :: r => if String.eqb k k' then v else lookupField k r
  end.

(** A property read [v.k] for a key that is no built-in property:
    [None] is the TypeError raised on [null] and [undefined]. *)
Definition getProp (v : JSValue) (k : string) : option JSValue :=
  match v with
  | VUndefined | VNull => None
  | VObj fs => Some (lookupField k fs)
  | _ => Some VUndefined
  end.

(** The object literal [{ columns, rows, query: sql }] as a value. *)
Definition QueryResult_object (r : QueryResult) : JSValue :=
  VObj [ ("columns", VArr (map VStr (columns r)));
         ("rows", VArr (map (fun row => VArr (map Cell_value row)) (rows r)));
         ("query", VStr (query r)) ].

End Values.

(** How a promise settles. *)
Inductive Settled (E A : Type) : Type :=
| Rejected (e : E)
| Resolved (a : A).
Arguments Rejected {E A} e.
Arguments Resolved {E A} a.

(* ===================================================================== *)
(** ** The mock executor: [executeQuery] *)
(* ===================================================================== *)

Section DbService.
Context {Engine : JSEngine}.

Record CrimeRecord := { crime_type : string; district : string; count : Z }.
Record ArrestRecord :=
  { officer_name : string; arrest_date : string; fir_description : string }.
Record TrendRecord := { month : string; station : string; trend_count : Z }.

Definition MOCK_CRIME_DATA : list CrimeRecord :=
  [ {| crime_type := "Theft"; district := "Guntur"; count := 120 |};
    {| crime_type := "Assault"; district := "Guntur"; count := 45 |};
    {| crime_type := "Burglary"; district := "Guntur"; count := 78 |};
    {| crime_type := "Robbery"; district := "Guntur"; count := 30 |};
    {| crime_type := "Theft"; district := "Visakhapatnam"; count := 150 |};
    {| crime_type := "Assault"; district := "Visakhapatnam"; count := 60 |} ].

Definition MOCK_ARREST_DATA : list ArrestRecord :=
  [ {| officer_name := "S. Kumar"; arrest_date := "2025-05-15";
       fir_description := "Theft of motorcycle" |};
    {| officer_name := "S. Kumar"; arrest_date := "2025-05-22";
       fir_description := "Shop burglary on Main St." |};
    {| officer_name := "A. Reddy"; arrest_date := "2025-06-01";
       fir_description := "Assault case at market" |};
    {| officer_name := "S. Kumar"; arrest_date := "2025-06-10";
       fir_description := "Chain snatching incident" |} ].

Definition MOCK_FIR_TREND : list TrendRecord :=
  [ {| month := "2024-07"; station := "Guntur I Town"; trend_count := 55 |};
    {| month := "2024-08"; station := "Guntur I Town"; trend_count := 62 |};
    {| month := "2024-09"; station := "Guntur I Town"; trend_count := 48 |};
    {| month := "2024-10"; station := "Guntur I Town"; trend_count := 70 |};
    {| month := "2024-11"; station := "Guntur I Town"; trend_count := 65 |};
    {| month := "2024-12"; station := "Guntur I Town"; trend_count := 75 |};
    {| month := "2025-01"; station := "Guntur I Town"; trend_count := 80 |};
    {| month := "2025-02"; station := "Guntur I Town"; trend_count := 72 |};
    {| month := "2025-03"; station := "Guntur I Town"; trend_count := 85 |};
    {| month := "2025-04"; station := "Guntur I Town"; trend_count := 90 |};
    {| month := "2025-05"; station := "Guntur I Town"; trend_count := 88 |};
    {| month := "2025-06"; station := "Guntur I Town"; trend_count := 95 |} ].

(** [executeQuery]: the promise resolves, after the simulated delay, with
    the columns and rows of the branch selected by the lower-cased text;
    [reject] is never called. *)
Definition executeQuery (sql : string) : Settled string QueryResult :=
  let lowerSql := toLowerCase sql in
  if includes "group by" lowerSql && includes "guntur" lowerSql then
    let columns := ["Crime Type"; "Total FIRs"] in
    let rows :=
      map (fun d => [CStr (crime_type d); CNum (num_of_Z (count d))])
          (filter (fun d => String.eqb (district d) "Guntur") MOCK_CRIME_DATA) in
    Resolved {| columns := columns; rows := rows; query := sql |}
  else if includes "officer_master" lowerSql && includes "kumar" lowerSql then
    let columns := ["Arresting Officer"; "Arrest Date"; "FIR Details"] in
    let rows :=
      map (fun d => [CStr (officer_name d); CStr (arrest_date d);
                     CStr (fir_description d)])
          (filter (fun d => includes "Kumar" (officer_name d))
                  MOCK_ARREST_DATA) in
    Resolved {| columns := columns; rows := rows; query := sql |}
  else if includes "fir" lowerSql && includes "group by" lowerSql
          && includes "month" lowerSql then
    let columns := ["Month"; "FIR Count"] in
    let rows :=
      map (fun d => [CStr (month d); CNum (num_of_Z (trend_count d))])
          MOCK_FIR_TREND in
    Resolved {| columns := columns; rows := rows; query := sql |}
  else
    let columns := ["Crime Type"; "District"; "Total Count"] in
    let rows :=
      map (fun d => [CStr (crime_type d); CStr (district d);
                     CNum (num_of_Z (count d))])
          MOCK_CRIME_DATA in
    Resolved {| columns := columns; rows := rows; query := sql |}.

End DbService.

(* ===================================================================== *)
(** ** The safety validator of the specification *)
(* ===================================================================== *)

Section SafetyGate.

(** Modelled from the spec: the SafetyVerdict of section 3, the allowed flag
    and the reason of the violation; the validator that computes it is not
    among the sources. *)
Record SafetyVerdict := { allowed : bool; violation : option string }.

(** Modelled from the spec: the two terminal states ACCEPTED and REJECTED of
    section 4.4. *)
Definition accept : SafetyVerdict := {| allowed := true; violation := None |}.
Definition reject (why : string) : SafetyVerdict :=
  {| allowed := false; violation := Some why |}.

(** Modelled from the spec: the mutating and DDL keywords of check (c). *)
Definition MUTATING_KEYWORDS : list string :=
  ["INSERT"; "UPDATE"; "DELETE"; "DROP"; "ALTER"; "TRUNCATE"; "CREATE";
   "GRANT"; "REVOKE"].

(** Modelled from the spec: the comment markers of check (e). *)
Definition COMMENT_MARKERS : list string := ["--"; "/*"; "*/"].

(** Modelled from the spec: check (d), the single optional trailing
    terminator.  The text without one trailing [;]. *)
Fixpoint dropTerminator (s : string) : string :=
  match s with
  | EmptyString => EmptyString
  | String c EmptyString => if Ascii.eqb c ";" then EmptyString else s
  | String c r => String c (dropTerminator r)
  end.

(** Modelled from the spec: checks (a) and (d).  The statement of a
    candidate: the trimmed text, less a single optional trailing terminator
    and the white space before it. *)
Definition statementOf (S : string) : string :=
  trimEnd (dropTerminator (trim S)).

(** Modelled from the spec: check (b).  The leading keyword: the longest
    run of word characters at the start. *)
Fixpoint leadingWord (s : string) : string :=
  match s with
  | String c r => if isWord c then String c (leadingWord r) else EmptyString
  | EmptyString => EmptyString
  end.

Definition isSelect (stmt : string) : bool :=
  String.eqb (toLowerCase (leadingWord stmt)) "select".

(** Modelled from the spec: the case-insensitive match of check (c). *)
Definition mentions (k S : string) : bool :=
  includes (toLowerCase k) (toLowerCase S).

(** Modelled from the spec: the SqlSafetyValidator of section 4.4.  It is
    backend code (the README places the validation of generated statements
    in [models/nl2sql_processor.py] and [models/sql_executor.py]) and is not
    among the sources.  One transition RECEIVED to ACCEPTED or REJECTED, by
    the checks (a)-(e) in the order of the section, and deny by default: a
    text with no statement in it, any further [;], any match of a mutating
    keyword and any comment marker anywhere reject. *)
Definition SqlSafetyValidator (S : string) : SafetyVerdict :=
  let stmt := statementOf S in
  if String.eqb stmt "" then reject "unparseable: no statement"
  else if includes ";" stmt then reject "more than one statement"
  else if negb (isSelect stmt) then reject "not a SELECT statement"
  else if existsb (fun k => mentions k S) MUTATING_KEYWORDS then
    reject "mutating or DDL keyword"
  else if existsb (fun m => includes m S) COMMENT_MARKERS then
    reject "comment marker"
  else accept.

(** The spec's words for section 4.4 (a)-(e). *)
Definition occurs (k S : string) : Prop :=
  exists pre post, S = pre ++ k ++ post.

Definition occurs_ci (k S : string) : Prop :=
  exists pre mid post,
    S = pre ++ mid ++ post /\ toLowerCase mid = toLowerCase k.

Definition blank (s : string) : Prop := allb isSpace s = true.

(** (a), (b) and (d): the text is, between white space, one statement that
    starts with the keyword SELECT and holds no [;], followed by at most one
    terminator. *)
Definition one_select_statement (S : string) : Prop :=
  exists lead stmt gap term trail,
    S = lead ++ stmt ++ gap ++ term ++ trail /\
    blank lead /\ blank gap /\ blank trail /\
    (term = "" \/ term = ";") /\
    stmt <> "" /\ ~ occurs ";" stmt /\
    isSelect stmt = true.

Definition no_mutating_keyword (S : string) : Prop :=
  forall k, In k MUTATING_KEYWORDS -> ~ occurs_ci k S.

Definition no_comment_marker (S : string) : Prop :=
  forall m, In m COMMENT_MARKERS -> ~ occurs m S.

End SafetyGate.

(* ===================================================================== *)
(** ** The gate in front of the executor *)
(* ===================================================================== *)

(** Modelled from the spec: the GeneratedSql of section 3, the candidate
    statement, its summary and the model that produced it; the generator
    and the gate of the backend are not among the sources. *)
Record GeneratedSql := {
  candidate : string;
  candidate_summary : string;
  source_model : string
}.

Section Pipeline.

(** The [ExecutionResult] of the data model and the QueryExecutor of
    section 4.5, from an accepted statement to its result.  The executor is
    backend code ([models/sql_executor.py] in the README) and is not among
    the sources; the gate does not depend on what it returns, so both are
    parameters. *)
Variable ExecutionResult : Type.
Variable QueryExecutor : string -> ExecutionResult.

(** Modelled from the spec: what a request leaves behind, the SafetyVerdict
    computed for a candidate and the ExecutionResult of its execution. *)
Inductive Event :=
| EvVerdict (sql : string) (v : SafetyVerdict)
| EvExecution (sql : string) (r : ExecutionResult).

(** Modelled from the spec: the control flow SqlGenerator, SqlSafetyValidator,
    QueryExecutor of sections 2 and 5, which is backend code (the endpoint
    [/api/query/process] of [api/main.py] in the README) and is not among
    the sources.  The verdict is computed once for the candidate of a
    request and is the sole gate before the executor, whatever model the
    candidate comes from; the executor receives accepted statements only,
    and a rejection is a hard stop.  Every verdict and every execution
    result is appended to the log. *)
Definition validateAndExecute (g : GeneratedSql) (log : list Event)
  : list Event * option ExecutionResult :=
  let v := SqlSafetyValidator (candidate g) in
  let log1 := (log ++ [EvVerdict (candidate g) v])%list in
  if allowed v then
    let r := QueryExecutor (candidate g) in
    ((log1 ++ [EvExecution (candidate g) r])%list, Some r)
  else (log1, None).

(** Modelled from the spec: the requests of section 5, served one after the
    other.  The log after a sequence of requests. *)
Fixpoint serve (gs : list GeneratedSql) (log : list Event) : list Event :=
  match gs with
  | [] => log
  | g :: rest => serve rest (fst (validateAndExecute g log))
  end.

(** The invariant of section 3 on a log: before every execution result the
    log holds the verdict of the validator for the same statement, this
    verdict has [allowed = true], and the result is the one of the
    executor for this statement. *)
Definition gated (log : list Event) : Prop :=
  forall pre sql r post,
    log = (pre ++ EvExecution sql r :: post)%list ->
    In (EvVerdict sql (SqlSafetyValidator sql)) pre /\
    allowed (SqlSafetyValidator sql) = true /\
    r = QueryExecutor sql.

End Pipeline.

Arguments EvVerdict {ExecutionResult} sql v.

(* ===================================================================== *)
(** ** The SQL generator: [generateSqlAndSummary] *)
(* ===================================================================== *)

Definition LF : ascii := "010"%char.
Definition DQUOTE : string := String "034"%char EmptyString.
Definition FENCE : string := "```".

Fixpoint dropWhile (p : ascii -> bool) (s : string) : string :=
  match s with
  | String c r => if p c then dropWhile p r else s
  | EmptyString => EmptyString
  end.

(** The tail of [fenceRegex] after the body: optional line feed, white space,
    the closing fence and the end of the input. *)
Definition closesFence (s : string) : bool :=
  String.eqb (dropWhile isSpace s) FENCE.

(** The lazy second group, any characters, followed by the tail: the
    shortest body after which the tail matches. *)
Fixpoint lazyBody (s : string) : option string :=
  if closesFence s then Some EmptyString
  else match s with
       | EmptyString => None
       | String c r => option_map (String c) (lazyBody r)
       end.

(** [jsonStr.match(fenceRegex)]; the result is capture group 2.  The
    expression reads, under the flag [s]: start of input, three backquotes,
    an optional group of word characters, white space, an optional line
    feed, a lazy group of any characters, an optional line feed, white
    space, three backquotes, end of input.  The greedy prefix takes every
    word character and then every white-space character; neither class holds
    the backquote, so giving characters back cannot turn a failure into a
    match. *)
Definition fenceMatch (jsonStr : string) : option string :=
  if startsWith FENCE jsonStr then
    lazyBody (dropWhile isSpace (dropWhile isWord (drop 3 jsonStr)))
  else None.

(** The text handed to [JSON.parse]. *)
Definition payloadText (text : string) : string :=
  let jsonStr := trim text in
  match fenceMatch jsonStr with
  | Some body => if negb (String.eqb body "") then trim body else jsonStr
  | None => jsonStr
  end.

(** [replace] with the global expression for a backslash followed by [n],
    and a line feed as replacement: every such pair becomes a line feed,
    scanning from the left. *)
Fixpoint unescapeNewlines (s : string) : string :=
  match s with
  | EmptyString => EmptyString
  | String c r =>
      match r with
      | String d r' =>
          if Ascii.eqb c "\" && Ascii.eqb d "n"
          then String LF (unescapeNewlines r')
          else String c (unescapeNewlines r)
      | EmptyString => String c EmptyString
      end
  end.

(** A text that ends in a character that is no white space. *)
Definition endsInInk (s : string) : Prop := s <> "" /\ trimEnd s = s.

Section GeminiService.
Context {Engine : JSEngine}.

(** [JSON.parse]; [None] is its SyntaxError. *)
Variable JSON_parse : string -> option JSValue.

(** The prompt constant of [constants.ts]; the code only concatenates it. *)
Variable SQL_GENERATION_PROMPT : string.

(** The remote model behind [chat.sendMessage]: from the prompts already
    sent in the session and the new prompt to [response.text], or to the
    rejection of the call. *)
Variable model : list string -> string -> Settled string string.

Record SqlAndSummary := { sql : string; summary : JSValue }.

Inductive GenerationFailure :=
| SendFailed (e : string)
| InvalidResponse.

(** The message of the error of the catch block. *)
Definition invalidResponseMessage : string :=
  "The AI returned an invalid response. Please try rephrasing your query.".

(** The try block: [JSON.parse], the test of the two fields, and the
    returned object.  [None] stands for every exception raised inside it:
    the SyntaxError of the parse, the TypeError of a property read on [null]
    or of [replace] on a value that is no string, and the error for the
    missing fields. *)
Definition parsePayload (jsonStr : string) : option SqlAndSummary :=
  match JSON_parse jsonStr with
  | None => None
  | Some parsedData =>
      match getProp parsedData "sql" with
      | None => None
      | Some sqlField =>
          if truthy sqlField then
            match getProp parsedData "summary" with
            | None => None
            | Some summaryField =>
                if truthy summaryField then
                  match sqlField with
                  | VStr s =>
                      Some {| sql := unescapeNewlines s;
                              summary := summaryField |}
                  | _ => None
                  end
                else None
            end
          else None
      end
  end.

(** The template literal of the prompt: the constant, two line feeds and
    the quoted query. *)
Definition promptOf (query : string) : string :=
  SQL_GENERATION_PROMPT ++ String LF (String LF "User Query: ")
    ++ DQUOTE ++ query ++ DQUOTE.

(** [generateSqlAndSummary chat query]: the state is the list of prompts
    sent in the chat session.  The error of the catch block is also written
    to the console, which is not modelled. *)
Definition generateSqlAndSummary (history : list string) (query : string)
  : Settled GenerationFailure SqlAndSummary * list string :=
  let prompt := promptOf query in
  let history' := (history ++ [prompt])%list in
  match model history prompt with
  | Rejected e => (Rejected (SendFailed e), history')
  | Resolved text =>
      match parsePayload (payloadText text) with
      | Some r => (Resolved r, history')
      | None => (Rejected InvalidResponse, history')
      end
  end.

(** The spec's words for section 4.3: when the first answer does not give
    the two fields, the generator asks a second time, and fails only when
    the second answer does not give them either. *)
Definition retries_once_then_fails (history : list string) (query : string)
  : Prop :=
  forall text,
    model history (promptOf query) = Resolved text ->
    parsePayload (payloadText text) = None ->
    let (result, history') := generateSqlAndSummary history query in
    List.length history' = List.length history + 2 /\
    (result = Rejected InvalidResponse ->
     forall text',
       model (history ++ [promptOf query])%list (promptOf query)
         = Resolved text' ->
       parsePayload (payloadText text') = None).

End GeminiService.

(* ===================================================================== *)
(** ** The client of the backend: [processQuery] *)
(* ===================================================================== *)

Section ApiService.
Context {Engine : JSEngine}.

(** What [fetch] and [response.json()] deliver: [ok] and [status] of the
    response, and the parsed body, [None] when the body is no JSON text. *)
Record Response := { ok : bool; status : nat; json : option JSValue }.

Inductive FetchResult :=
| NetworkError (e : string)
| Responded (r : Response).

Inductive ApiError :=
| FetchFailed (e : string)       (* the rejection of [fetch] *)
| JsonSyntaxError                (* the rejection of [response.json()] *)
| PropertyTypeError              (* a property read on [null] *)
| ErrorOf (v : JSValue)          (* [new Error(v)] *)
| ErrorStatus (status : nat).    (* [new Error(`Server responded ...`)] *)

(** [processQuery query], for the outcome [backend query] of the POST. *)
Definition processQuery (backend : string -> FetchResult) (query : string)
  : Settled ApiError JSValue :=
  match backend query with
  | NetworkError e => Rejected (FetchFailed e)
  | Responded response =>
      if negb (ok response) then
        let errorData :=
          match json response with
          | Some v => v
          | None => VObj [("detail", VStr "Failed to fetch from backend.")]
          end in
        match getProp errorData "detail" with
        | None => Rejected PropertyTypeError
        | Some detail =>
            if truthy detail then Rejected (ErrorOf detail)
            else Rejected (ErrorStatus (status response))
        end
      else
        match json response with
        | None => Rejected JsonSyntaxError
        | Some data =>
            match getProp data "error" with
            | None => Rejected PropertyTypeError
            | Some err =>
                if truthy err then Rejected (ErrorOf err) else Resolved data
            end
        end
  end.

Definition rejects {E A : Type} (p : Settled E A) : Prop :=
  exists e, p = Rejected e.

(** The claim in its own words: a rejection exactly when the status of the
    response is not ok or the parsed payload has a non-empty error field,
    and the payload unchanged otherwise. *)
Definition rejects_exactly_on_status_or_error
  (backend : string -> FetchResult) (query : string) : Prop :=
  (rejects (processQuery backend query) <->
     (exists r, backend query = Responded r /\ ok r = false) \/
     (exists r data err, backend query = Responded r /\ json r = Some data /\
        getProp data "error" = Some err /\ truthy err = true)).

End ApiService.

(* ===================================================================== *)
(** ** The chart series of a result: [chartData] of [DataTable] *)
(* ===================================================================== *)

(** A call returns, or throws a TypeError. *)
Inductive Outcome (A : Type) :=
| Threw
| Returned (a : A).
Arguments Threw {A}.
Arguments Returned {A} a.

Section DataTable.
Context {Engine : JSEngine}.

(** The four [return] statements of [chartData], by the comment that the
    source gives each of them. *)
Inductive ChartStrategy :=
| StrategyNone          (* empty result, and "Fallback" *)
| CategoricalValue      (* "Strategy 1" *)
| DateCount             (* "Strategy 2" *)
| CategoryCount.        (* "Strategy 3" *)

(** The [value] of a chart point: a number, or the text that the counter
    expression builds from an inherited property of the accumulator. *)
Inductive ChartValue :=
| NumberValue (n : number)
| TextValue (s : string).

Record ChartPoint := { name : string; value : ChartValue }.

Record ChartSpec := { strategy : ChartStrategy; series : list ChartPoint }.

(** [Array.prototype.findIndex]; [None] is the result -1. *)
Fixpoint findIndexFrom {A : Type} (p : A -> nat -> bool) (i : nat) (l : list A)
  : option nat :=
  match l with
  | [] => None
  | x :: r => if p x i then Some i else findIndexFrom p (S i) r
  end.

Definition findIndex {A : Type} (p : A -> nat -> bool) (l : list A) : option nat :=
  findIndexFrom p 0 l.

Definition isNumber (c : Cell) : bool :=
  match c with CNum _ => true | CStr _ => false end.

Definition isString (c : Cell) : bool :=
  match c with CStr _ => true | CNum _ => false end.

(** [row[i]]; [None] is [undefined]. *)
Definition cellAt (row : list Cell) (i : nat) : option Cell := nth_error row i.

(** [String(row[i])] *)
Definition String_ (v : option Cell) : string :=
  match v with
  | None => "undefined"
  | Some (CStr s) => s
  | Some (CNum n) => String_of_number n
  end.

(** [Number(row[i])] *)
Definition Number_ (v : option Cell) : number :=
  match v with
  | None => NaN
  | Some (CStr s) => Number_of_string s
  | Some (CNum n) => n
  end.

(** [dateRegex.test(s)]: four digits, a hyphen, two digits, a hyphen, two
    digits, between the start and the end of the input. *)
Definition dateRegex_test (s : string) : bool :=
  match s with
  | String y1 (String y2 (String y3 (String y4 (String h1
      (String m1 (String m2 (String h2 (String d1 (String d2 EmptyString))))))))) =>
      isDigit y1 && isDigit y2 && isDigit y3 && isDigit y4 && Ascii.eqb h1 "-"
      && isDigit m1 && isDigit m2 && Ascii.eqb h2 "-"
      && isDigit d1 && isDigit d2
  | _ => false
  end.

Definition numericColumnIndex (firstRow : list Cell) : option nat :=
  findIndex (fun cell _ => isNumber cell) firstRow.

Definition stringColumnIndex (firstRow : list Cell) (numericColumnIndex : nat)
  : nat :=
  match findIndex (fun cell index =>
                     isString cell && negb (index =? numericColumnIndex))
                  firstRow with
  | Some i => i
  | None =>
      match findIndex (fun _ index => negb (index =? numericColumnIndex))
                      firstRow with
      | Some i => i
      | None => 0
      end
  end.

Definition dateColumnIndex (firstRow : list Cell) : option nat :=
  findIndex (fun cell _ =>
               match cell with
               | CStr s => dateRegex_test s
               | CNum _ => false
               end) firstRow.

Definition labelColumnIndex (firstRow : list Cell) : option nat :=
  findIndex (fun cell _ => isString cell) firstRow.

(** *** The accumulator object of the two [reduce] calls *)

(** A value held by the accumulator: a counter, or a text. *)
Inductive AccValue :=
| Count (c : nat)
| Text (s : string).

(** The own properties of the accumulator, in the order of their creation. *)
Definition Aggregation := list (string * AccValue).

(** The property names that the empty object literal inherits. *)
Definition OBJECT_PROTOTYPE_KEYS : list string :=
  ["constructor"; "__defineGetter__"; "__defineSetter__"; "hasOwnProperty";
   "__lookupGetter__"; "__lookupSetter__"; "isPrototypeOf";
   "propertyIsEnumerable"; "toString"; "valueOf"; "__proto__";
   "toLocaleString"].

Fixpoint ownProperty (k : string) (acc : Aggregation) : option AccValue :=
  match acc with
  | [] => None
  | (k', v) :: r => if String.eqb k k' then Some v else ownProperty k r
  end.

(** [acc[k] = v] for an own or a new property. *)
Fixpoint setOwn (k : string) (v : AccValue) (acc : Aggregation) : Aggregation :=
  match acc with
  | [] => [(k, v)]
  | (k', v') :: r =>
      if String.eqb k k' then (k', v) :: r else (k', v') :: setOwn k v r
  end.

(** [acc[k] = (acc[k] || 0) + 1].  An own counter is incremented.  A key
    that the object neither owns nor inherits starts at 1.  An inherited
    property is a function, or an object for [__proto__]: it is truthy, and
    adding 1 to it concatenates texts; the assignment then creates an own
    property, except for [__proto__], whose setter ignores a text. *)
Definition increment (k : string) (acc : Aggregation) : Aggregation :=
  match ownProperty k acc with
  | Some (Count c) => setOwn k (Count (S c)) acc
  | Some (Text t) =>
      setOwn k (if String.eqb t "" then Count 1 else Text (t ++ "1")) acc
  | None =>
      if existsb (String.eqb k) OBJECT_PROTOTYPE_KEYS then
        if String.eqb k "__proto__" then acc
        else setOwn k (Text (protoText k ++ "1")) acc
      else setOwn k (Count 1) acc
  end.

Fixpoint digitsValue (s : string) (acc : N) : N :=
  match s with
  | EmptyString => acc
  | String c r => digitsValue r (acc * 10 + N.of_nat (nat_of_ascii c - 48))%N
  end.

(** A key is an array index when it is the canonical decimal text of an
    integer below 2^32 - 1. *)
Definition arrayIndex (k : string) : option N :=
  match k with
  | EmptyString => None
  | String c r =>
      if allb isDigit k && (negb (Ascii.eqb c "0") || String.eqb r "") then
        let v := digitsValue k 0 in
        if (v <=? 4294967294)%N then Some v else None
      else None
  end.

Fixpoint insertIndexed {A : Type} (e : N * A) (l : list (N * A)) : list (N * A) :=
  match l with
  | [] => [e]
  | y :: r => if (fst e <=? fst y)%N then e :: y :: r else y :: insertIndexed e r
  end.

(** [Object.entries(acc)]: the array-index keys in ascending numeric order,
    then the other keys in the order of their creation. *)
Definition ownEntries (acc : Aggregation) : list (string * AccValue) :=
  let indexed :=
    flat_map (fun e => match arrayIndex (fst e) with
                       | Some i => [(i, e)]
                       | None => []
                       end) acc in
  let named :=
    filter (fun e => match arrayIndex (fst e) with
                     | Some _ => false
                     | None => true
                     end) acc in
  (map snd (fold_right insertIndexed [] indexed) ++ named)%list.

(** [([label, count]) => ({ name: label, value: count })] *)
Definition toPoint (e : string * AccValue) : ChartPoint :=
  {| name := fst e;
     value := match snd e with
              | Count c => NumberValue (num_of_Z (Z.of_nat c))
              | Text t => TextValue t
              end |}.

Fixpoint insertPoint (x : ChartPoint) (l : list ChartPoint) : list ChartPoint :=
  match l with
  | [] => [x]
  | y :: r =>
      if (localeCompare (name x) (name y) <=? 0)%Z then x :: y :: r
      else y :: insertPoint x r
  end.

(** [points.sort((a, b) => a.name.localeCompare(b.name))].  The sort of the
    language is stable; this is the stable insertion sort. *)
Definition sortByName (points : list ChartPoint) : list ChartPoint :=
  fold_right insertPoint [] points.

(** The [reduce] of strategy 2.  The cast [as string] does nothing at run
    time: [substring] is called on whatever the cell holds, and throws for a
    number and for a missing cell. *)
Fixpoint countByMonth (dateColumnIndex : nat) (rows : list (list Cell))
  (acc : Aggregation) : Outcome Aggregation :=
  match rows with
  | [] => Returned acc
  | row :: rest =>
      match cellAt row dateColumnIndex with
      | Some (CStr dateStr) =>
          let month := take 7 dateStr in
          countByMonth dateColumnIndex rest (increment month acc)
      | _ => Threw
      end
  end.

(** The [reduce] of strategy 3. *)
Fixpoint countByLabel (labelColumnIndex : nat) (rows : list (list Cell))
  (acc : Aggregation) : Aggregation :=
  match rows with
  | [] => acc
  | row :: rest =>
      let label := String_ (cellAt row labelColumnIndex) in
      countByLabel labelColumnIndex rest (increment label acc)
  end.

Definition noChart : ChartSpec := {| strategy := StrategyNone; series := [] |}.

(** [chartData] as a function of the value of [data]; the strategy names the
    [return] statement that delivers the array. *)
Definition chartData (data : QueryResult) : Outcome ChartSpec :=
  if length (rows data) <? 1 then Returned noChart
  else
    let firstRow := hd [] (rows data) in
    match numericColumnIndex firstRow with
    | Some numericColumnIndex =>
        let stringColumnIndex := stringColumnIndex firstRow numericColumnIndex in
        Returned
          {| strategy := CategoricalValue;
             series :=
               map (fun row =>
                      {| name := String_ (cellAt row stringColumnIndex);
                         value :=
                           NumberValue (Number_ (cellAt row numericColumnIndex)) |})
                   (rows data) |}
    | None =>
        match dateColumnIndex firstRow with
        | Some dateColumnIndex =>
            match countByMonth dateColumnIndex (rows data) [] with
            | Threw => Threw
            | Returned aggregation =>
                Returned
                  {| strategy := DateCount;
                     series := sortByName (map toPoint (ownEntries aggregation)) |}
            end
        | None =>
            match labelColumnIndex firstRow with
            | Some labelColumnIndex =>
                let aggregation :=
                  countByLabel labelColumnIndex (rows data) [] in
                if 1 <? length aggregation then
                  Returned
                    {| strategy := CategoryCount;
                       series := map toPoint (ownEntries aggregation) |}
                else Returned noChart
            | None => Returned noChart
            end
        end
    end.

(** *** The same code over the heap *)

(** The objects that [chartData] reads, creates and updates. *)
Inductive HeapObject :=
| HData (d : QueryResult)         (* the prop [data] *)
| HRecord (own : Aggregation)     (* an accumulator *)
| HArray (points : list ChartPoint).

(** A reference is a position in the heap. *)
Definition Heap := list HeapObject.

Definition deref (h : Heap) (r : nat) : option HeapObject := nth_error h r.

Definition alloc (o : HeapObject) (h : Heap) : nat * Heap :=
  (length h, (h ++ [o])%list).

Fixpoint assign (r : nat) (o : HeapObject) (h : Heap) : Heap :=
  match h, r with
  | [], _ => []
  | _ :: t, 0 => o :: t
  | x :: t, S r' => x :: assign r' o t
  end.

(** The [reduce] of strategy 2, updating the accumulator at [acc] in place. *)
Fixpoint countByMonth_heap (dateColumnIndex : nat) (rows : list (list Cell))
  (acc : nat) (h : Heap) : Outcome unit * Heap :=
  match rows with
  | [] => (Returned tt, h)
  | row :: rest =>
      match cellAt row dateColumnIndex, deref h acc with
      | Some (CStr dateStr), Some (HRecord own) =>
          let month := take 7 dateStr in
          countByMonth_heap dateColumnIndex rest acc
            (assign acc (HRecord (increment month own)) h)
      | _, _ => (Threw, h)
      end
  end.

(** The [reduce] of strategy 3, updating the accumulator at [acc] in place. *)
Fixpoint countByLabel_heap (labelColumnIndex : nat) (rows : list (list Cell))
  (acc : nat) (h : Heap) : Heap :=
  match rows with
  | [] => h
  | row :: rest =>
      match deref h acc with
      | Some (HRecord own) =>
          let label := String_ (cellAt row labelColumnIndex) in
          countByLabel_heap labelColumnIndex rest acc
            (assign acc (HRecord (increment label own)) h)
      | _ => h
      end
  end.

Definition ownOf (o : option HeapObject) : Aggregation :=
  match o with
  | Some (HRecord own) => own
  | _ => []
  end.

Definition pointsOf (o : option HeapObject) : list ChartPoint :=
  match o with
  | Some (HArray points) => points
  | _ => []
  end.

(** [chartData] with its allocations and in-place updates: [map],
    [Object.entries] and the literals allocate, the assignment to the
    accumulator and [sort] update in place.  The result is the reference of
    the returned array. *)
Definition chartData_heap (data : nat) (h : Heap) : Outcome nat * Heap :=
  match deref h data with
  | Some (HData d) =>
      if length (rows d) <? 1 then
        let (r, h1) := alloc (HArray []) h in (Returned r, h1)
      else
        let firstRow := hd [] (rows d) in
        match numericColumnIndex firstRow with
        | Some numericColumnIndex =>
            let stringColumnIndex :=
              stringColumnIndex firstRow numericColumnIndex in
            let (r, h1) :=
              alloc (HArray
                (map (fun row =>
                        {| name := String_ (cellAt row stringColumnIndex);
                           value :=
                             NumberValue
                               (Number_ (cellAt row numericColumnIndex)) |})
                     (rows d))) h in
            (Returned r, h1)
        | None =>
            match dateColumnIndex firstRow with
            | Some dateColumnIndex =>
                let (acc, h1) := alloc (HRecord []) h in
                match countByMonth_heap dateColumnIndex (rows d) acc h1 with
                | (Threw, h2) => (Threw, h2)
                | (Returned _, h2) =>
                    let (r, h3) :=
                      alloc (HArray
                        (map toPoint (ownEntries (ownOf (deref h2 acc))))) h2 in
                    (Returned r,
                     assign r (HArray (sortByName (pointsOf (deref h3 r)))) h3)
                end
            | None =>
                match labelColumnIndex firstRow with
                | Some labelColumnIndex =>
                    let (acc, h1) := alloc (HRecord []) h in
                    let h2 :=
                      countByLabel_heap labelColumnIndex (rows d) acc h1 in
                    if 1 <? length (ownOf (deref h2 acc)) then
                      let (r, h3) :=
                        alloc (HArray
                          (map toPoint (ownEntries (ownOf (deref h2 acc))))) h2 in
                      (Returned r, h3)
                    else
                      let (r, h3) := alloc (HArray []) h2 in (Returned r, h3)
                | None =>
                    let (r, h1) := alloc (HArray []) h in (Returned r, h1)
                end
            end
        end
  | _ => (Threw, h)
  end.

(** *** Vocabulary for the series *)

(** The order of two points under [localeCompare]. *)
Definition byName (a b : ChartPoint) : Prop :=
  (localeCompare (name a) (name b) <= 0)%Z.

(** The keys that the reduce of strategy 2 counts, row by row. *)
Definition monthsOf (d : nat) (rows : list (list Cell)) : list string :=
  map (fun row => take 7 (String_ (cellAt row d))) rows.

(** A key that the accumulator does not inherit. *)
Definition plainKey (k : string) : Prop :=
  existsb (String.eqb k) OBJECT_PROTOTYPE_KEYS = false.

Definition incrementAll (ms : list string) (acc : Aggregation) : Aggregation :=
  fold_left (fun a m => increment m a) ms acc.

Definition countOf (k : string) (acc : Aggregation) : nat :=
  match ownProperty k acc with
  | Some (Count c) => c
  | _ => 0
  end.

(** An accumulator that holds counters only, one for each key. *)
Definition counters (acc : Aggregation) : Prop :=
  NoDup (map fst acc) /\
  forall k v, In (k, v) acc -> exists c, v = Count c.

End DataTable.

(* ===================================================================== *)
(** ** The claims of the specification, in its own words *)
(* ===================================================================== *)

Section SpecWords.
Context {Engine : JSEngine}.

(** The branch of [executeQuery] that a statement takes. *)
Inductive MockView := CrimeByTypeGuntur | ArrestsByKumar | FirTrend | AllCrimes.

Definition selectView (sql : string) : MockView :=
  let lowerSql := toLowerCase sql in
  if includes "group by" lowerSql && includes "guntur" lowerSql then
    CrimeByTypeGuntur
  else if includes "officer_master" lowerSql && includes "kumar" lowerSql then
    ArrestsByKumar
  else if includes "fir" lowerSql && includes "group by" lowerSql
          && includes "month" lowerSql then
    FirTrend
  else AllCrimes.

(** Every row that the branch selects from the mock tables. *)
Definition viewRows (v : MockView) : list (list Cell) :=
  match v with
  | CrimeByTypeGuntur =>
      map (fun d => [CStr (crime_type d); CNum (num_of_Z (count d))])
          (filter (fun d => String.eqb (district d) "Guntur") MOCK_CRIME_DATA)
  | ArrestsByKumar =>
      map (fun d => [CStr (officer_name d); CStr (arrest_date d);
                     CStr (fir_description d)])
          (filter (fun d => includes "Kumar" (officer_name d)) MOCK_ARREST_DATA)
  | FirTrend =>
      map (fun d => [CStr (month d); CNum (num_of_Z (trend_count d))])
          MOCK_FIR_TREND
  | AllCrimes =>
      map (fun d => [CStr (crime_type d); CStr (district d);
                     CNum (num_of_Z (count d))])
          MOCK_CRIME_DATA
  end.

(** The texts that [executeQuery] looks for in the lower-cased statement. *)
Definition SELECTION_KEYWORDS : list string :=
  ["group by"; "guntur"; "officer_master"; "kumar"; "fir"; "month"].

(** Section 3, ExecutionResult: at most the first [N] of the selected rows
    are returned, and the flag [truncated] of the result is true exactly
    when more rows exist. *)
Definition row_cap (N : nat) : Prop :=
  forall sql r,
    executeQuery sql = Resolved r ->
    rows r = firstn N (viewRows (selectView sql)) /\
    (getProp (QueryResult_object r) "truncated" = Some (VBool true)
     <-> N < length (viewRows (selectView sql))).

(** Section 4.6, rule 1: the label column is the first column, other than
    the value column, whose first-row value is not numeric. *)
Definition first_other_text_column (firstRow : list Cell)
  (valueColumn labelColumn : nat) : Prop :=
  labelColumn <> valueColumn /\
  (exists s, cellAt firstRow labelColumn = Some (CStr s)) /\
  (forall j s, j < labelColumn -> j <> valueColumn ->
               cellAt firstRow j <> Some (CStr s)).

Definition categorical_value_rule (data : QueryResult) : Prop :=
  forall firstRow rest,
    rows data = firstRow :: rest ->
    (exists i n, cellAt firstRow i = Some (CNum n)) ->
    exists valueColumn labelColumn,
      (exists n, cellAt firstRow valueColumn = Some (CNum n)) /\
      first_other_text_column firstRow valueColumn labelColumn /\
      chartData data =
        Returned
          {| strategy := CategoricalValue;
             series :=
               map (fun row =>
                      {| name := String_ (cellAt row labelColumn);
                         value := NumberValue (Number_ (cellAt row valueColumn)) |})
                   (rows data) |}.

End SpecWords.

(* ===================================================================== *)
(** ** An engine for the examples *)
(* ===================================================================== *)

(** Integer-valued numbers, enough for counts and for the mock tables. *)
Inductive IntNumber :=
| Int (z : Z)
| NotANumber.

Definition digitChar (d : nat) : ascii := ascii_of_nat (48 + d).

Fixpoint decimalDigits (fuel : nat) (n : nat) (acc : string) : string :=
  match fuel with
  | 0 => acc
  | S fuel' =>
      let acc' := String (digitChar (n mod 10)) acc in
      if n / 10 =? 0 then acc' else decimalDigits fuel' (n / 10) acc'
  end.

Definition decimal (z : Z) : string :=
  let n := Z.abs_nat z in
  let digits := decimalDigits (S n) n EmptyString in
  if (z <? 0)%Z then String "-" digits else digits.

(** [Number(s)] on the decimal integer literals and on the blank text;
    every other text is mapped to [NotANumber], so the instance stands for
    the engine only on results whose numeric texts are such literals. *)
Definition parseInteger (s : string) : IntNumber :=
  match trim s with
  | EmptyString => Int 0
  | String c r =>
      if Ascii.eqb c "-" && negb (String.eqb r "") && allb isDigit r
      then Int (- Z.of_N (digitsValue r 0))
      else if allb isDigit (String c r) then Int (Z.of_N (digitsValue (String c r) 0))
      else NotANumber
  end.

(** The order of the code units, which is the order of [localeCompare] on
    texts of digits and hyphens of one shape. *)
Definition compareCodeUnits (a b : string) : Z :=
  match String.compare a b with
  | Lt => (-1)%Z
  | Eq => 0%Z
  | Gt => 1%Z
  end.

(** The text of the members of [Object.prototype], as V8 prints them. *)
Definition nativeText (k : string) : string :=
  if String.eqb k "__proto__" then "[object Object]"
  else if String.eqb k "constructor" then "function Object() { [native code] }"
  else "function " ++ k ++ "() { [native code] }".

#[export] Instance IntEngine : JSEngine := {|
  number := IntNumber;
  NaN := NotANumber;
  num_of_Z := Int;
  Number_of_string := parseInteger;
  String_of_number :=
    fun n => match n with Int z => decimal z | NotANumber => "NaN" end;
  number_truthy :=
    fun n => match n with Int z => negb (z =? 0)%Z | NotANumber => false end;
  localeCompare := compareCodeUnits;
  protoText := nativeText
|}.

(** The scenario of section 8 for the result shaper. *)
Definition theftRow : list Cell := [CStr "Theft"; CNum (Int 120)].
Definition assaultRow : list Cell := [CStr "Assault"; CNum (Int 45)].

Definition crimeCounts : QueryResult :=
  {| columns := ["crime_type"; "count"];
     rows := [theftRow; assaultRow];
     query := "SELECT crime_type, count FROM crimes" |}.

(** A result with a single, numeric column. *)
Definition singleCount : QueryResult :=
  {| columns := ["total"]; rows := [ [CNum (Int 7)] ];
     query := "SELECT COUNT(*) AS total FROM FIR" |}.

(** A result whose date column holds a number in its second row. *)
Definition mixedDates : QueryResult :=
  {| columns := ["arrest_date"];
     rows := [ [CStr "2025-05-15"]; [CNum (Int 20250522)] ];
     query := "SELECT arrest_date FROM ARREST" |}.

(** A model that answers with plain prose first and with the payload on the
    second call, and a parser that knows these two texts.  In the payload
    the line break of the statement is escaped twice, so that the parsed
    [sql] holds a backslash and the letter [n]. *)
Definition goodPayload : string :=
  "{" ++ DQUOTE ++ "sql" ++ DQUOTE ++ ":" ++ DQUOTE
  ++ "SELECT fir_id\\nFROM FIR" ++ DQUOTE
  ++ "," ++ DQUOTE ++ "summary" ++ DQUOTE ++ ":" ++ DQUOTE ++ "All FIRs."
  ++ DQUOTE ++ "}".

Definition fencedPayload : string :=
  "```json" ++ String LF goodPayload ++ String LF "```".

Definition demoParse (s : string) : option (@JSValue IntEngine) :=
  if String.eqb s goodPayload
  then Some (VObj [("sql", VStr "SELECT fir_id\nFROM FIR");
                   ("summary", VStr "All FIRs.")])
  else None.

Definition demoModel (history : list string) (prompt : string)
  : Settled string string :=
  match history with
  | [] => Resolved "I cannot answer that."
  | _ => Resolved goodPayload
  end.

Definition fencedModel (history : list string) (prompt : string)
  : Settled string string :=
  Resolved fencedPayload.

(** An answer of the backend: the JSON text [null] with status 200. *)
Definition nullBackend (q : string) : @FetchResult IntEngine :=
  Responded {| ok := true; status := 200; json := Some VNull |}.

(** The result of the mock executor for the arrests by an officer. *)
Definition kumarArrests : QueryResult :=
  {| columns := ["Arresting Officer"; "Arrest Date"; "FIR Details"];
     rows := viewRows ArrestsByKumar;
     query := "SELECT * FROM OFFICER_MASTER WHERE officer_name LIKE '%Kumar%'" |}.

(* ===================================================================== *)
(** ** The pages and the CSV export of [DataTable] *)
(* ===================================================================== *)

(** [Array.prototype.slice] with integer arguments: a negative index counts
    from the end, and both indices are clamped to the array. *)
Definition slice {A : Type} (l : list A) (start stop : Z) : list A :=
  let len := Z.of_nat (List.length l) in
  let k := if (start <? 0)%Z then Z.max (len + start) 0 else Z.min start len in
  let final := if (stop <? 0)%Z then Z.max (len + stop) 0 else Z.min stop len in
  firstn (Z.to_nat (final - k)) (skipn (Z.to_nat k) l).

(** [Array.prototype.join] on texts. *)
Fixpoint join (sep : string) (items : list string) : string :=
  match items with
  | [] => EmptyString
  | x :: r =>
      match r with
      | [] => x
      | _ :: _ => x ++ sep ++ join sep r
      end
  end.

(** [String.prototype.split] with a separator of one code unit. *)
Fixpoint splitOn (sep : ascii) (s : string) : list string :=
  match s with
  | EmptyString => [EmptyString]
  | String c r =>
      if Ascii.eqb c sep then EmptyString :: splitOn sep r
      else match splitOn sep r with
           | x :: t => String c x :: t
           | [] => [String c EmptyString]
           end
  end.

(** The code unit [c] does not occur in [s]. *)
Definition lacks (c : ascii) (s : string) : Prop :=
  allb (fun x => negb (Ascii.eqb x c)) s = true.

Section Pages.
Context {Engine : JSEngine}.

Definition rowsPerPage : Z := 10.

(** [Math.ceil(data.rows.length / rowsPerPage)]; the quotient of a length by
    ten is rounded by the engine to a double that lies on the same side of
    every integer, so the ceiling is the one of the exact quotient. *)
Definition totalPages (data : QueryResult) : Z :=
  ((Z.of_nat (List.length (rows data)) + (rowsPerPage - 1)) / rowsPerPage)%Z.

Definition paginatedRows (data : QueryResult) (currentPage : Z) : list (list Cell) :=
  slice (rows data) ((currentPage - 1) * rowsPerPage)%Z
        (currentPage * rowsPerPage)%Z.

(** [handlePageChange newPage]: the page after the call. *)
Definition handlePageChange (data : QueryResult) (currentPage newPage : Z) : Z :=
  if (1 <=? newPage)%Z && (newPage <=? totalPages data)%Z then newPage
  else currentPage.

(** What happens to a mounted [DataTable]: a call of [handlePageChange],
    or a render with another [data] prop.  The state [currentPage] of
    [useState] is set at the mount only and survives a change of the prop. *)
Inductive TableEvent :=
| PageRequest (newPage : Z)
| DataChange (data : QueryResult).

Record TableState := { table_data : QueryResult; currentPage : Z }.

Definition tableStep (st : TableState) (e : TableEvent) : TableState :=
  match e with
  | PageRequest newPage =>
      {| table_data := table_data st;
         currentPage := handlePageChange (table_data st) (currentPage st) newPage |}
  | DataChange data => {| table_data := data; currentPage := currentPage st |}
  end.

(** The component after its mount with [data] and a sequence of events. *)
Definition tableAfter (data : QueryResult) (events : list TableEvent)
  : TableState :=
  fold_left tableStep events {| table_data := data; currentPage := 1 |}.

(** The largest number of pages among the results shown so far. *)
Definition pagesSeen (data : QueryResult) (events : list TableEvent) : Z :=
  fold_left (fun m e => match e with
                        | DataChange d => Z.max m (totalPages d)
                        | PageRequest _ => m
                        end)
            events (totalPages data).

(** The two buttons under the table.  [Previous] is disabled on page 1 and
    [Next] on the page [totalPages]; an enabled button asks for the page
    before or after the current one. *)
Inductive Button := Previous | Next.

Definition click (st : TableState) (b : Button) : TableState :=
  match b with
  | Previous =>
      if (currentPage st =? 1)%Z then st
      else tableStep st (PageRequest (currentPage st - 1))
  | Next =>
      if (currentPage st =? totalPages (table_data st))%Z then st
      else tableStep st (PageRequest (currentPage st + 1))
  end.

(** The text of a cell inside [join]. *)
Definition cellText (c : Cell) : string := String_ (Some c).

(** [csvContent] of [downloadCSV], before [encodeURI]. *)
Definition csvContent (columns : list string) (rows : list (list Cell)) : string :=
  let header := join "," columns in
  let body :=
    join (String LF EmptyString)
         (map (fun row => join "," (map cellText row)) rows) in
  "data:text/csv;charset=utf-8," ++ header ++ String LF body.

(** What [downloadCSV] does to the document. *)
Inductive DomAction :=
| CreateElement (tag : string)
| SetAttribute (attribute value : string)
| AppendChild
| Click
| RemoveChild.

(** [downloadCSV columns rows], for the [encodeURI] of the engine. *)
Definition downloadCSV (encodeURI : string -> string) (columns : list string)
  (rows : list (list Cell)) : list DomAction :=
  let encodedUri := encodeURI (csvContent columns rows) in
  [ CreateElement "a";
    SetAttribute "href" encodedUri;
    SetAttribute "download" "cctns_report.csv";
    AppendChild; Click; RemoveChild ].

(** The keys that the reduce of strategy 3 counts, row by row. *)
Definition labelsOf (l : nat) (rows : list (list Cell)) : list string :=
  map (fun row => String_ (cellAt row l)) rows.

(** The sum of the counters of an accumulator. *)
Definition totalCount (acc : Aggregation) : nat :=
  list_sum (map (fun e => match snd e with Count c => c | Text _ => 0 end) acc).

End Pages.

(* ===================================================================== *)
(** ** The other clients of the backend *)
(* ===================================================================== *)

Section BackendClients.
Context {Engine : JSEngine}.

(** [processQueryWithBackend queryText], for the outcome of the POST.  The
    error detail starts as the text with the status; the try block replaces
    it by the first truthy one of [detail] and [error], and every exception
    inside the try block is dropped. *)
Definition processQueryWithBackend (backend : string -> FetchResult)
  (queryText : string) : Settled ApiError JSValue :=
  match backend queryText with
  | NetworkError e => Rejected (FetchFailed e)
  | Responded response =>
      if negb (ok response) then
        let errorDetail :=
          match json response with
          | None => None
          | Some errorData =>
              match getProp errorData "detail" with
              | None => None
              | Some detail =>
                  if truthy detail then Some detail
                  else match getProp errorData "error" with
                       | None => None
                       | Some err => if truthy err then Some err else None
                       end
              end
          end in
        match errorDetail with
        | Some v => Rejected (ErrorOf v)
        | None => Rejected (ErrorStatus (status response))
        end
      else
        match json response with
        | None => Rejected JsonSyntaxError
        | Some data => Resolved data
        end
  end.

(** The file name that [transcribeAudio] gives the recording. *)
Definition filenameFor (blobType : string) : string :=
  if includes "webm" blobType then "audio.webm"
  else if includes "mp4" blobType then "audio.mp4"
  else if includes "mpeg" blobType then "audio.mp3"
  else "audio.wav".

(** The request of [transcribeAudio]: the address, and the two fields of
    the form. *)
Record TranscriptionRequest := {
  request_url : string;
  file_name : string;
  language_field : string
}.

Definition isFalse (v : JSValue) : bool :=
  match v with
  | VBool false => true
  | _ => false
  end.

(** The first truthy one of two values, [a || b]. *)
Definition orElse (a b : JSValue) : JSValue := if truthy a then a else b.

(** The object that [transcribeAudio] returns, from the payload [result]
    whose field [transcription] is [transcription]; [None] is the TypeError
    of a property read on [null] or [undefined]. *)
Definition transcriptionResult (result transcription : JSValue) : option JSValue :=
  match getProp transcription "text", getProp transcription "confidence",
        getProp transcription "language", getProp transcription "model_used",
        getProp result "enhancement" with
  | Some text, Some confidence, Some language, Some modelUsed, Some enhancement =>
      let enhanced :=
        if truthy enhancement then
          match getProp enhancement "enhanced_text",
                getProp enhancement "corrections_applied" with
          | Some enhancedText, Some corrections =>
              Some (VObj [("enhancedText", enhancedText);
                          ("corrections", corrections)])
          | _, _ => None
          end
        else Some VUndefined in
      match enhanced with
      | Some e =>
          Some (VObj [("text", text); ("confidence", confidence);
                      ("language", language); ("modelUsed", modelUsed);
                      ("enhanced", e)])
      | None => None
      end
  | _, _, _, _, _ => None
  end.

(** [transcribeAudio audioBlob config] of the voice service that sends the
    language in the address, for a recording of type [blobType]. *)
Definition transcribeAudio (backend : TranscriptionRequest -> FetchResult)
  (blobType language : string) : Settled ApiError JSValue :=
  let request :=
    {| request_url :=
         "http://127.0.0.1:8000/api/voice/transcribe?language=" ++ language;
       file_name := filenameFor blobType;
       language_field := language |} in
  match backend request with
  | NetworkError e => Rejected (FetchFailed e)
  | Responded response =>
      if negb (ok response) then
        let errorData :=
          match json response with
          | Some v => v
          | None => VObj [("detail", VStr "Failed to transcribe audio")]
          end in
        match getProp errorData "detail" with
        | None => Rejected PropertyTypeError
        | Some detail =>
            if truthy detail then Rejected (ErrorOf detail)
            else Rejected (ErrorStatus (status response))
        end
      else
        match json response with
        | None => Rejected JsonSyntaxError
        | Some result =>
            match getProp result "success", getProp result "transcription",
                  getProp result "error", getProp result "message" with
            | Some success, Some transcription, Some err, Some message =>
                if isFalse success || (truthy success && negb (truthy transcription))
                then
                  Rejected
                    (ErrorOf
                       (orElse err
                          (orElse message
                             (VStr "Transcription failed or no text found"))))
                else
                  match transcriptionResult result transcription with
                  | Some r => Resolved r
                  | None => Rejected PropertyTypeError
                  end
            | _, _, _, _ => Rejected PropertyTypeError
            end
        end
  end.

End BackendClients.

(* ===================================================================== *)
(** ** The application that calls [processQuery] *)
(* ===================================================================== *)

Inductive Sender := SenderUser | SenderAi.

Inductive MessageType := TypeText | TypeSql | TypeError | TypeStatus.

Inductive Status := StatusIdle | StatusListening | StatusLoading | StatusError.

Section App.
Context {Engine : JSEngine}.

(** [interface Message]; at run time [content] and [summary] hold whatever
    the payload holds, and a missing [summary] reads as [undefined]. *)
Record Message := {
  sender : Sender;
  type : MessageType;
  content : JSValue;
  message_summary : JSValue
}.

(** The four state variables of [App]. *)
Record AppState := {
  messages : list Message;
  queryResult : JSValue;
  app_status : Status;
  app_error : option string
}.

(** The [message] of the error that [processQuery] rejects with. *)
Variable errorMessage : ApiError -> string.

Variable backend : string -> FetchResult.

Definition isLoading (s : Status) : bool :=
  match s with StatusLoading => true | _ => false end.

(** The field of a payload that [processQuery] has resolved with; such a
    payload is never [null]. *)
Definition field (data : JSValue) (k : string) : JSValue :=
  match getProp data k with
  | Some v => v
  | None => VUndefined
  end.

(** [handleQuerySubmit query], from its first line to the end of the
    [finally] block: the state after the call has settled. *)
Definition handleQuerySubmit (st : AppState) (query : string) : AppState :=
  if String.eqb (trim query) "" || isLoading (app_status st) then st
  else
    let userMessage :=
      {| sender := SenderUser; type := TypeText; content := VStr query;
         message_summary := VUndefined |} in
    let statusMessage :=
      {| sender := SenderAi; type := TypeStatus;
         content := VStr "Processing your request with the open-source model...";
         message_summary := VUndefined |} in
    let pending := (messages st ++ [userMessage; statusMessage])%list in
    match processQuery backend query with
    | Resolved response =>
        let aiSqlMessage :=
          {| sender := SenderAi; type := TypeSql;
             content := field response "sql";
             message_summary := field response "summary" |} in
        {| messages := (slice pending 0 (-1) ++ [aiSqlMessage])%list;
           queryResult := field response "result";
           app_status := StatusIdle;
           app_error := None |}
    | Rejected e =>
        let aiErrorMessage :=
          {| sender := SenderAi; type := TypeError;
             content :=
               VStr ("I'm sorry, I encountered an error: " ++ errorMessage e);
             message_summary := VUndefined |} in
        {| messages := (slice pending 0 (-1) ++ [aiErrorMessage])%list;
           queryResult := VNull;
           app_status := StatusIdle;
           app_error :=
             Some ("Failed to process your request. " ++ errorMessage e) |}
    end.

(** The state after a sequence of submissions. *)
Definition submitAll (st : AppState) (queries : list string) : AppState :=
  fold_left handleQuerySubmit queries st.

(** What [renderContent] of [ResultsDisplay] shows. *)
Inductive Panel :=
| ShowSpinner
| ShowTable (result : JSValue)
| ShowPlaceholder.

Definition renderContent (result : JSValue) (s : Status) : Panel :=
  if isLoading s && negb (truthy result) then ShowSpinner
  else if truthy result then ShowTable result
  else ShowPlaceholder.

Definition isStatusMessage (m : Message) : bool :=
  match type m with TypeStatus => true | _ => false end.

Definition submitted (query : string) : bool := negb (String.eqb (trim query) "").

Definition fromUser (m : Message) : bool :=
  match sender m with SenderUser => true | SenderAi => false end.

End App.

(* ===================================================================== *)
(** ** More examples for the engine of integers *)
(* ===================================================================== *)

(** The result of the mock executor for the monthly trend: twelve rows. *)
Definition firTrend : @QueryResult IntEngine :=
  {| columns := ["Month"; "FIR Count"];
     rows := viewRows FirTrend;
     query := "SELECT month, COUNT(*) FROM FIR GROUP BY month" |}.

(** A result of twenty-five rows: three pages. *)
Definition manyRows : @QueryResult IntEngine :=
  {| columns := ["crime_type"; "count"];
     rows := repeat theftRow 25;
     query := "SELECT crime_type, count FROM crimes" |}.

(** A result without a number and without a date. *)
Definition crimeList : @QueryResult IntEngine :=
  {| columns := ["crime_type"; "district"];
     rows := [ [CStr "Theft"; CStr "Guntur"];
               [CStr "Assault"; CStr "Guntur"];
               [CStr "Theft"; CStr "Visakhapatnam"] ];
     query := "SELECT crime_type, district FROM crimes" |}.

(** An answer of the model that is a fence without a body. *)
Definition emptyFence : string := "```json" ++ String LF "```".

Definition emptyFenceModel (history : list string) (prompt : string)
  : Settled string string :=
  Resolved emptyFence.

(** A transcription service that answers in the flat structure. *)
Definition flatBackend (request : TranscriptionRequest) : @FetchResult IntEngine :=
  Responded
    {| ok := true; status := 200;
       json := Some (VObj [("text", VStr "show all firs");
                           ("language", VStr "en")]) |}.

(** A transcription service that answers in the nested structure. *)
Definition nestedBackend (request : TranscriptionRequest) : @FetchResult IntEngine :=
  Responded
    {| ok := true; status := 200;
       json :=
         Some (VObj [("success", VBool true);
                     ("transcription",
                      VObj [("text", VStr "show all firs");
                            ("language", VStr "en")])]) |}.

(** A backend of [processQuery] that answers with a statement. *)
Definition sqlBackend (q : string) : @FetchResult IntEngine :=
  Responded
    {| ok := true; status := 200;
       json := Some (VObj [("sql", VStr "SELECT * FROM FIR");
                           ("summary", VStr "All FIRs.")]) |}.

(** The state of [App] after the effect that greets the user. *)
Definition welcomeState : @AppState IntEngine :=
  {| messages :=
       [ {| sender := SenderAi; type := TypeText;
            content := VStr "Welcome to the CCTNS Copilot.";
            message_summary := VUndefined |} ];
     queryResult := VNull;
     app_status := StatusIdle;
     app_error := None |}.

Definition plainMessage (e : @ApiError IntEngine) : string :=
  match e with
  | FetchFailed m => m
  | ErrorOf (VStr m) => m
  | _ => "request failed"
  end.

(** A result whose labels name members of [Object.prototype]. *)
Definition oddLabels : @QueryResult IntEngine :=
  {| columns := ["keyword"];
     rows := [ [CStr "constructor"]; [CStr "Theft"]; [CStr "constructor"] ];
     query := "SELECT keyword FROM searches" |}.

(** An accumulator in which the inherited keys that it owns hold a text that
    is not empty, and which does not own [__proto__]. *)
Definition inheritedTexts (acc : Aggregation) : Prop :=
  NoDup (map fst acc) /\
  forall k, In k OBJECT_PROTOTYPE_KEYS ->
    match ownProperty k acc with
    | None => True
    | Some (Text t) => t <> "" /\ k <> "__proto__"
    | Some (Count _) => False
    end.

(* ===================================================================== *)
(** * Properties *)
(* ===================================================================== *)

(** ** Texts *)

Lemma append_nil_r (s : string) : s ++ "" = s.
Proof. induction s as [|c s IH]; simpl; [reflexivity | now rewrite IH]. Qed.

Lemma append_assoc (a b c : string) : (a ++ b) ++ c = a ++ (b ++ c).
Proof. induction a as [|x a IH]; simpl; [reflexivity | now rewrite IH]. Qed.

Lemma length_append (a b : string) :
  String.length (a ++ b) = String.length a + String.length b.
Proof. induction a as [|x a IH]; simpl; [reflexivity | now rewrite IH]. Qed.

Lemma startsWith_spec (p s : string) :
  startsWith p s = true <-> exists t, s = p ++ t.
Proof.
  revert s. induction p as [|a p IH]; intros s; simpl.
  - split; [intros _; now exists s | reflexivity].
  - destruct s as [|b s].
    + split; [discriminate | intros [t H]; discriminate].
    + rewrite andb_true_iff, IH. split.
      * intros [Hab [t ->]]. apply Ascii.eqb_eq in Hab. subst. now exists t.
      * intros [t H]. injection H as -> ->. split.
        -- apply Ascii.eqb_refl.
        -- now exists t.
Qed.

Lemma includes_spec (sub s : string) : includes sub s = true <-> occurs sub s.
Proof.
  unfold occurs. induction s as [|c s IH].
  - simpl. rewrite orb_false_r, startsWith_spec. split.
    + intros [t H]. exists "", t. exact H.
    + intros [pre [post H]]. destruct pre; simpl in H.
      * now exists post.
      * discriminate.
  - simpl. rewrite orb_true_iff, startsWith_spec, IH. split.
    + intros [[t H] | [pre [post H]]].
      * exists "", t. exact H.
      * exists (String c pre), post. simpl. now rewrite H.
    + intros [pre [post H]]. destruct pre as [|x pre]; simpl in H.
      * left. now exists post.
      * right. injection H as _ H. now exists pre, post.
Qed.

Lemma includes_false (sub s : string) : includes sub s = false <-> ~ occurs sub s.
Proof.
  rewrite <- includes_spec. destruct (includes sub s); split; congruence.
Qed.

Lemma toLowerCase_append (a b : string) :
  toLowerCase (a ++ b) = toLowerCase a ++ toLowerCase b.
Proof. induction a as [|x a IH]; simpl; [reflexivity | now rewrite IH]. Qed.

Lemma toLowerCase_split (s a b : string) :
  toLowerCase s = a ++ b ->
  exists a' b', s = a' ++ b' /\ toLowerCase a' = a /\ toLowerCase b' = b.
Proof.
  revert s. induction a as [|x a IH]; intros s H.
  - exists "", s. simpl in *. auto.
  - destruct s as [|c s]; simpl in H; [discriminate |].
    injection H as Hc H. destruct (IH _ H) as [a' [b' [-> [Ha Hb]]]].
    exists (String c a'), b'. simpl. rewrite Ha, Hc. auto.
Qed.

Lemma mentions_spec (k S : string) : mentions k S = true <-> occurs_ci k S.
Proof.
  unfold mentions, occurs_ci. rewrite includes_spec. unfold occurs. split.
  - intros [pre [post H]].
    destruct (toLowerCase_split _ _ _ H) as [pre' [rest [-> [Hpre Hrest]]]].
    destruct (toLowerCase_split _ _ _ Hrest) as [mid [post' [-> [Hmid _]]]].
    now exists pre', mid, post'.
  - intros [pre [mid [post [-> Hmid]]]].
    exists (toLowerCase pre), (toLowerCase post).
    now rewrite !toLowerCase_append, Hmid.
Qed.

(** ** The mock executor *)

Section DbServiceFacts.
Context {Engine : JSEngine}.

Lemma executeQuery_view (sql : string) :
  exists cols,
    executeQuery sql =
      Resolved {| columns := cols; rows := viewRows (selectView sql);
                  query := sql |}
    /\ Forall (fun row => List.length row = List.length cols)
              (viewRows (selectView sql)).
Proof.
  unfold executeQuery, selectView.
  destruct (includes "group by" (toLowerCase sql)
            && includes "guntur" (toLowerCase sql)).
  { eexists. split; [reflexivity |]. simpl. repeat constructor. }
  destruct (includes "officer_master" (toLowerCase sql)
            && includes "kumar" (toLowerCase sql)).
  { eexists. split; [reflexivity |]. simpl. repeat constructor. }
  destruct (includes "fir" (toLowerCase sql)
            && includes "group by" (toLowerCase sql)
            && includes "month" (toLowerCase sql)).
  { eexists. split; [reflexivity |]. simpl. repeat constructor. }
  eexists. split; [reflexivity |]. simpl. repeat constructor.
Qed.

(** The object that the promise resolves with has three properties. *)
Lemma no_truncated_property (r : QueryResult) :
  getProp (QueryResult_object r) "truncated" = Some VUndefined.
Proof. reflexivity. Qed.

Lemma viewRows_length (v : MockView) : List.length (viewRows v) <= 12.
Proof. destruct v; simpl; lia. Qed.

(** C9.  Every statement makes [executeQuery] resolve, and in the result
    every row has as many cells as there are column names. *)
Theorem executeQuery_rows_match_columns (sql : string) :
  exists r,
    executeQuery sql = Resolved r /\
    Forall (fun row => List.length row = List.length (columns r)) (rows r).
Proof.
  destruct (executeQuery_view sql) as [cols [E F]].
  eexists. split; [exact E | exact F].
Qed.


(** The only inspection of a text by [executeQuery] is whether its
    lower-cased form contains each of six fixed texts: two texts that agree
    on these six tests resolve with the same columns and rows, whatever kind
    of statement, if any, they are. *)
Theorem executeQuery_reads_keywords_only (S S' : string) :
  (forall k, In k SELECTION_KEYWORDS ->
             includes k (toLowerCase S) = includes k (toLowerCase S')) ->
  exists r r',
    executeQuery S = Resolved r /\ executeQuery S' = Resolved r' /\
    columns r = columns r' /\ rows r = rows r'.
Proof.
  intros H. unfold SELECTION_KEYWORDS in H.
  assert (H1 := H "group by"). assert (H2 := H "guntur").
  assert (H3 := H "officer_master"). assert (H4 := H "kumar").
  assert (H5 := H "fir"). assert (H6 := H "month").
  unfold executeQuery.
  rewrite H1, H2, H3, H4, H5, H6 by (simpl; tauto).
  destruct (includes "group by" (toLowerCase S')
            && includes "guntur" (toLowerCase S')).
  { eexists. eexists. repeat split. }
  destruct (includes "officer_master" (toLowerCase S')
            && includes "kumar" (toLowerCase S')).
  { eexists. eexists. repeat split. }
  destruct (includes "fir" (toLowerCase S')
            && includes "group by" (toLowerCase S')
            && includes "month" (toLowerCase S')).
  { eexists. eexists. repeat split. }
  eexists. eexists. repeat split.
Qed.

End DbServiceFacts.

Lemma executeQuery_reads_keywords_only_witness :
  exists r r',
    @executeQuery IntEngine "DROP TABLE FIR" = Resolved r /\
    @executeQuery IntEngine "SELECT * FROM FIR" = Resolved r' /\
    columns r = columns r' /\ rows r = rows r'.
Proof.
  apply (@executeQuery_reads_keywords_only IntEngine
           "DROP TABLE FIR" "SELECT * FROM FIR").
  intros k [<- | [<- | [<- | [<- | [<- | [<- | []]]]]]]; reflexivity.
Defined.


(** ** White space and the statement of a candidate *)

Lemma blank_append (a b : string) : blank (a ++ b) <-> blank a /\ blank b.
Proof.
  unfold blank. induction a as [|c a IH]; simpl.
  - tauto.
  - rewrite !andb_true_iff, IH. tauto.
Qed.

Lemma isWord_not_isSpace (c : ascii) : isWord c = true -> isSpace c = false.
Proof.
  destruct c as [[] [] [] [] [] [] [] []]; vm_compute; congruence.
Qed.

Lemma trimStart_blank_l (l s : string) :
  blank l -> trimStart (l ++ s) = trimStart s.
Proof.
  unfold blank. induction l as [|c l IH]; simpl; intros H; [reflexivity |].
  apply andb_true_iff in H as [Hc Hl]. rewrite Hc. now apply IH.
Qed.

Lemma trimStart_spec (s : string) :
  exists lead, s = lead ++ trimStart s /\ blank lead.
Proof.
  induction s as [|c s [lead [E B]]]; simpl.
  - now exists "".
  - destruct (isSpace c) eqn:Hc.
    + exists (String c lead). simpl. split; [now rewrite <- E |].
      unfold blank in *. simpl. now rewrite Hc, B.
    + now exists "".
Qed.

Lemma trimEnd_blank (t : string) : blank t -> trimEnd t = "".
Proof.
  unfold blank. induction t as [|c t IH]; simpl; intros H; [reflexivity |].
  apply andb_true_iff in H as [Hc Ht]. now rewrite (IH Ht), Hc.
Qed.

Lemma trimEnd_blank_r (s t : string) : blank t -> trimEnd (s ++ t) = trimEnd s.
Proof.
  intros H. induction s as [|c s IH]; simpl.
  - now apply trimEnd_blank.
  - now rewrite IH.
Qed.

Lemma trimEnd_spec (s : string) :
  exists trail, s = trimEnd s ++ trail /\ blank trail.
Proof.
  induction s as [|c s [trail [E B]]]; simpl.
  - now exists "".
  - destruct (trimEnd s) as [|d r'] eqn:Ht.
    + simpl in E. subst s. destruct (isSpace c) eqn:Hc.
      * exists (String c trail). split; [reflexivity |].
        unfold blank in *. simpl. now rewrite Hc, B.
      * now exists trail.
    + exists trail. split; [| exact B]. simpl. now rewrite E at 1.
Qed.

Lemma trimEnd_shape (s : string) :
  trimEnd s = "" \/
  exists x c, trimEnd s = x ++ String c "" /\ isSpace c = false.
Proof.
  induction s as [|c s IH]; simpl; [now left |].
  destruct (trimEnd s) as [|d r'] eqn:Ht.
  - destruct (isSpace c) eqn:Hc; [now left |].
    right. now exists "", c.
  - right. destruct IH as [IH | [x [e [E He]]]]; [discriminate |].
    exists (String c x), e. simpl. now rewrite E.
Qed.

Lemma trimEnd_keeps (s : string) (c : ascii) :
  isSpace c = false -> trimEnd (s ++ String c "") = s ++ String c "".
Proof.
  intros Hc. induction s as [|d s IH]; simpl.
  - now rewrite Hc.
  - rewrite IH. destruct s; reflexivity.
Qed.

Lemma trimEnd_idem (s : string) : trimEnd (trimEnd s) = trimEnd s.
Proof.
  destruct (trimEnd_shape s) as [E | [x [c [E Hc]]]]; rewrite E.
  - reflexivity.
  - now apply trimEnd_keeps.
Qed.

Lemma dropTerminator_terminated (x : string) : dropTerminator (x ++ ";") = x.
Proof.
  induction x as [|c x IH]; [reflexivity |].
  change (String c x ++ ";") with (String c (x ++ ";")).
  simpl. rewrite IH. destruct x; reflexivity.
Qed.

Lemma dropTerminator_spec (s : string) :
  dropTerminator s = s \/ s = dropTerminator s ++ ";".
Proof.
  induction s as [|c s IH]; [now left |].
  destruct s as [|d s].
  - simpl. destruct (Ascii.eqb_spec c ";"); [right; now subst | now left].
  - change (dropTerminator (String c (String d s)))
      with (String c (dropTerminator (String d s))).
    destruct IH as [-> | E]; [now left |].
    right.
    change (String c (String d s)
            = String c (dropTerminator (String d s) ++ ";")).
    now rewrite <- E.
Qed.

Lemma dropTerminator_unterminated (s : string) :
  ~ occurs ";" s -> dropTerminator s = s.
Proof.
  intros H. destruct (dropTerminator_spec s) as [E | E]; [exact E |].
  exfalso. apply H. exists (dropTerminator s), "".
  now rewrite append_nil_r.
Qed.

Lemma occurs_append_l (k a b : string) : occurs k a -> occurs k (a ++ b).
Proof.
  intros [pre [post ->]]. exists pre, (post ++ b).
  now rewrite !append_assoc.
Qed.

Lemma leadingWord_trimEnd (s : string) : leadingWord (trimEnd s) = leadingWord s.
Proof.
  induction s as [|c s IH]; [reflexivity |].
  simpl. destruct (trimEnd s) as [|d r'] eqn:Ht.
  - destruct (isWord c) eqn:Hw.
    + rewrite (isWord_not_isSpace _ Hw). simpl. rewrite Hw. now rewrite <- IH.
    + destruct (isSpace c); simpl; [reflexivity | now rewrite Hw].
  - simpl. destruct (isWord c); [now rewrite <- IH | reflexivity].
Qed.

Lemma isSelect_first (stmt : string) :
  isSelect stmt = true ->
  exists c r, stmt = String c r /\ isSpace c = false.
Proof.
  unfold isSelect. destruct stmt as [|c r]; simpl; [discriminate |].
  destruct (isWord c) eqn:Hw; simpl; [| discriminate].
  intros _. exists c, r. split; [reflexivity | now apply isWord_not_isSpace].
Qed.

(** The statement of a text that is one statement between white space. *)
Lemma statementOf_decomposed (lead stmt gap term trail : string) :
  blank lead -> blank gap -> blank trail ->
  term = "" \/ term = ";" ->
  ~ occurs ";" stmt -> isSelect stmt = true ->
  statementOf (lead ++ stmt ++ gap ++ term ++ trail) = trimEnd stmt.
Proof.
  intros Bl Bg Bt Hterm Hsemi Hsel.
  destruct (isSelect_first _ Hsel) as [c [r [Es Hc]]].
  unfold statementOf, trim. rewrite (trimStart_blank_l _ Bl).
  assert (Hstart : forall rest, trimStart (stmt ++ rest) = stmt ++ rest).
  { intros rest. subst stmt. simpl. now rewrite Hc. }
  rewrite Hstart. destruct Hterm as [-> | ->].
  - simpl. rewrite (trimEnd_blank_r stmt (t := gap ++ trail)).
    2:{ apply blank_append. now split. }
    rewrite dropTerminator_unterminated; [apply trimEnd_idem |].
    intros Hocc. apply Hsemi. destruct (trimEnd_spec stmt) as [tr [E _]].
    rewrite E. now apply occurs_append_l.
  - replace (stmt ++ gap ++ ";" ++ trail)
      with (((stmt ++ gap) ++ ";") ++ trail)
      by now rewrite !append_assoc.
    rewrite (trimEnd_blank_r _ Bt).
    rewrite (@trimEnd_keeps (stmt ++ gap) ";") by reflexivity.
    rewrite dropTerminator_terminated. now apply trimEnd_blank_r.
Qed.

(** Every text is its statement between white space, with at most one
    terminator after it. *)
Lemma statementOf_spec (S : string) :
  exists lead gap term trail,
    S = lead ++ statementOf S ++ gap ++ term ++ trail /\
    blank lead /\ blank gap /\ blank trail /\ (term = "" \/ term = ";").
Proof.
  unfold statementOf, trim.
  destruct (trimStart_spec S) as [lead [E1 Bl]].
  destruct (trimEnd_spec (trimStart S)) as [trail [E2 Bt]].
  set (text := trimEnd (trimStart S)) in *.
  destruct (trimEnd_spec (dropTerminator text)) as [gap [E3 Bg]].
  destruct (dropTerminator_spec text) as [E4 | E4].
  - exists lead, gap, "", trail. repeat split; auto.
    rewrite E1 at 1. rewrite E2 at 1. rewrite <- E4 at 1. rewrite E3 at 1.
    simpl. now rewrite !append_assoc.
  - exists lead, gap, ";", trail. repeat split; auto.
    rewrite E1 at 1. rewrite E2 at 1. rewrite E4 at 1. rewrite E3 at 1.
    now rewrite !append_assoc.
Qed.

(** ** The safety validator of the specification *)

Lemma existsb_false {A : Type} (f : A -> bool) (l : list A) :
  existsb f l = false <-> forall x, In x l -> f x = false.
Proof.
  induction l as [|a l IH]; simpl.
  - split; [intros _ x [] | reflexivity].
  - rewrite orb_false_iff, IH. split.
    + intros [Ha Hl] x [<- | Hx]; auto.
    + intros H. split; [apply H; now left | intros x Hx; apply H; now right].
Qed.

Lemma trimEnd_nonempty (c : ascii) (r : string) :
  isSpace c = false -> trimEnd (String c r) <> "".
Proof.
  intros Hc. simpl. destruct (trimEnd r); [rewrite Hc |]; discriminate.
Qed.

Lemma no_mutating_keyword_spec (S : string) :
  existsb (fun k => mentions k S) MUTATING_KEYWORDS = false <->
  no_mutating_keyword S.
Proof.
  rewrite existsb_false. unfold no_mutating_keyword.
  split; intros H k Hk; specialize (H k Hk).
  - rewrite <- mentions_spec. congruence.
  - rewrite <- mentions_spec in H. now destruct (mentions k S).
Qed.

Lemma no_comment_marker_spec (S : string) :
  existsb (fun m => includes m S) COMMENT_MARKERS = false <->
  no_comment_marker S.
Proof.
  rewrite existsb_false. unfold no_comment_marker.
  split; intros H m Hm; specialize (H m Hm); now apply includes_false.
Qed.


(** ** The gate in front of the executor *)

Section GateFacts.
Variable ExecutionResult : Type.
Variable QueryExecutor : string -> ExecutionResult.

#[local] Abbreviation Log := (list (Event ExecutionResult)).

Lemma gated_nil : gated QueryExecutor [].
Proof. intros pre sql r post H. now destruct pre. Qed.

Lemma gated_verdict (log : Log) (sql : string) (v : SafetyVerdict) :
  gated QueryExecutor log -> gated QueryExecutor (log ++ [EvVerdict sql v])%list.
Proof.
  intros H pre sql' r post E.
  destruct post as [|x post'] using rev_ind.
  - apply app_inj_tail in E as [_ E]. discriminate.
  - clear IHpost'. rewrite app_comm_cons, app_assoc in E.
    apply app_inj_tail in E as [E _]. exact (H _ _ _ _ E).
Qed.

Lemma gated_execution (log : Log) (sql : string) :
  allowed (SqlSafetyValidator sql) = true ->
  gated QueryExecutor log ->
  gated QueryExecutor
    ((log ++ [EvVerdict sql (SqlSafetyValidator sql)])
       ++ [EvExecution sql (QueryExecutor sql)])%list.
Proof.
  intros Hv H pre sql' r post E.
  destruct post as [|x post'] using rev_ind.
  - apply app_inj_tail in E as [<- E]. injection E as <- <-.
    split; [| split; [exact Hv | reflexivity]].
    apply in_or_app. right. now left.
  - clear IHpost'. rewrite app_comm_cons, app_assoc in E.
    apply app_inj_tail in E as [E _].
    exact (@gated_verdict log sql (SqlSafetyValidator sql) H pre sql' r post' E).
Qed.

Lemma validateAndExecute_gated (g : GeneratedSql) (log : Log) :
  gated QueryExecutor log ->
  gated QueryExecutor (fst (validateAndExecute QueryExecutor g log)).
Proof.
  intros H. unfold validateAndExecute. cbv zeta.
  destruct (allowed (SqlSafetyValidator (candidate g))) eqn:Hv; cbn [fst].
  - now apply gated_execution.
  - now apply gated_verdict.
Qed.

Lemma serve_gated (gs : list GeneratedSql) :
  forall log : Log,
    gated QueryExecutor log -> gated QueryExecutor (serve QueryExecutor gs log).
Proof.
  induction gs as [|g gs IH]; intros log H; cbn [serve]; [exact H |].
  now apply IH, validateAndExecute_gated.
Qed.


End GateFacts.


(** ** The SQL generator *)

Lemma isSpace_not_isWord (c : ascii) : isSpace c = true -> isWord c = false.
Proof.
  intros H. destruct (isWord c) eqn:Hw; [| reflexivity].
  apply isWord_not_isSpace in Hw. congruence.
Qed.

Lemma dropWhile_all (p : ascii -> bool) (a b : string) :
  allb p a = true -> dropWhile p (a ++ b) = dropWhile p b.
Proof.
  induction a as [|c a IH]; simpl; intros H; [reflexivity |].
  apply andb_true_iff in H as [Hc Ha]. rewrite Hc. now apply IH.
Qed.

Lemma dropWhile_stops (p : ascii -> bool) (c : ascii) (r : string) :
  p c = false -> dropWhile p (String c r) = String c r.
Proof. intros H. simpl. now rewrite H. Qed.

Lemma endsInInk_tail (c d : ascii) (r : string) :
  endsInInk (String c (String d r)) -> endsInInk (String d r).
Proof.
  intros [_ H]. split; [discriminate |].
  simpl in H. simpl.
  destruct (trimEnd r) as [|e r'] eqn:Ht.
  - destruct (isSpace d).
    + destruct (isSpace c); discriminate.
    + congruence.
  - congruence.
Qed.

Lemma endsInInk_single (c : ascii) : endsInInk (String c "") -> isSpace c = false.
Proof.
  intros [_ H]. simpl in H. destruct (isSpace c); [discriminate | reflexivity].
Qed.

Lemma closesFence_after_ink (q t : string) :
  endsInInk q -> closesFence (q ++ t ++ FENCE) = false.
Proof.
  intros H. unfold closesFence. apply String.eqb_neq. intros E.
  apply (f_equal String.length) in E.
  revert H E. induction q as [|c q IH]; intros H E.
  - now destruct H.
  - destruct q as [|d q].
    + apply endsInInk_single in H.
      change (String c "" ++ t ++ FENCE) with (String c (t ++ FENCE)) in E.
      rewrite dropWhile_stops in E by exact H.
      simpl in E. rewrite length_append in E. simpl in E. lia.
    + destruct (isSpace c) eqn:Hc.
      * apply IH; [now apply endsInInk_tail in H |].
        change (String c (String d q) ++ t ++ FENCE)
          with (String c (String d q ++ t ++ FENCE)) in E.
        simpl in E. rewrite Hc in E. exact E.
      * change (String c (String d q) ++ t ++ FENCE)
          with (String c (String d q ++ t ++ FENCE)) in E.
        rewrite dropWhile_stops in E by exact Hc.
        simpl in E. rewrite !length_append in E. simpl in E. lia.
Qed.

Lemma closesFence_blank (t : string) : blank t -> closesFence (t ++ FENCE) = true.
Proof.
  intros H. unfold closesFence. rewrite dropWhile_all by exact H. reflexivity.
Qed.

Lemma lazyBody_body (body t : string) :
  endsInInk body -> blank t -> lazyBody (body ++ t ++ FENCE) = Some body.
Proof.
  intros H Bt. induction body as [|c body IH]; [now destruct H |].
  change (String c body ++ t ++ FENCE) with (String c (body ++ t ++ FENCE)).
  cbn [lazyBody].
  change (String c (body ++ t ++ FENCE)) with (String c body ++ t ++ FENCE).
  rewrite closesFence_after_ink by exact H.
  destruct body as [|d body].
  - simpl. destruct t as [|x t]; simpl.
    + reflexivity.
    + change (String x (t ++ FENCE)) with (String x t ++ FENCE).
      now rewrite closesFence_blank.
  - rewrite IH; [reflexivity | now apply endsInInk_tail in H].
Qed.

(** The match of the fence expression on a fenced payload. *)
Lemma fenceMatch_fenced (tag sep body sep' : string) (c : ascii) (r : string) :
  allb isWord tag = true -> blank sep -> blank sep' ->
  body = String c r -> isSpace c = false ->
  sep <> "" \/ isWord c = false ->
  endsInInk body ->
  fenceMatch (FENCE ++ tag ++ sep ++ body ++ sep' ++ FENCE) = Some body.
Proof.
  intros Htag Bsep Bsep' Eb Hc Hsep Hink.
  unfold fenceMatch. simpl startsWith. cbn [drop FENCE append].
  rewrite dropWhile_all by exact Htag.
  assert (Hw : dropWhile isWord (sep ++ body ++ sep' ++ FENCE)
               = sep ++ body ++ sep' ++ FENCE).
  { destruct sep as [|x sep].
    - destruct Hsep as [Hsep | Hsep]; [congruence |].
      subst body. simpl. now rewrite Hsep.
    - unfold blank in Bsep. simpl in Bsep.
      apply andb_true_iff in Bsep as [Hx _].
      simpl. now rewrite (isSpace_not_isWord _ Hx). }
  rewrite Hw, dropWhile_all by exact Bsep.
  rewrite Eb at 1.
  change (String c r ++ sep' ++ FENCE) with (String c (r ++ sep' ++ FENCE)).
  rewrite dropWhile_stops by exact Hc.
  change (String c (r ++ sep' ++ FENCE)) with (String c r ++ sep' ++ FENCE).
  rewrite <- Eb. now apply lazyBody_body.
Qed.

Lemma trim_inked (body : string) (c : ascii) (r : string) :
  body = String c r -> isSpace c = false -> endsInInk body -> trim body = body.
Proof.
  intros E Hc [_ H]. unfold trim. subst body.
  cbn [trimStart]. rewrite Hc. exact H.
Qed.

Lemma payloadText_fenced (text tag sep body sep' : string) (c : ascii) (r : string) :
  trim text = FENCE ++ tag ++ sep ++ body ++ sep' ++ FENCE ->
  allb isWord tag = true -> blank sep -> blank sep' ->
  body = String c r -> isSpace c = false ->
  sep <> "" \/ isWord c = false ->
  endsInInk body ->
  payloadText text = body.
Proof.
  intros E Htag Bsep Bsep' Eb Hc Hsep Hink. unfold payloadText.
  rewrite E, (fenceMatch_fenced tag Htag Bsep Bsep' Eb Hc Hsep Hink).
  destruct (String.eqb_spec body "") as [He |]; [congruence |].
  simpl. now apply (trim_inked Eb).
Qed.

Lemma payloadText_bare (text : string) :
  startsWith FENCE (trim text) = false -> payloadText text = trim text.
Proof. intros H. unfold payloadText, fenceMatch. now rewrite H. Qed.

(** The first character of an unescaped text is a line feed or is the first
    character of the text. *)
Lemma unescapeNewlines_head (d : ascii) (r : string) :
  exists u, unescapeNewlines (String d r) = String LF u
            \/ unescapeNewlines (String d r) = String d u.
Proof.
  simpl. destruct r as [|e r'].
  - exists "". now right.
  - destruct (Ascii.eqb d "\" && Ascii.eqb e "n").
    + eexists. left. reflexivity.
    + eexists. right. reflexivity.
Qed.

Lemma unescapeNewlines_clean_upto (n : nat) :
  forall s, String.length s <= n -> includes "\n" (unescapeNewlines s) = false.
Proof.
  induction n as [|n IH]; intros s Hn.
  - destruct s; [reflexivity | simpl in Hn; lia].
  - destruct s as [|c r]; [reflexivity |].
    destruct r as [|d r'].
    + cbn [unescapeNewlines includes startsWith].
      destruct (Ascii.eqb "\" c); reflexivity.
    + assert (Hr : includes "\n" (unescapeNewlines (String d r')) = false).
      { apply IH. simpl in *. lia. }
      assert (Hr' : includes "\n" (unescapeNewlines r') = false).
      { apply IH. simpl in *. lia. }
      change (unescapeNewlines (String c (String d r')))
        with (if Ascii.eqb c "\" && Ascii.eqb d "n"
              then String LF (unescapeNewlines r')
              else String c (unescapeNewlines (String d r'))).
      destruct (Ascii.eqb_spec c "\") as [-> | Hc]; cbn [andb].
      * destruct (Ascii.eqb_spec d "n") as [-> | Hd].
        -- cbn [includes]. rewrite Hr'. reflexivity.
        -- cbn [includes]. rewrite Hr.
           destruct (unescapeNewlines_head d r') as [u [E | E]]; rewrite E.
           ++ reflexivity.
           ++ cbn [startsWith]. rewrite Ascii.eqb_refl.
              destruct (Ascii.eqb_spec "n" d); [congruence | reflexivity].
      * cbn [includes startsWith].
        destruct (Ascii.eqb_spec "\" c); [congruence |].
        cbn [andb orb]. exact Hr.
Qed.

(** After the replacement no backslash is followed by [n]. *)
Lemma unescapeNewlines_clean (s : string) : ~ occurs "\n" (unescapeNewlines s).
Proof.
  apply includes_false. now apply (unescapeNewlines_clean_upto (n := String.length s)).
Qed.

(** The replacement acts on each occurrence of the pair. *)
Lemma unescapeNewlines_pair (a b : string) :
  ~ occurs "\" a ->
  unescapeNewlines (a ++ "\n" ++ b) = a ++ String LF (unescapeNewlines b).
Proof.
  induction a as [|c a IH]; intros H.
  - reflexivity.
  - assert (Hc : Ascii.eqb c "\" = false).
    { apply Ascii.eqb_neq. intros ->. apply H. now exists "", a. }
    assert (Ha : ~ occurs "\" a).
    { intros [pre [post E]]. apply H. exists (String c pre), post.
      simpl. now rewrite E. }
    change (String c a ++ "\n" ++ b) with (String c (a ++ "\n" ++ b)).
    destruct (a ++ "\n" ++ b) as [|d r'] eqn:E.
    + destruct a; discriminate.
    + change (unescapeNewlines (String c (String d r')))
        with (if Ascii.eqb c "\" && Ascii.eqb d "n"
              then String LF (unescapeNewlines r')
              else String c (unescapeNewlines (String d r'))).
      rewrite Hc. cbn [andb]. rewrite IH by exact Ha. reflexivity.
Qed.

Section GeneratorFacts.
Context {Engine : JSEngine}.
Variable JSON_parse : string -> option JSValue.
Variable SQL_GENERATION_PROMPT : string.
Variable model : list string -> string -> Settled string string.

#[local] Abbreviation generate :=
  (generateSqlAndSummary JSON_parse SQL_GENERATION_PROMPT model).
#[local] Abbreviation prompt := (promptOf SQL_GENERATION_PROMPT).

(** Whatever the answer, the model is called once. *)
Lemma generateSqlAndSummary_one_call (history : list string) (query : string) :
  snd (generate history query) = (history ++ [prompt query])%list.
Proof.
  unfold generateSqlAndSummary.
  destruct (model history (prompt query)) as [e | text]; [reflexivity |].
  destruct (parsePayload JSON_parse (payloadText text)); reflexivity.
Qed.

(** C3, as the code has it.  When the parse of the answer fails, or the
    field [sql] or [summary] is missing or falsy, the generator fails at
    once with the error for an invalid response: the model has been called
    once, there is no second call and no fallback model, and no statement
    is returned that a validator or an executor could receive. *)
Theorem generateSqlAndSummary_fails_without_retry
  (history : list string) (query text : string) :
  model history (prompt query) = Resolved text ->
  parsePayload JSON_parse (payloadText text) = None ->
  generate history query
    = (Rejected InvalidResponse, (history ++ [prompt query])%list).
Proof.
  intros Hm Hp. unfold generateSqlAndSummary. now rewrite Hm, Hp.
Qed.

(** C4.  A code fence around the answer, with an optional tag and white
    space inside it, is removed before [JSON.parse] sees the payload, and a
    bare answer is parsed as it is; in the [sql] that is returned every
    backslash followed by [n] has become a line feed, so none is left. *)
Theorem generateSqlAndSummary_strips_fence_and_unescapes
  (history : list string) (query text tag sep body sep' : string)
  (c : ascii) (r : string) (parsedData summaryField : JSValue)
  (sqlText : string) :
  model history (prompt query) = Resolved text ->
  (trim text = body /\ startsWith FENCE body = false) \/
  (trim text = FENCE ++ tag ++ sep ++ body ++ sep' ++ FENCE /\
   allb isWord tag = true /\ blank sep /\ blank sep' /\
   body = String c r /\ isSpace c = false /\
   (sep <> "" \/ isWord c = false) /\ endsInInk body) ->
  JSON_parse body = Some parsedData ->
  getProp parsedData "sql" = Some (VStr sqlText) -> sqlText <> "" ->
  getProp parsedData "summary" = Some summaryField ->
  truthy summaryField = true ->
  generate history query
    = (Resolved {| sql := unescapeNewlines sqlText; summary := summaryField |},
       (history ++ [prompt query])%list)
  /\ ~ occurs "\n" (unescapeNewlines sqlText).
Proof.
  intros Hm Hshape Hparse Hsql Hne Hsum Htruthy.
  split; [| apply unescapeNewlines_clean].
  assert (Hp : payloadText text = body).
  { destruct Hshape as [[E Hs] | [E [Htag [Bs [Bs' [Eb [Hc [Hsep Hink]]]]]]]].
    - rewrite payloadText_bare; [exact E | now rewrite E].
    - now apply (payloadText_fenced text tag E Htag Bs Bs' Eb Hc Hsep Hink). }
  unfold generateSqlAndSummary. rewrite Hm, Hp.
  unfold parsePayload. rewrite Hparse, Hsql. cbn [truthy].
  destruct (String.eqb_spec sqlText "") as [| _]; [congruence |].
  cbn [negb]. now rewrite Hsum, Htruthy.
Qed.

End GeneratorFacts.

(** The failure of C3 at a model whose first answer is prose and whose
    second answer would be a good payload: the generator has called the
    model once, not twice. *)
Lemma retry_is_missing :
  ~ @retries_once_then_fails IntEngine demoParse
      "Generate SQL." demoModel [] "Show all FIRs".
Proof.
  intros H. specialize (H _ eq_refl eq_refl).
  rewrite (surjective_pairing (generateSqlAndSummary _ _ _ _ _)) in H.
  destruct H as [H _].
  rewrite generateSqlAndSummary_one_call in H. discriminate.
Qed.

Lemma generateSqlAndSummary_fails_without_retry_witness :
  @generateSqlAndSummary IntEngine demoParse "Generate SQL." demoModel []
    "Show all FIRs"
  = (Rejected InvalidResponse,
     [@promptOf "Generate SQL." "Show all FIRs"]).
Proof.
  apply (@generateSqlAndSummary_fails_without_retry IntEngine demoParse
           "Generate SQL." demoModel [] "Show all FIRs"
           "I cannot answer that.");
    reflexivity.
Defined.

Lemma generateSqlAndSummary_strips_fence_and_unescapes_witness :
  @generateSqlAndSummary IntEngine demoParse "Generate SQL." fencedModel []
    "Show all FIRs"
  = (Resolved {| sql := "SELECT fir_id" ++ String LF "FROM FIR";
                 summary := VStr "All FIRs." |},
     [@promptOf "Generate SQL." "Show all FIRs"])
  /\ ~ occurs "\n" ("SELECT fir_id" ++ String LF "FROM FIR").
Proof.
  apply (@generateSqlAndSummary_strips_fence_and_unescapes IntEngine demoParse
           "Generate SQL." fencedModel [] "Show all FIRs"
           fencedPayload "json" (String LF "") goodPayload (String LF "")
           "{"%char (drop 1 goodPayload)
           (VObj [("sql", VStr "SELECT fir_id\nFROM FIR");
                  ("summary", VStr "All FIRs.")])
           (VStr "All FIRs.") "SELECT fir_id\nFROM FIR").
  - reflexivity.
  - right. repeat split; try reflexivity; try discriminate.
    left. discriminate.
  - reflexivity.
  - reflexivity.
  - discriminate.
  - reflexivity.
  - reflexivity.
Defined.

(** ** The call of the backend *)

Section ApiFacts.
Context {Engine : JSEngine}.

(** C10, as the code has it.  [processQuery] rejects exactly when [fetch]
    rejects, when the status of the response is not ok, when the body of an
    ok response is no JSON text, when its payload is [null], or when the
    field [error] of the payload is truthy; in every other case it resolves
    with the parsed payload, unchanged. *)
Theorem processQuery_outcomes (backend : string -> FetchResult) (query : string) :
  (rejects (processQuery backend query) <->
     (exists e, backend query = NetworkError e) \/
     (exists r, backend query = Responded r /\
        (ok r = false \/ json r = None \/
         (exists data, json r = Some data /\ getProp data "error" = None) \/
         (exists data err, json r = Some data /\
            getProp data "error" = Some err /\ truthy err = true))))
  /\
  (forall data,
     processQuery backend query = Resolved data <->
     exists r err, backend query = Responded r /\ ok r = true /\
                   json r = Some data /\
                   getProp data "error" = Some err /\ truthy err = false).
Proof.
  unfold processQuery, rejects.
  destruct (backend query) as [e | r].
  { split.
    - split; [intros _; left; now exists e | intros _; now eexists].
    - intros data. split; [discriminate | intros [r [err [H _]]]; discriminate]. }
  destruct (ok r) eqn:Hok; cbn [negb].
  - destruct (json r) as [data |] eqn:Hjson.
    + destruct (getProp data "error") as [err |] eqn:Herr.
      * destruct (truthy err) eqn:Ht.
        -- split.
           ++ split; [| intros _; now eexists].
              intros _. right. exists r. split; [reflexivity |].
              right. right. right. now exists data, err.
           ++ intros data'. split; [discriminate |].
              intros [r' [err' [E [_ [Hj [He Ht']]]]]].
              injection E as <-. congruence.
        -- split.
           ++ split; [intros [e H]; discriminate |].
              intros [[e H] | [r' [E H]]]; [discriminate |].
              injection E as <-.
              destruct H as [H | [H | [[d [Hj He]] | [d [er [Hj [He Ht']]]]]]];
                congruence.
           ++ intros data'. split.
              ** intros H. injection H as <-. now exists r, err.
              ** intros [r' [err' [E [_ [Hj _]]]]].
                 injection E as <-. congruence.
      * split.
        -- split; [| intros _; now eexists].
           intros _. right. exists r. split; [reflexivity |].
           right. right. left. now exists data.
        -- intros data'. split; [discriminate |].
           intros [r' [err' [E [_ [Hj [He _]]]]]].
           injection E as <-. congruence.
    + split.
      * split; [| intros _; now eexists].
        intros _. right. exists r. split; [reflexivity |]. right. now left.
      * intros data'. split; [discriminate |].
        intros [r' [err' [E [_ [Hj _]]]]]. injection E as <-. congruence.
  - split.
    + split.
      * intros _. right. exists r. split; [reflexivity | now left].
      * intros _.
        destruct (getProp _ "detail") as [detail |]; [| now eexists].
        destruct (truthy detail); now eexists.
    + intros data'. split.
      * destruct (getProp _ "detail") as [detail |]; [| discriminate].
        destruct (truthy detail); discriminate.
      * intros [r' [err' [E [Hok' _]]]]. injection E as <-. congruence.
Qed.

End ApiFacts.

(** C10 as stated fails for an ok response whose body is the JSON text
    [null]: the read of [data.error] throws, so the call rejects although
    the status is ok and the payload has no error field. *)
Lemma null_payload_rejects :
  ~ @rejects_exactly_on_status_or_error IntEngine nullBackend "Show all FIRs" /\
  processQuery nullBackend "Show all FIRs" = Rejected PropertyTypeError.
Proof.
  split; [| reflexivity]. intros [H _].
  destruct H as [[r [E Hok]] | [r [data [err [E [Hj [He _]]]]]]].
  - now exists PropertyTypeError.
  - injection E as <-. discriminate.
  - injection E as <-. injection Hj as <-. discriminate.
Qed.

(** ** The chart series *)

Lemma findIndexFrom_Some {A : Type} (p : A -> nat -> bool) (l : list A) :
  forall i k,
    findIndexFrom p i l = Some k ->
    i <= k /\
    (exists x, nth_error l (k - i) = Some x /\ p x k = true) /\
    (forall j y, i <= j -> j < k -> nth_error l (j - i) = Some y ->
                 p y j = false).
Proof.
  induction l as [|x l IH]; intros i k H; simpl in H; [discriminate |].
  destruct (p x i) eqn:Hp.
  - injection H as <-. split; [lia |]. split.
    + exists x. now rewrite Nat.sub_diag.
    + intros j y Hij Hjk. lia.
  - destruct (IH _ _ H) as [Hle [[y [Hy Hpy]] Hmin]].
    split; [lia |]. split.
    + exists y. replace (k - i) with (S (k - S i)) by lia. now simpl.
    + intros j z Hij Hjk Hz.
      destruct (Nat.eq_dec j i) as [-> | Hne].
      * rewrite Nat.sub_diag in Hz. simpl in Hz. congruence.
      * apply (Hmin j z); [lia | lia |].
        replace (j - i) with (S (j - S i)) in Hz by lia. exact Hz.
Qed.

Lemma findIndexFrom_None {A : Type} (p : A -> nat -> bool) (l : list A) :
  forall i,
    findIndexFrom p i l = None ->
    forall j y, nth_error l j = Some y -> p y (i + j) = false.
Proof.
  induction l as [|x l IH]; intros i H j y Hy.
  - destruct j; discriminate.
  - simpl in H. destruct (p x i) eqn:Hp; [discriminate |].
    destruct j as [|j]; simpl in Hy.
    + injection Hy as <-. now rewrite Nat.add_0_r.
    + rewrite <- Nat.add_succ_comm. now apply IH.
Qed.

Lemma findIndex_Some {A : Type} (p : A -> nat -> bool) (l : list A) (k : nat) :
  findIndex p l = Some k ->
  (exists x, nth_error l k = Some x /\ p x k = true) /\
  (forall j y, j < k -> nth_error l j = Some y -> p y j = false).
Proof.
  intros H. destruct (findIndexFrom_Some _ _ _ H) as [_ [Hx Hmin]].
  rewrite Nat.sub_0_r in Hx. split; [exact Hx |].
  intros j y Hjk Hy. apply (Hmin j y); [lia | exact Hjk |].
  now rewrite Nat.sub_0_r.
Qed.

Lemma findIndex_None {A : Type} (p : A -> nat -> bool) (l : list A) :
  findIndex p l = None ->
  forall j y, nth_error l j = Some y -> p y j = false.
Proof. intros H j y Hy. now apply (findIndexFrom_None _ _ _ H j). Qed.

Section ChartFacts.
Context {Engine : JSEngine}.

Lemma chartData_strategy1 (data : QueryResult) (firstRow : list Cell)
  (rest : list (list Cell)) (v : nat) :
  rows data = firstRow :: rest ->
  numericColumnIndex firstRow = Some v ->
  chartData data =
    Returned
      {| strategy := CategoricalValue;
         series :=
           map (fun row =>
                  {| name := String_ (cellAt row (stringColumnIndex firstRow v));
                     value := NumberValue (Number_ (cellAt row v)) |})
               (rows data) |}.
Proof.
  intros Hrows Hv. unfold chartData. rewrite Hrows. cbn [List.length Nat.ltb Nat.leb hd].
  now rewrite Hv.
Qed.

(** C5, as the code has it.  When some first-row value is numeric the
    series is the categorical-value one.  Its value column is the first
    column whose first-row value is numeric.  Its label column is the first
    column with a text in the first row when there is one; when every
    first-row value is numeric, the label column is the second column, or
    the value column itself for a single column. *)
Theorem chartData_categorical_value (data : QueryResult)
  (firstRow : list Cell) (rest : list (list Cell)) :
  rows data = firstRow :: rest ->
  (exists i n, cellAt firstRow i = Some (CNum n)) ->
  exists valueColumn labelColumn,
    (exists n, cellAt firstRow valueColumn = Some (CNum n)) /\
    (forall j, j < valueColumn -> exists s, cellAt firstRow j = Some (CStr s)) /\
    (first_other_text_column firstRow valueColumn labelColumn \/
     (forall j s, cellAt firstRow j <> Some (CStr s)) /\
     valueColumn = 0 /\
     labelColumn = (if 1 <? List.length firstRow then 1 else 0)) /\
    chartData data =
      Returned
        {| strategy := CategoricalValue;
           series :=
             map (fun row =>
                    {| name := String_ (cellAt row labelColumn);
                       value := NumberValue (Number_ (cellAt row valueColumn)) |})
                 (rows data) |}.
Proof.
  intros Hrows [i [n Hi]].
  destruct (numericColumnIndex firstRow) as [v |] eqn:Hv.
  2:{ unfold numericColumnIndex in Hv.
      pose proof (@findIndex_None _ _ _ Hv i _ Hi) as H. discriminate. }
  exists v, (stringColumnIndex firstRow v).
  pose proof Hv as Hv'. unfold numericColumnIndex in Hv'.
  apply findIndex_Some in Hv' as [[x [Hx Hpx]] Hmin].
  assert (Hnum : exists n0, cellAt firstRow v = Some (CNum n0)).
  { destruct x as [s | n0]; [discriminate | now exists n0]. }
  assert (Hbefore : forall j, j < v -> exists s, cellAt firstRow j = Some (CStr s)).
  { intros j Hj. unfold cellAt.
    destruct (nth_error firstRow j) as [y |] eqn:Hy.
    - specialize (Hmin j y Hj Hy). destruct y as [s | n0]; [now exists s | discriminate].
    - apply nth_error_None in Hy.
      assert (v < List.length firstRow) by (apply nth_error_Some; congruence).
      lia. }
  split; [exact Hnum |]. split; [exact Hbefore |].
  split; [| now apply chartData_strategy1 with (rest := rest)].
  unfold stringColumnIndex.
  destruct (findIndex (fun cell index => isString cell && negb (index =? v))
                      firstRow) as [l |] eqn:Hl.
  - left. apply findIndex_Some in Hl as [[y [Hy Hpy]] Hminl].
    apply andb_true_iff in Hpy as [Hstr Hne].
    apply negb_true_iff, Nat.eqb_neq in Hne.
    split; [exact Hne |]. split.
    + destruct y as [s | n0]; [now exists s | discriminate].
    + intros j s Hj Hjv Hs. specialize (Hminl j _ Hj Hs).
      simpl in Hminl. apply negb_false_iff, Nat.eqb_eq in Hminl. contradiction.
  - right.
    assert (Hnone : forall j s, cellAt firstRow j <> Some (CStr s)).
    { intros j s Hs. pose proof (@findIndex_None _ _ _ Hl j _ Hs) as H.
      simpl in H. apply negb_false_iff, Nat.eqb_eq in H. subst j.
      destruct Hnum as [n0 Hn0]. congruence. }
    assert (Hv0 : v = 0).
    { destruct v as [|v']; [reflexivity |].
      destruct (Hbefore 0) as [s Hs]; [lia |]. now apply Hnone in Hs. }
    split; [exact Hnone |]. split; [exact Hv0 |]. subst v.
    destruct firstRow as [|a [|b firstRow']]; reflexivity.
Qed.

End ChartFacts.

(** C5 as stated fails for a result with one numeric column: no other
    column can be the label column. *)
Lemma categorical_value_rule_fails :
  ~ @categorical_value_rule IntEngine singleCount /\
  chartData singleCount =
    Returned {| strategy := CategoricalValue;
                series := [ {| name := "7"; value := NumberValue (Int 7) |} ] |}.
Proof.
  split; [| reflexivity]. intros H.
  destruct (H _ _ eq_refl) as [v [l [_ [[Hne [[s Hs] _]] _]]]].
  { exists 0. eexists. reflexivity. }
  destruct l as [|[|l]]; discriminate.
Qed.

(** The scenario of section 8, through the theorem for C5. *)
Lemma chartData_categorical_value_witness :
  exists valueColumn labelColumn,
    (exists n, cellAt theftRow valueColumn = Some (CNum n)) /\
    (forall j, j < valueColumn -> exists s, cellAt theftRow j = Some (CStr s)) /\
    (first_other_text_column theftRow valueColumn labelColumn \/
     (forall j s, cellAt theftRow j <> Some (CStr s)) /\
     valueColumn = 0 /\ labelColumn = 1) /\
    chartData crimeCounts =
      Returned
        {| strategy := CategoricalValue;
           series :=
             map (fun row =>
                    {| name := String_ (cellAt row labelColumn);
                       value := NumberValue (Number_ (cellAt row valueColumn)) |})
                 (rows crimeCounts) |}.
Proof.
  apply (@chartData_categorical_value IntEngine crimeCounts theftRow [assaultRow]).
  - reflexivity.
  - exists 1. eexists. reflexivity.
Defined.

(** The scenario of section 8, evaluated: the label column is [crime_type],
    the value column is [count]. *)
Example chartData_crimeCounts :
  numericColumnIndex theftRow = Some 1 /\
  stringColumnIndex theftRow 1 = 0 /\
  nth_error (columns crimeCounts) 0 = Some "crime_type" /\
  nth_error (columns crimeCounts) 1 = Some "count" /\
  chartData crimeCounts =
    Returned {| strategy := CategoricalValue;
                series := [ {| name := "Theft"; value := NumberValue (Int 120) |};
                            {| name := "Assault"; value := NumberValue (Int 45) |} ] |}.
Proof. repeat split. Qed.

(** C6 at a result whose date column holds a number in its second row:
    the call throws, and no series is returned. *)
Example chartData_mixedDates_throws : chartData mixedDates = Threw.
Proof. reflexivity. Qed.

(** *** Strategy 2 on a column that holds dates in every row *)

Section DateCountFacts.
Context {Engine : JSEngine}.

(** The comparison of the engine is total. *)
Hypothesis localeCompare_total :
  forall a b, (0 < localeCompare a b)%Z -> (localeCompare b a <= 0)%Z.

Lemma insertPoint_perm (x : ChartPoint) (l : list ChartPoint) :
  Permutation (x :: l) (insertPoint x l).
Proof.
  induction l as [|y l IH]; simpl; [reflexivity |].
  destruct (localeCompare (name x) (name y) <=? 0)%Z; [reflexivity |].
  apply perm_trans with (y :: x :: l); [apply perm_swap | now apply perm_skip].
Qed.

Lemma sortByName_perm (l : list ChartPoint) : Permutation l (sortByName l).
Proof.
  induction l as [|x l IH]; simpl; [constructor |].
  apply perm_trans with (x :: sortByName l);
    [now apply perm_skip | apply insertPoint_perm].
Qed.

Lemma insertPoint_sorted (x : ChartPoint) (l : list ChartPoint) :
  Sorted byName l -> Sorted byName (insertPoint x l).
Proof.
  induction 1 as [|y l Hl IH Hy]; simpl.
  - repeat constructor.
  - destruct (Z.leb_spec (localeCompare (name x) (name y)) 0) as [Hle | Hgt].
    + constructor; [now constructor |]. now constructor.
    + constructor; [exact IH |].
      destruct l as [|z l]; simpl.
      * constructor. now apply localeCompare_total.
      * destruct (Z.leb_spec (localeCompare (name x) (name z)) 0).
        -- constructor. now apply localeCompare_total.
        -- constructor. now inversion Hy.
Qed.

Lemma sortByName_sorted (l : list ChartPoint) : Sorted byName (sortByName l).
Proof.
  induction l as [|x l IH]; simpl; [constructor | now apply insertPoint_sorted].
Qed.

End DateCountFacts.

Section AggregationFacts.
Context {Engine : JSEngine}.

Lemma countByMonth_incrementAll (d : nat) (rows : list (list Cell)) :
  Forall (fun row => exists s, cellAt row d = Some (CStr s)) rows ->
  forall acc,
    countByMonth d rows acc = Returned (incrementAll (monthsOf d rows) acc).
Proof.
  induction 1 as [|row rows [s Hs] _ IH]; intros acc; simpl; [reflexivity |].
  rewrite Hs. simpl. apply IH.
Qed.

Lemma ownProperty_setOwn (k k' : string) (v : AccValue) (acc : Aggregation) :
  ownProperty k' (setOwn k v acc)
  = if String.eqb k' k then Some v else ownProperty k' acc.
Proof.
  induction acc as [|[k0 v0] acc IH]; simpl.
  - reflexivity.
  - destruct (String.eqb_spec k k0) as [-> | Hne]; simpl.
    + destruct (String.eqb k' k0); reflexivity.
    + rewrite IH. destruct (String.eqb_spec k' k0) as [-> | Hne'].
      * destruct (String.eqb_spec k0 k); [congruence | reflexivity].
      * reflexivity.
Qed.

Lemma ownProperty_In (acc : Aggregation) (k : string) (v : AccValue) :
  NoDup (map fst acc) -> (In (k, v) acc <-> ownProperty k acc = Some v).
Proof.
  induction acc as [|[k0 v0] acc IH]; simpl; intros Hnd.
  - split; [tauto | discriminate].
  - inversion Hnd as [|? ? Hnotin Hnd']; subst.
    destruct (String.eqb_spec k k0) as [-> | Hne].
    + split.
      * intros [E | Hin]; [congruence |].
        exfalso. apply Hnotin. now apply (in_map fst) in Hin.
      * intros E. left. congruence.
    + rewrite <- (IH Hnd'). split.
      * intros [E | Hin]; [congruence | exact Hin].
      * now right.
Qed.

Lemma setOwn_keys (k : string) (v : AccValue) (acc : Aggregation) :
  map fst (setOwn k v acc)
  = if existsb (String.eqb k) (map fst acc) then map fst acc
    else (map fst acc ++ [k])%list.
Proof.
  induction acc as [|[k0 v0] acc IH]; simpl; [reflexivity |].
  destruct (String.eqb_spec k k0) as [-> | Hne]; simpl; [reflexivity |].
  rewrite IH. now destruct (existsb (String.eqb k) (map fst acc)).
Qed.

Lemma existsb_eqb_In (k : string) (l : list string) :
  existsb (String.eqb k) l = true <-> In k l.
Proof.
  rewrite existsb_exists. split.
  - intros [x [Hx E]]. apply String.eqb_eq in E. now subst.
  - intros H. exists k. split; [exact H | apply String.eqb_refl].
Qed.

Lemma setOwn_NoDup (k : string) (v : AccValue) (acc : Aggregation) :
  NoDup (map fst acc) -> NoDup (map fst (setOwn k v acc)).
Proof.
  intros H. rewrite setOwn_keys.
  destruct (existsb (String.eqb k) (map fst acc)) eqn:E; [exact H |].
  apply NoDup_app; [exact H | repeat constructor; tauto |].
  intros x Hx [<- | []]. apply existsb_eqb_In in Hx. congruence.
Qed.

Lemma setOwn_In (k : string) (v : AccValue) (acc : Aggregation)
  (k' : string) (v' : AccValue) :
  In (k', v') (setOwn k v acc) -> (k' = k /\ v' = v) \/ In (k', v') acc.
Proof.
  induction acc as [|[k0 v0] acc IH]; simpl.
  - intros [E | []]. left. now injection E.
  - destruct (String.eqb_spec k k0) as [-> | Hne]; simpl.
    + intros [E | Hin]; [left; now injection E | right; now right].
    + intros [E | Hin]; [right; now left |].
      destruct (IH Hin) as [H | H]; [now left | right; now right].
Qed.

Lemma increment_plain (k : string) (acc : Aggregation) :
  plainKey k -> counters acc ->
  increment k acc = setOwn k (Count (S (countOf k acc))) acc
  /\ counters (increment k acc).
Proof.
  intros Hk [Hnd Hc]. unfold increment, countOf.
  assert (E : match ownProperty k acc with
              | Some (Count c) => setOwn k (Count (S c)) acc
              | Some (Text t) =>
                  setOwn k (if String.eqb t "" then Count 1 else Text (t ++ "1")) acc
              | None =>
                  if existsb (String.eqb k) OBJECT_PROTOTYPE_KEYS
                  then if String.eqb k "__proto__" then acc
                       else setOwn k (Text (protoText k ++ "1")) acc
                  else setOwn k (Count 1) acc
              end
              = setOwn k (Count (S match ownProperty k acc with
                                   | Some (Count c) => c
                                   | _ => 0
                                   end)) acc).
  { destruct (ownProperty k acc) as [[c | t] |] eqn:Ho.
    - reflexivity.
    - apply (ownProperty_In acc k (Text t) Hnd) in Ho.
      destruct (Hc _ _ Ho) as [c Hbad]. discriminate.
    - unfold plainKey in Hk. now rewrite Hk. }
  rewrite E. split; [reflexivity |]. split.
  - now apply setOwn_NoDup.
  - intros k' v' Hin. apply setOwn_In in Hin as [[_ ->] | Hin]; eauto.
Qed.

Lemma incrementAll_counts (ms : list string) :
  Forall plainKey ms ->
  forall acc, counters acc ->
    counters (incrementAll ms acc) /\
    forall k, countOf k (incrementAll ms acc)
              = countOf k acc + count_occ string_dec ms k
              /\ (In k (map fst (incrementAll ms acc))
                  <-> In k (map fst acc) \/ In k ms).
Proof.
  induction 1 as [|m ms Hm _ IH]; intros acc Hacc; simpl.
  - split; [exact Hacc |]. intros k. split; [lia | tauto].
  - destruct (increment_plain Hm Hacc) as [E Hinc].
    destruct (IH _ Hinc) as [Hres Hcount]. split; [exact Hres |].
    intros k. destruct (Hcount k) as [Hc Hk]. rewrite Hc, Hk. clear Hc Hk.
    rewrite E. unfold countOf at 1. rewrite ownProperty_setOwn, setOwn_keys.
    destruct (string_dec m k) as [-> | Hne].
    + rewrite String.eqb_refl. split; [lia |].
      destruct (existsb (String.eqb k) (map fst acc)) eqn:Hex.
      * apply existsb_eqb_In in Hex. tauto.
      * rewrite in_app_iff. simpl. tauto.
    + destruct (String.eqb_spec k m) as [-> | _]; [congruence |].
      split; [reflexivity |].
      destruct (existsb (String.eqb m) (map fst acc)) eqn:Hex.
      * intuition congruence.
      * rewrite in_app_iff. simpl. intuition congruence.
Qed.

Lemma insertIndexed_perm {A : Type} (e : N * A) (l : list (N * A)) :
  Permutation (e :: l) (insertIndexed e l).
Proof.
  induction l as [|y l IH]; simpl; [reflexivity |].
  destruct (fst e <=? fst y)%N; [reflexivity |].
  apply perm_trans with (y :: e :: l); [apply perm_swap | now apply perm_skip].
Qed.

(** [Object.entries] lists every own property once. *)
Lemma ownEntries_perm (acc : Aggregation) : Permutation acc (ownEntries acc).
Proof.
  unfold ownEntries.
  set (f := fun e : string * AccValue =>
              match arrayIndex (fst e) with
              | Some i => [(i, e)]
              | None => []
              end).
  set (g := fun e : string * AccValue =>
              match arrayIndex (fst e) with
              | Some _ => false
              | None => true
              end).
  apply perm_trans with (map snd (flat_map f acc) ++ filter g acc)%list.
  - induction acc as [|e acc IH]; simpl; [constructor |].
    unfold f at 1, g at 1. destruct (arrayIndex (fst e)); simpl.
    + now apply perm_skip.
    + now apply Permutation_cons_app.
  - apply Permutation_app_tail, Permutation_map.
    induction (flat_map f acc) as [|x l IH]; simpl; [constructor |].
    apply perm_trans with (x :: fold_right insertIndexed [] l);
      [now apply perm_skip | apply insertIndexed_perm].
Qed.

End AggregationFacts.

Lemma isoMonth_plain (s : string) : dateRegex_test s = true -> plainKey (take 7 s).
Proof.
  unfold dateRegex_test, plainKey.
  destruct s as [|y1 [|y2 [|y3 [|y4 [|h1 [|m1 [|m2 [|h2 [|d1 [|d2 [|? ?]]]]]]]]]]];
    try discriminate.
  intros H. repeat (apply andb_true_iff in H as [H ?]).
  destruct y1 as [[] [] [] [] [] [] [] []]; try discriminate; reflexivity.
Qed.

Section DateCountTheorem.
Context {Engine : JSEngine}.

Hypothesis localeCompare_total :
  forall a b, (0 < localeCompare a b)%Z -> (localeCompare b a <= 0)%Z.

(** Strategy 2 on a result whose first row has no number, and whose first
    date column holds a date in every row: the series is the date-count one;
    it has one point for each year-month prefix, its value is the number of
    rows with that prefix, and the points are in the order of
    [localeCompare]. *)
Theorem chartData_date_count (data : QueryResult) (firstRow : list Cell)
  (rest : list (list Cell)) (d : nat) :
  rows data = firstRow :: rest ->
  numericColumnIndex firstRow = None ->
  dateColumnIndex firstRow = Some d ->
  Forall (fun row => exists s, cellAt row d = Some (CStr s)
                               /\ dateRegex_test s = true) (rows data) ->
  exists points,
    chartData data = Returned {| strategy := DateCount; series := points |} /\
    Sorted byName points /\
    NoDup (map name points) /\
    forall p,
      In p points <->
      exists k, In k (monthsOf d (rows data)) /\
                p = {| name := k;
                       value :=
                         NumberValue
                           (num_of_Z
                              (Z.of_nat
                                 (count_occ string_dec
                                            (monthsOf d (rows data)) k))) |}.
Proof.
  intros Hrows Hnum Hdate Hall.
  set (ms := monthsOf d (rows data)).
  set (agg := incrementAll ms []).
  assert (Hstr : Forall (fun row => exists s, cellAt row d = Some (CStr s))
                        (rows data)).
  { eapply Forall_impl; [| exact Hall]. intros row [s [Hs _]]. now exists s. }
  assert (Hplain : Forall plainKey ms).
  { unfold ms, monthsOf. apply Forall_map.
    eapply Forall_impl; [| exact Hall]. intros row [s [Hs Hd]].
    rewrite Hs. simpl. now apply isoMonth_plain. }
  assert (Hempty : counters ([] : Aggregation)).
  { split; [constructor | intros k v []]. }
  destruct (incrementAll_counts Hplain Hempty) as [[Hnd Hcnt] Hcount].
  fold agg in Hnd, Hcnt, Hcount.
  exists (sortByName (map toPoint (ownEntries agg))).
  assert (Hperm : Permutation (map toPoint agg)
                              (sortByName (map toPoint (ownEntries agg)))).
  { apply perm_trans with (map toPoint (ownEntries agg)).
    - apply Permutation_map, ownEntries_perm.
    - apply sortByName_perm. }
  split; [| split; [| split]].
  - unfold chartData. rewrite Hrows. cbn [List.length Nat.ltb Nat.leb hd].
    rewrite Hnum, Hdate, <- Hrows.
    now rewrite countByMonth_incrementAll by exact Hstr.
  - now apply sortByName_sorted.
  - apply (Permutation_NoDup (l := map name (map toPoint agg))).
    + now apply Permutation_map.
    + rewrite map_map. exact Hnd.
  - intros p.
    assert (Hin : In p (sortByName (map toPoint (ownEntries agg)))
                  <-> In p (map toPoint agg)).
    { split; apply Permutation_in; [now apply Permutation_sym | exact Hperm]. }
    rewrite Hin, in_map_iff. split.
    + intros [[k v] [<- Hkv]].
      destruct (Hcnt _ _ Hkv) as [c ->].
      destruct (Hcount k) as [Hc Hk]. exists k. split.
      * pose proof (in_map fst _ _ Hkv) as Hfst.
        apply Hk in Hfst as [[] | Hms]. exact Hms.
      * apply (ownProperty_In agg k (Count c) Hnd) in Hkv.
        unfold countOf in Hc. rewrite Hkv in Hc. simpl in Hc.
        unfold toPoint. simpl. now rewrite Hc.
    + intros [k [Hk ->]].
      destruct (Hcount k) as [Hc Hkeys].
      assert (Hkin : In k (map fst agg)) by (apply Hkeys; now right).
      apply in_map_iff in Hkin as [[k' v] [E Hkv]]. simpl in E. subst k'.
      exists (k, v). split; [| exact Hkv].
      destruct (Hcnt _ _ Hkv) as [c ->].
      apply (ownProperty_In agg k (Count c) Hnd) in Hkv.
      unfold countOf in Hc. rewrite Hkv in Hc. simpl in Hc.
      unfold toPoint. simpl. now rewrite Hc.
Qed.

End DateCountTheorem.

Lemma compareCodeUnits_total (a b : string) :
  (0 < compareCodeUnits a b)%Z -> (compareCodeUnits b a <= 0)%Z.
Proof.
  unfold compareCodeUnits. rewrite (String.compare_antisym a b).
  destruct (String.compare b a); simpl; lia.
Qed.

(** The arrests of the mock executor, counted by month. *)
Example chartData_arrests :
  executeQuery (query kumarArrests) = Resolved kumarArrests /\
  chartData kumarArrests =
    Returned {| strategy := DateCount;
                series := [ {| name := "2025-05"; value := NumberValue (Int 2) |};
                            {| name := "2025-06"; value := NumberValue (Int 1) |} ] |}.
Proof. split; reflexivity. Qed.

(** The same result through the theorem for strategy 2. *)
Example chartData_date_count_arrests :
  exists points,
    chartData kumarArrests
      = Returned {| strategy := DateCount; series := points |} /\
    Sorted byName points /\
    NoDup (map name points) /\
    forall p,
      In p points <->
      exists k, In k (monthsOf 1 (rows kumarArrests)) /\
                p = {| name := k;
                       value :=
                         NumberValue
                           (Int (Z.of_nat
                                   (count_occ string_dec
                                      (monthsOf 1 (rows kumarArrests)) k))) |}.
Proof.
  apply (@chartData_date_count IntEngine compareCodeUnits_total kumarArrests
           [CStr "S. Kumar"; CStr "2025-05-15"; CStr "Theft of motorcycle"]
           (tl (rows kumarArrests)) 1); try reflexivity.
  repeat constructor; eexists; split; reflexivity.
Defined.

(** ** The chart series over the heap *)

Section HeapFacts.
Context {Engine : JSEngine}.
#[local] Open Scope list_scope.

Lemma deref_last (h : Heap) (o : HeapObject) :
  deref (h ++ [o]) (List.length h) = Some o.
Proof.
  unfold deref. rewrite nth_error_app2 by lia. now rewrite Nat.sub_diag.
Qed.

Lemma deref_old (h g : Heap) (r : nat) :
  r < List.length h -> deref (h ++ g) r = deref h r.
Proof. intros H. unfold deref. now apply nth_error_app1. Qed.

Lemma assign_last (h : Heap) (o o' : HeapObject) :
  assign (List.length h) o' (h ++ [o]) = (h ++ [o'])%list.
Proof. induction h as [|x h IH]; simpl; [reflexivity | now rewrite IH]. Qed.

Lemma countByMonth_heap_spec (d : nat) (rows : list (list Cell)) (h : Heap) :
  forall own,
  exists own',
    countByMonth_heap d rows (List.length h) (h ++ [HRecord own])
    = (match countByMonth d rows own with
       | Returned _ => Returned tt
       | Threw => Threw
       end, (h ++ [HRecord own'])%list)
    /\ (forall agg, countByMonth d rows own = Returned agg -> own' = agg).
Proof.
  induction rows as [|row rows IH]; intros own; simpl.
  - exists own. split; [reflexivity | intros agg E; now injection E].
  - destruct (cellAt row d) as [[s | n] |].
    + rewrite deref_last, assign_last. apply IH.
    + exists own. split; [reflexivity | discriminate].
    + exists own. split; [reflexivity | discriminate].
Qed.

Lemma countByLabel_heap_spec (l : nat) (rows : list (list Cell)) (h : Heap) :
  forall own,
    countByLabel_heap l rows (List.length h) (h ++ [HRecord own])
    = (h ++ [HRecord (countByLabel l rows own)])%list.
Proof.
  induction rows as [|row rows IH]; intros own; simpl; [reflexivity |].
  rewrite deref_last, assign_last. apply IH.
Qed.

(** The code over the heap returns a fresh array with the series of
    [chartData], and leaves every object of the heap as it was. *)
Lemma chartData_heap_spec (h : Heap) (data : nat) (d : QueryResult) :
  deref h data = Some (HData d) ->
  exists garbage,
    match chartData d with
    | Threw => chartData_heap data h = (Threw, (h ++ garbage)%list)
    | Returned spec =>
        chartData_heap data h
        = (Returned (List.length (h ++ garbage)),
           ((h ++ garbage) ++ [HArray (series spec)])%list)
    end.
Proof.
  intros Hd. unfold chartData_heap, chartData. rewrite Hd.
  destruct (List.length (rows d) <? 1).
  { exists []. unfold alloc. now rewrite app_nil_r. }
  destruct (numericColumnIndex (hd [] (rows d))) as [n |].
  { exists []. unfold alloc. now rewrite app_nil_r. }
  destruct (dateColumnIndex (hd [] (rows d))) as [dc |].
  { unfold alloc. cbv beta iota.
    destruct (countByMonth_heap_spec dc (rows d) h []) as [own' [E Hown]].
    rewrite E. destruct (countByMonth dc (rows d) []) as [| agg].
    - now exists [HRecord own'].
    - rewrite (Hown agg eq_refl). exists [HRecord agg].
      rewrite deref_last. cbn [ownOf].
      rewrite deref_last. cbn [pointsOf]. now rewrite assign_last. }
  destruct (labelColumnIndex (hd [] (rows d))) as [lc |].
  { unfold alloc. cbv beta iota.
    rewrite countByLabel_heap_spec, deref_last. cbn [ownOf].
    exists [HRecord (countByLabel lc (rows d) [])].
    destruct (1 <? List.length (countByLabel lc (rows d) [])); reflexivity. }
  exists []. unfold alloc. now rewrite app_nil_r.
Qed.

(** C7.  A call of [chartData] changes no object that exists before it, and
    a second call on the same [data] gives the same outcome: both calls
    throw, or both return arrays that hold the same series. *)
Theorem chartData_pure (h : Heap) (data : nat) (d : QueryResult) :
  deref h data = Some (HData d) ->
  let (o1, h1) := chartData_heap data h in
  let (o2, h2) := chartData_heap data h1 in
  (forall r, r < List.length h -> deref h2 r = deref h r) /\
  match o1, o2 with
  | Returned r1, Returned r2 =>
      exists spec,
        chartData d = Returned spec /\
        deref h1 r1 = Some (HArray (series spec)) /\
        deref h2 r1 = Some (HArray (series spec)) /\
        deref h2 r2 = Some (HArray (series spec))
  | Threw, Threw => chartData d = Threw
  | _, _ => False
  end.
Proof.
  intros Hd.
  destruct (chartData_heap_spec h data Hd) as [g1 E1].
  assert (Hlt : data < List.length h).
  { apply nth_error_Some. unfold deref in Hd. congruence. }
  destruct (chartData d) as [| spec] eqn:Hc.
  - rewrite E1.
    assert (Hd1 : deref (h ++ g1) data = Some (HData d))
      by now rewrite deref_old.
    destruct (chartData_heap_spec (h ++ g1) data Hd1) as [g2 E2].
    rewrite Hc in E2. rewrite E2. split; [| reflexivity].
    intros r Hr. rewrite <- app_assoc. now apply deref_old.
  - rewrite E1.
    set (h1 := ((h ++ g1) ++ [HArray (series spec)])%list).
    assert (Hd1 : deref h1 data = Some (HData d)).
    { unfold h1. rewrite <- app_assoc. now rewrite deref_old. }
    destruct (chartData_heap_spec h1 data Hd1) as [g2 E2].
    rewrite Hc in E2. rewrite E2. split.
    + intros r Hr. unfold h1. rewrite <- !app_assoc. now apply deref_old.
    + exists spec. split; [reflexivity |]. split; [apply deref_last |]. split.
      * rewrite <- app_assoc. unfold h1. rewrite deref_old.
        -- apply deref_last.
        -- rewrite !length_app. simpl. lia.
      * apply deref_last.
Qed.

End HeapFacts.

Lemma chartData_pure_witness :
  let (o1, h1) := chartData_heap 0 [HData crimeCounts] in
  let (o2, h2) := chartData_heap 0 h1 in
  (forall r, r < 1 -> deref h2 r = deref [HData crimeCounts] r) /\
  match o1, o2 with
  | Returned r1, Returned r2 =>
      exists spec,
        chartData crimeCounts = Returned spec /\
        deref h1 r1 = Some (HArray (series spec)) /\
        deref h2 r1 = Some (HArray (series spec)) /\
        deref h2 r2 = Some (HArray (series spec))
  | Threw, Threw => chartData crimeCounts = Threw
  | _, _ => False
  end.
Proof.
  apply (@chartData_pure IntEngine [HData crimeCounts] 0 crimeCounts).
  reflexivity.
Defined.

(** ** The pages of the table *)

Lemma slice_nonneg {A : Type} (l : list A) (a b : Z) :
  (0 <= a <= b)%Z ->
  slice l a b = firstn (Z.to_nat (b - a)) (skipn (Z.to_nat a) l).
Proof.
  intros H. unfold slice.
  destruct (Z.ltb_spec a 0) as [Ha | _]; [lia |].
  destruct (Z.ltb_spec b 0) as [Hb | _]; [lia |].
  set (len := Z.of_nat (List.length l)).
  assert (Hlen : List.length l = Z.to_nat len) by (unfold len; lia).
  destruct (Z.le_gt_cases a len) as [Hal | Hal].
  - rewrite (Z.min_l a len) by lia.
    destruct (Z.le_gt_cases b len) as [Hbl | Hbl].
    + now rewrite (Z.min_l b len) by lia.
    + rewrite (Z.min_r b len) by lia.
      rewrite !firstn_all2; [reflexivity | |]; rewrite length_skipn; lia.
  - rewrite (Z.min_r a len), (Z.min_r b len) by lia.
    rewrite Z.sub_diag. simpl.
    rewrite (skipn_all2 l) by lia. now rewrite firstn_nil.
Qed.

Lemma chunks_concat {A : Type} (n : nat) :
  forall l : list A,
    List.length l <= 10 * n ->
    concat (map (fun i => firstn 10 (skipn (10 * i) l)) (seq 0 n)) = l.
Proof.
  induction n as [|n IH]; intros l Hl.
  - destruct l; [reflexivity | simpl in Hl; lia].
  - cbn [seq map concat]. rewrite <- seq_shift, map_map.
    transitivity (firstn 10 l ++ skipn 10 l)%list; [| apply firstn_skipn].
    f_equal.
    transitivity
      (concat (map (fun i => firstn 10 (skipn (10 * i) (skipn 10 l)))
                   (seq 0 n))).
    + f_equal. apply map_ext. intros i.
      rewrite skipn_skipn. f_equal. f_equal. lia.
    + apply IH. rewrite length_skipn. lia.
Qed.

Section PageFacts.
Context {Engine : JSEngine}.

Lemma paginatedRows_chunk (data : QueryResult) (i : nat) :
  paginatedRows data (Z.of_nat (S i)) = firstn 10 (skipn (10 * i) (rows data)).
Proof.
  unfold paginatedRows, rowsPerPage. rewrite slice_nonneg by lia.
  f_equal; [lia | f_equal; lia].
Qed.

Lemma totalPages_bounds (data : QueryResult) :
  let n := Z.of_nat (List.length (rows data)) in
  (10 * (totalPages data - 1) < n <= 10 * totalPages data)%Z.
Proof.
  unfold totalPages, rowsPerPage. cbv zeta.
  set (n := Z.of_nat (List.length (rows data))).
  replace (n + (10 - 1))%Z with (n + 9)%Z by lia.
  pose proof (Z.div_mod (n + 9) 10 ltac:(lia)) as Hdm.
  pose proof (Z.mod_pos_bound (n + 9) 10 ltac:(lia)) as Hmod.
  lia.
Qed.

(** The pages 1 to [totalPages], one after the other, are the rows of the
    result: every row is on exactly one page, in its place. *)
Theorem pages_partition_rows (data : QueryResult) :
  concat (map (fun i => paginatedRows data (Z.of_nat i))
              (seq 1 (Z.to_nat (totalPages data))))
  = rows data.
Proof.
  pose proof (totalPages_bounds data) as Hb. cbv zeta in Hb.
  rewrite <- seq_shift, map_map.
  rewrite (map_ext _ (fun i => firstn 10 (skipn (10 * i) (rows data))))
    by (intros i; apply paginatedRows_chunk).
  apply chunks_concat. lia.
Qed.

Lemma paginatedRows_length (data : QueryResult) (p : Z) :
  (1 <= p)%Z ->
  Z.of_nat (List.length (paginatedRows data p))
  = Z.max 0 (Z.min 10 (Z.of_nat (List.length (rows data)) - 10 * (p - 1))).
Proof.
  intros Hp. replace p with (Z.of_nat (S (Z.to_nat (p - 1)))) at 1 by lia.
  rewrite paginatedRows_chunk, length_firstn, length_skipn. lia.
Qed.

(** A page between 1 and [totalPages] holds between one and ten rows, and
    every page before the last one holds ten. *)
Theorem page_sizes (data : QueryResult) (p : Z) :
  (1 <= p <= totalPages data)%Z ->
  1 <= List.length (paginatedRows data p) <= 10 /\
  ((p < totalPages data)%Z -> List.length (paginatedRows data p) = 10).
Proof.
  intros Hp. pose proof (totalPages_bounds data) as Hb. cbv zeta in Hb.
  pose proof (paginatedRows_length data (p := p) ltac:(lia)) as Hl.
  split; [lia | intros Hlt; lia].
Qed.

(** A page from 1 on is empty exactly when it lies after the last page. *)
Theorem page_empty_iff_beyond (data : QueryResult) (p : Z) :
  (1 <= p)%Z ->
  (paginatedRows data p = [] <-> (totalPages data < p)%Z).
Proof.
  intros Hp. pose proof (totalPages_bounds data) as Hb. cbv zeta in Hb.
  pose proof (paginatedRows_length data (p := p) Hp) as Hl.
  rewrite <- length_zero_iff_nil. lia.
Qed.

Lemma handlePageChange_range (data : QueryResult) (p q : Z) :
  (1 <= p <= Z.max 1 (totalPages data))%Z ->
  (1 <= handlePageChange data p q <= Z.max 1 (totalPages data))%Z.
Proof.
  intros Hp. unfold handlePageChange.
  destruct (Z.leb_spec 1 q); destruct (Z.leb_spec q (totalPages data));
    simpl; lia.
Qed.

Lemma tableStep_bounds (st : TableState) (e : TableEvent) (M : Z) :
  (1 <= currentPage st <= Z.max 1 M)%Z ->
  (totalPages (table_data st) <= M)%Z ->
  (1 <= currentPage (tableStep st e)
   <= Z.max 1 (match e with
               | DataChange d => Z.max M (totalPages d)
               | PageRequest _ => M
               end))%Z /\
  (totalPages (table_data (tableStep st e))
   <= match e with
      | DataChange d => Z.max M (totalPages d)
      | PageRequest _ => M
      end)%Z.
Proof.
  intros Hp Hd. destruct e as [q | d]; cbn [tableStep table_data currentPage].
  - split; [| exact Hd]. unfold handlePageChange.
    destruct (Z.leb_spec 1 q); destruct (Z.leb_spec q (totalPages (table_data st)));
      cbn [andb]; lia.
  - split; lia.
Qed.

Lemma tableAfter_bounds (events : list TableEvent) :
  forall (st : TableState) (M : Z),
    (1 <= currentPage st <= Z.max 1 M)%Z ->
    (totalPages (table_data st) <= M)%Z ->
    (1 <= currentPage (fold_left tableStep events st)
     <= Z.max 1 (fold_left (fun m e => match e with
                                       | DataChange d => Z.max m (totalPages d)
                                       | PageRequest _ => m
                                       end) events M))%Z.
Proof.
  induction events as [|e events IH]; intros st M Hp Hd; cbn [fold_left].
  - exact Hp.
  - destruct (@tableStep_bounds st e M Hp Hd) as [Hp' Hd']. now apply IH.
Qed.

Lemma requests_keep_data (requests : list Z) :
  forall st : TableState,
    (1 <= currentPage st <= Z.max 1 (totalPages (table_data st)))%Z ->
    table_data (fold_left tableStep (map PageRequest requests) st)
    = table_data st /\
    (1 <= currentPage (fold_left tableStep (map PageRequest requests) st)
     <= Z.max 1 (totalPages (table_data st)))%Z.
Proof.
  induction requests as [|q requests IH]; intros st Hp; cbn [map fold_left].
  - now split.
  - destruct (IH (tableStep st (PageRequest q))) as [Ed Hp'].
    + cbn [tableStep table_data currentPage]. now apply handlePageChange_range.
    + cbn [tableStep table_data] in Ed, Hp'. now split.
Qed.

(** The page of a mounted table.  Whatever pages are asked for and whatever
    results are shown one after the other, the current page never drops
    below 1 and never exceeds the largest number of pages among the results
    shown so far.  As long as the result is not replaced, the current page
    stays between 1 and the number of pages of this result, so that the
    page shown is empty only when the result has no rows. *)
Theorem currentPage_bounds (data : QueryResult) :
  (forall events,
     (1 <= currentPage (tableAfter data events)
      <= Z.max 1 (pagesSeen data events))%Z) /\
  (forall requests,
     table_data (tableAfter data (map PageRequest requests)) = data /\
     (1 <= currentPage (tableAfter data (map PageRequest requests))
      <= Z.max 1 (totalPages data))%Z /\
     (paginatedRows data (currentPage (tableAfter data (map PageRequest requests)))
      = [] <-> rows data = [])).
Proof.
  split.
  - intros events. unfold tableAfter, pagesSeen.
    apply tableAfter_bounds; cbn [currentPage table_data]; lia.
  - intros requests. unfold tableAfter.
    destruct (@requests_keep_data requests {| table_data := data; currentPage := 1 |})
      as [Ed Hp]; [cbn [currentPage table_data]; lia |].
    cbn [table_data] in Ed, Hp.
    split; [exact Ed |]. split; [exact Hp |].
    pose proof (totalPages_bounds data) as Hb. cbv zeta in Hb.
    pose proof (@paginatedRows_length data _ (proj1 Hp)) as Hl.
    rewrite <- !length_zero_iff_nil. lia.
Qed.

(** A page that outlives its result.  When the table is on page [p] of a
    result and the result is replaced by one with fewer than [p - 1] pages,
    the table stays on page [p]: it shows no rows, and neither button
    leaves the page, since both are enabled and both ask for a page that
    the new result does not have. *)
Theorem stale_page_is_stuck (data data' : QueryResult) (p : Z) :
  (1 <= p <= totalPages data)%Z ->
  (totalPages data' + 1 < p)%Z ->
  tableAfter data [PageRequest p; DataChange data']
  = {| table_data := data'; currentPage := p |} /\
  paginatedRows data' p = [] /\
  forall clicks,
    fold_left click clicks {| table_data := data'; currentPage := p |}
    = {| table_data := data'; currentPage := p |}.
Proof.
  intros Hp Hfew.
  pose proof (totalPages_bounds data') as Hb. cbv zeta in Hb.
  split; [| split].
  - unfold tableAfter. cbn [fold_left tableStep table_data currentPage].
    unfold handlePageChange.
    destruct (Z.leb_spec 1 p); destruct (Z.leb_spec p (totalPages data));
      cbn [andb]; try lia. reflexivity.
  - pose proof (@paginatedRows_length data' p ltac:(lia)) as Hl.
    apply length_zero_iff_nil. lia.
  - induction clicks as [|b clicks IH]; cbn [fold_left]; [reflexivity |].
    assert (E : click {| table_data := data'; currentPage := p |} b
                = {| table_data := data'; currentPage := p |}).
    { destruct b; cbn [click currentPage table_data].
      - destruct (Z.eqb_spec p 1); [reflexivity |].
        cbn [tableStep table_data currentPage]. f_equal.
        unfold handlePageChange.
        destruct (Z.leb_spec 1 (p - 1));
          destruct (Z.leb_spec (p - 1) (totalPages data'));
          cbn [andb]; try lia; reflexivity.
      - destruct (Z.eqb_spec p (totalPages data')); [reflexivity |].
        cbn [tableStep table_data currentPage]. f_equal.
        unfold handlePageChange.
        destruct (Z.leb_spec 1 (p + 1));
          destruct (Z.leb_spec (p + 1) (totalPages data'));
          cbn [andb]; try lia; reflexivity. }
    rewrite E. exact IH.
Qed.

End PageFacts.

(** ** The CSV export *)

Lemma splitOn_lacks (c : ascii) (s : string) : lacks c s -> splitOn c s = [s].
Proof.
  unfold lacks. induction s as [|x s IH]; simpl; intros H; [reflexivity |].
  apply andb_true_iff in H as [Hx Hs]. apply negb_true_iff in Hx.
  now rewrite Hx, (IH Hs).
Qed.

Lemma splitOn_append (c : ascii) (a b : string) :
  lacks c a -> splitOn c (a ++ String c b) = a :: splitOn c b.
Proof.
  unfold lacks. induction a as [|x a IH]; simpl; intros H.
  - now rewrite Ascii.eqb_refl.
  - apply andb_true_iff in H as [Hx Ha]. apply negb_true_iff in Hx.
    now rewrite Hx, (IH Ha).
Qed.

Lemma splitOn_join (c : ascii) (items : list string) :
  items <> [] -> Forall (lacks c) items ->
  splitOn c (join (String c "") items) = items.
Proof.
  induction items as [|x items IH]; intros Hne H; [congruence |].
  inversion H as [|? ? Hx Hitems]; subst.
  destruct items as [|y items].
  - simpl. now apply splitOn_lacks.
  - change (join (String c "") (x :: y :: items))
      with (x ++ String c (join (String c "") (y :: items))).
    rewrite splitOn_append by exact Hx.
    now rewrite IH.
Qed.

Lemma lacks_append (c : ascii) (a b : string) :
  lacks c (a ++ b) <-> lacks c a /\ lacks c b.
Proof.
  unfold lacks. induction a as [|x a IH]; simpl.
  - tauto.
  - rewrite !andb_true_iff, IH. tauto.
Qed.

Lemma lacks_join (c : ascii) (sep : string) (items : list string) :
  lacks c sep -> Forall (lacks c) items -> lacks c (join sep items).
Proof.
  intros Hsep. induction 1 as [|x items Hx Hitems IH]; [reflexivity |].
  destruct items as [|y items]; [exact Hx |].
  change (join sep (x :: y :: items)) with (x ++ sep ++ join sep (y :: items)).
  rewrite !lacks_append. auto.
Qed.

Section CsvFacts.
Context {Engine : JSEngine}.

(** The text of the CSV export reads back as the table: when the result has
    columns and rows, no row is empty, and no column name and no cell text
    holds a comma or a line feed, the lines after the prefix, cut at the
    commas, are the column names and the texts of the cells. *)
Theorem csvContent_reads_back (columns : list string) (rows : list (list Cell)) :
  columns <> [] -> rows <> [] -> Forall (fun row => row <> []) rows ->
  Forall (fun s => lacks "," s /\ lacks LF s) columns ->
  Forall (Forall (fun c => lacks "," (cellText c) /\ lacks LF (cellText c))) rows ->
  exists payload,
    csvContent columns rows = "data:text/csv;charset=utf-8," ++ payload /\
    map (splitOn ",") (splitOn LF payload)
    = columns :: map (map cellText) rows.
Proof.
  intros Hcols Hrows Hnonempty Hc Hr.
  set (lines := map (fun row => join "," (map cellText row)) rows).
  exists (join (String LF "") (join "," columns :: lines)).
  assert (Hlines : lines <> []).
  { unfold lines. destruct rows; [congruence | discriminate]. }
  split.
  - unfold csvContent. fold lines. destruct lines; [congruence | reflexivity].
  - rewrite splitOn_join; [| discriminate |].
    + cbn [map]. f_equal.
      * apply splitOn_join; [exact Hcols |].
        eapply Forall_impl; [| exact Hc]. now intros s [H _].
      * unfold lines. rewrite map_map.
        clear Hrows Hlines. induction rows as [|row rows IH]; [reflexivity |].
        inversion Hnonempty; inversion Hr; subst. cbn [map]. f_equal.
        -- apply splitOn_join.
           ++ destruct row; [congruence | discriminate].
           ++ apply Forall_map. eapply Forall_impl; [| eassumption].
              now intros c [H _].
        -- now apply IH.
    + constructor.
      * apply lacks_join; [reflexivity |].
        eapply Forall_impl; [| exact Hc]. now intros s [_ H].
      * unfold lines. apply Forall_map.
        eapply Forall_impl; [| exact Hr]. intros row Hrow.
        apply lacks_join; [reflexivity |]. apply Forall_map.
        eapply Forall_impl; [| exact Hrow]. now intros c [_ H].
Qed.

End CsvFacts.

(** ** More on the chart series *)

Section ChartMore.
Context {Engine : JSEngine}.

Definition notText (d : nat) (row : list Cell) : Prop :=
  forall s, cellAt row d <> Some (CStr s).

Lemma countByMonth_Threw (d : nat) (rows : list (list Cell)) :
  forall acc,
    countByMonth d rows acc = Threw <-> Exists (notText d) rows.
Proof.
  induction rows as [|row rows IH]; intros acc; simpl.
  - split; [discriminate | intros H; inversion H].
  - destruct (cellAt row d) as [[s | n] |] eqn:Hc.
    + rewrite IH. split.
      * intros H. now right.
      * intros H. inversion H as [? ? Hrow | ? ? Hrest]; subst; [| exact Hrest].
        exfalso. apply (Hrow s). exact Hc.
    + split; [| reflexivity]. intros _. left. intros s. congruence.
    + split; [| reflexivity]. intros _. left. intros s. congruence.
Qed.

(** [chartData] throws in one case only: the first row holds no number, one
    of its values matches the date pattern, and some row holds no text in the
    first such column.  In every other case it returns a series. *)
Theorem chartData_throws_iff (data : QueryResult) :
  chartData data = Threw <->
  exists firstRow rest d,
    rows data = firstRow :: rest /\
    numericColumnIndex firstRow = None /\
    dateColumnIndex firstRow = Some d /\
    Exists (notText d) (rows data).
Proof.
  unfold chartData. destruct (rows data) as [|firstRow rest] eqn:Hrows.
  { simpl. split; [discriminate | intros [f [r [d [H _]]]]; discriminate]. }
  cbn [List.length Nat.ltb Nat.leb hd].
  destruct (numericColumnIndex firstRow) as [n |] eqn:Hn.
  { split; [discriminate |].
    intros [f [r [d [H [Hnone _]]]]]. injection H as <- _. congruence. }
  destruct (dateColumnIndex firstRow) as [d |] eqn:Hd.
  - destruct (countByMonth d (firstRow :: rest) []) as [| agg] eqn:Hc.
    + split; [| reflexivity]. intros _.
      exists firstRow, rest, d. repeat split; auto.
      now apply (countByMonth_Threw d (firstRow :: rest) []).
    + split; [discriminate |].
      intros [f [r [d' [H [_ [Hd' Hex]]]]]]. injection H as <- <-.
      assert (d' = d) by congruence. subst d'.
      apply (countByMonth_Threw d (firstRow :: rest) []) in Hex. congruence.
  - split.
    + destruct (labelColumnIndex firstRow) as [l |]; [| discriminate].
      cbv zeta.
      match goal with |- context [if ?c then _ else _] => destruct c end;
        discriminate.
    + intros [f [r [d [H [_ [Hd' _]]]]]]. injection H as <- _. congruence.
Qed.

Lemma countByLabel_incrementAll (l : nat) (rows : list (list Cell)) :
  forall acc, countByLabel l rows acc = incrementAll (labelsOf l rows) acc.
Proof.
  induction rows as [|row rows IH]; intros acc; simpl; [reflexivity | apply IH].
Qed.

Lemma NoDup_two {A : Type} (l : list A) :
  NoDup l ->
  (1 < List.length l <-> exists a b, In a l /\ In b l /\ a <> b).
Proof.
  intros Hnd. split.
  - destruct l as [|a [|b l']]; simpl; try lia. intros _.
    exists a, b. split; [now left | split; [right; now left |]].
    intros ->. inversion Hnd as [|? ? Hnotin _]. apply Hnotin. now left.
  - intros [a [b [Ha [Hb Hab]]]].
    destruct l as [|x [|y l']]; simpl in *; try lia; try tauto.
    destruct Ha as [<- | []]. destruct Hb as [<- | []]. congruence.
Qed.

(** Strategy 3.  For a result whose first row holds no number and no date,
    the labels are the texts of the first column with a text.  When two rows
    differ in their label, the series is the category-count one, with one
    point for each label, valued with the number of rows that carry it; when
    all rows carry the same label, there is no chart. *)
Theorem chartData_category_count (data : QueryResult) (firstRow : list Cell)
  (rest : list (list Cell)) (l : nat) :
  rows data = firstRow :: rest ->
  numericColumnIndex firstRow = None ->
  dateColumnIndex firstRow = None ->
  labelColumnIndex firstRow = Some l ->
  Forall plainKey (labelsOf l (rows data)) ->
  ((exists a b, In a (labelsOf l (rows data)) /\
                In b (labelsOf l (rows data)) /\ a <> b) ->
   exists points,
     chartData data = Returned {| strategy := CategoryCount; series := points |} /\
     NoDup (map name points) /\
     forall p,
       In p points <->
       exists k, In k (labelsOf l (rows data)) /\
                 p = {| name := k;
                        value :=
                          NumberValue
                            (num_of_Z
                               (Z.of_nat
                                  (count_occ string_dec
                                             (labelsOf l (rows data)) k))) |})
  /\
  ((forall a b, In a (labelsOf l (rows data)) ->
                In b (labelsOf l (rows data)) -> a = b) ->
   chartData data = Returned noChart).
Proof.
  intros Hrows Hnum Hdate Hlabel Hplain.
  set (ls := labelsOf l (rows data)) in *.
  set (agg := incrementAll ls []).
  assert (Hempty : counters ([] : Aggregation)).
  { split; [constructor | intros k v []]. }
  destruct (incrementAll_counts Hplain Hempty) as [[Hnd Hcnt] Hcount].
  fold agg in Hnd, Hcnt, Hcount.
  assert (Hchart : chartData data
                   = if 1 <? List.length agg
                     then Returned {| strategy := CategoryCount;
                                      series := map toPoint (ownEntries agg) |}
                     else Returned noChart).
  { unfold chartData. rewrite Hrows. cbn [List.length Nat.ltb Nat.leb hd].
    rewrite Hnum, Hdate, Hlabel, <- Hrows.
    now rewrite countByLabel_incrementAll. }
  assert (Hkeys : forall k, In k (map fst agg) <-> In k ls).
  { intros k. destruct (Hcount k) as [_ Hk]. rewrite Hk. simpl. tauto. }
  assert (Hlen : 1 < List.length agg
                 <-> exists a b, In a ls /\ In b ls /\ a <> b).
  { rewrite <- (length_map fst agg), (NoDup_two Hnd).
    split; intros [a [b [Ha [Hb Hab]]]]; exists a, b;
      (split; [now apply Hkeys | split; [now apply Hkeys | exact Hab]]). }
  split.
  - intros Hdiff. apply Hlen in Hdiff. apply Nat.ltb_lt in Hdiff.
    rewrite Hdiff in Hchart.
    exists (map toPoint (ownEntries agg)). split; [exact Hchart |].
    assert (Hperm : Permutation (map toPoint agg) (map toPoint (ownEntries agg)))
      by apply Permutation_map, ownEntries_perm.
    split.
    + apply (Permutation_NoDup (l := map name (map toPoint agg))).
      * now apply Permutation_map.
      * rewrite map_map. exact Hnd.
    + intros p.
      assert (Hin : In p (map toPoint (ownEntries agg)) <-> In p (map toPoint agg)).
      { split; apply Permutation_in; [now apply Permutation_sym | exact Hperm]. }
      rewrite Hin, in_map_iff. split.
      * intros [[k v] [<- Hkv]].
        destruct (Hcnt _ _ Hkv) as [c ->].
        destruct (Hcount k) as [Hc _]. exists k. split.
        -- apply Hkeys. now apply (in_map fst) in Hkv.
        -- apply (ownProperty_In agg k (Count c) Hnd) in Hkv.
           unfold countOf in Hc. rewrite Hkv in Hc. simpl in Hc.
           unfold toPoint. simpl. now rewrite Hc.
      * intros [k [Hk ->]].
        destruct (Hcount k) as [Hc _].
        apply Hkeys in Hk. apply in_map_iff in Hk as [[k' v] [E Hkv]].
        simpl in E. subst k'. exists (k, v). split; [| exact Hkv].
        destruct (Hcnt _ _ Hkv) as [c ->].
        apply (ownProperty_In agg k (Count c) Hnd) in Hkv.
        unfold countOf in Hc. rewrite Hkv in Hc. simpl in Hc.
        unfold toPoint. simpl. now rewrite Hc.
  - intros Hsame.
    assert (Hnot : ~ 1 < List.length agg).
    { intros H. apply Hlen in H as [a [b [Ha [Hb Hab]]]].
      apply Hab. now apply Hsame. }
    apply Nat.ltb_nlt in Hnot. now rewrite Hnot in Hchart.
Qed.

Lemma totalCount_setOwn (k : string) (acc : Aggregation) :
  totalCount (setOwn k (Count (S (countOf k acc))) acc) = S (totalCount acc).
Proof.
  unfold totalCount, countOf.
  induction acc as [|[k0 v0] acc IH]; simpl; [reflexivity |].
  destruct (String.eqb_spec k k0) as [-> | Hne]; simpl.
  - destruct v0; simpl; lia.
  - rewrite IH. lia.
Qed.

Lemma totalCount_incrementAll (ms : list string) :
  Forall plainKey ms ->
  forall acc, counters acc ->
    totalCount (incrementAll ms acc) = totalCount acc + List.length ms.
Proof.
  induction 1 as [|m ms Hm _ IH]; intros acc Hacc; simpl; [lia |].
  destruct (increment_plain Hm Hacc) as [E Hinc].
  rewrite (IH _ Hinc), E, totalCount_setOwn. lia.
Qed.

Lemma totalCount_perm (a b : Aggregation) :
  Permutation a b -> totalCount a = totalCount b.
Proof.
  intros H. unfold totalCount.
  induction H; simpl; try lia.
Qed.

(** Strategy 2 counts every row once: on a result whose date column holds a
    date in every row, the values of the series are counters that add up to
    the number of rows. *)
Theorem chartData_date_count_total (data : QueryResult) (firstRow : list Cell)
  (rest : list (list Cell)) (d : nat) :
  rows data = firstRow :: rest ->
  numericColumnIndex firstRow = None ->
  dateColumnIndex firstRow = Some d ->
  Forall (fun row => exists s, cellAt row d = Some (CStr s)
                               /\ dateRegex_test s = true) (rows data) ->
  exists points counts,
    chartData data = Returned {| strategy := DateCount; series := points |} /\
    map value points
    = map (fun c => NumberValue (num_of_Z (Z.of_nat c))) counts /\
    list_sum counts = List.length (rows data).
Proof.
  intros Hrows Hnum Hdate Hall.
  set (ms := monthsOf d (rows data)).
  set (agg := incrementAll ms []).
  assert (Hstr : Forall (fun row => exists s, cellAt row d = Some (CStr s))
                        (rows data)).
  { eapply Forall_impl; [| exact Hall]. intros row [s [Hs _]]. now exists s. }
  assert (Hplain : Forall plainKey ms).
  { unfold ms, monthsOf. apply Forall_map.
    eapply Forall_impl; [| exact Hall]. intros row [s [Hs Hd]].
    rewrite Hs. simpl. now apply isoMonth_plain. }
  assert (Hempty : counters ([] : Aggregation)).
  { split; [constructor | intros k v []]. }
  destruct (incrementAll_counts Hplain Hempty) as [[Hnd Hcnt] _].
  fold agg in Hnd, Hcnt.
  pose proof (totalCount_incrementAll Hplain Hempty) as Htotal.
  fold agg in Htotal. simpl in Htotal.
  assert (Hperm : Permutation (sortByName (map toPoint (ownEntries agg)))
                              (map toPoint agg)).
  { apply Permutation_sym.
    apply perm_trans with (map toPoint (ownEntries agg)).
    - apply Permutation_map, ownEntries_perm.
    - apply sortByName_perm. }
  apply Permutation_map_inv in Hperm as [agg' [Epoints Hperm']].
  exists (sortByName (map toPoint (ownEntries agg))),
         (map (fun e => match snd e with Count c => c | Text _ => 0 end) agg').
  split; [| split].
  - unfold chartData. rewrite Hrows. cbn [List.length Nat.ltb Nat.leb hd].
    rewrite Hnum, Hdate, <- Hrows.
    now rewrite countByMonth_incrementAll by exact Hstr.
  - rewrite Epoints, !map_map. apply map_ext_in. intros [k v] Hin.
    assert (Hin' : In (k, v) agg).
    { eapply Permutation_in; [apply Permutation_sym; exact Hperm' | exact Hin]. }
    destruct (Hcnt _ _ Hin') as [c ->]. reflexivity.
  - change (totalCount agg' = List.length (rows data)).
    rewrite <- (totalCount_perm Hperm'), Htotal.
    unfold ms, monthsOf. now rewrite length_map.
Qed.

End ChartMore.

(** ** More on the generator *)

Lemma dropWhile_split (p : ascii -> bool) (s : string) :
  exists a, s = a ++ dropWhile p s /\ allb p a = true.
Proof.
  induction s as [|c s [a [E Ha]]]; simpl.
  - now exists "".
  - destruct (p c) eqn:Hc.
    + exists (String c a). simpl. now rewrite <- E, Hc, Ha.
    + now exists "".
Qed.

Lemma closesFence_spec (t : string) :
  closesFence t = true -> exists gap, t = gap ++ FENCE /\ blank gap.
Proof.
  unfold closesFence. intros H. apply String.eqb_eq in H.
  destruct (dropWhile_split isSpace t) as [gap [E Hgap]].
  exists gap. now rewrite <- H.
Qed.

Lemma lazyBody_sound (t body : string) :
  lazyBody t = Some body ->
  exists gap, t = body ++ gap ++ FENCE /\ blank gap.
Proof.
  revert body. induction t as [|c t IH]; intros body; cbn [lazyBody].
  - destruct (closesFence "") eqn:Hc; [| discriminate].
    intros [= <-]. now apply closesFence_spec.
  - destruct (closesFence (String c t)) eqn:Hc.
    + intros [= <-]. now apply closesFence_spec.
    + destruct (lazyBody t) as [b |]; [| discriminate].
      intros [= <-]. destruct (IH b eq_refl) as [gap [E Hgap]].
      exists gap. simpl. now rewrite <- E.
Qed.

Lemma lazyBody_shortest (t body : string) :
  lazyBody t = Some body ->
  forall body' gap,
    t = body' ++ gap ++ FENCE -> blank gap ->
    String.length body <= String.length body'.
Proof.
  revert body. induction t as [|c t IH]; intros body; cbn [lazyBody].
  - destruct (closesFence ""); [| discriminate].
    intros [= <-] ? ? _ _. simpl. lia.
  - destruct (closesFence (String c t)) eqn:Hc.
    + intros [= <-] ? ? _ _. simpl. lia.
    + destruct (lazyBody t) as [b |] eqn:Hb; [| discriminate].
      intros [= <-] body' gap E Hgap.
      destruct body' as [|c' body'].
      * simpl in E. rewrite E, closesFence_blank in Hc by exact Hgap.
        discriminate.
      * injection E as -> E. simpl. apply le_n_S.
        eapply IH; [reflexivity | exact E | exact Hgap].
Qed.

Lemma dropWhile_keeps_fence (p : ascii -> bool) (y : string) :
  p "`"%char = false -> exists y', dropWhile p (y ++ FENCE) = y' ++ FENCE.
Proof.
  intros Hp. induction y as [|c y IH].
  - exists "". simpl. now rewrite Hp.
  - simpl. destruct (p c); [exact IH |]. now exists (String c y).
Qed.

Lemma lazyBody_fenced (y : string) : lazyBody (y ++ FENCE) <> None.
Proof.
  induction y as [|c y IH].
  - discriminate.
  - change (String c y ++ FENCE) with (String c (y ++ FENCE)).
    cbn [lazyBody]. destruct (closesFence _); [discriminate |].
    destruct (lazyBody (y ++ FENCE)); [discriminate | congruence].
Qed.

Lemma drop_append (p s : string) : drop (String.length p) (p ++ s) = s.
Proof. induction p as [|c p IH]; simpl; [now destruct s | exact IH]. Qed.

(** What the fence pattern captures.  When the pattern matches, the text is
    a fence, a tag of word characters, white space, the captured body, white
    space and a fence; and the body is the shortest one that white space and
    a fence can follow in the text after the tag and its white space. *)
Theorem fenceMatch_sound (jsonStr body : string) :
  fenceMatch jsonStr = Some body ->
  exists tag gap gap',
    jsonStr = FENCE ++ tag ++ gap ++ body ++ gap' ++ FENCE /\
    allb isWord tag = true /\ blank gap /\ blank gap' /\
    forall body' gap'',
      body ++ gap' ++ FENCE = body' ++ gap'' ++ FENCE -> blank gap'' ->
      String.length body <= String.length body'.
Proof.
  unfold fenceMatch. destruct (startsWith FENCE jsonStr) eqn:Hs; [| discriminate].
  apply startsWith_spec in Hs as [r ->].
  change (drop 3 (FENCE ++ r)) with r.
  destruct (dropWhile_split isWord r) as [tag [Er Htag]].
  destruct (dropWhile_split isSpace (dropWhile isWord r)) as [gap [Eg Hgap]].
  intros Hbody.
  destruct (lazyBody_sound _ Hbody) as [gap' [Et Hgap']].
  exists tag, gap, gap'. repeat split; auto.
  - f_equal. rewrite Er at 1. f_equal. rewrite Eg at 1. f_equal. exact Et.
  - intros body' gap'' E Hb. rewrite <- Et in E.
    eapply lazyBody_shortest; eassumption.
Qed.

(** The fence pattern matches exactly the texts that start with a fence and
    end with another one. *)
Theorem fenceMatch_matches (jsonStr : string) :
  fenceMatch jsonStr <> None <-> exists y, jsonStr = FENCE ++ y ++ FENCE.
Proof.
  split.
  - destruct (fenceMatch jsonStr) as [body |] eqn:H; [| congruence].
    intros _. unfold fenceMatch in H.
    destruct (startsWith FENCE jsonStr) eqn:Hs; [| discriminate].
    apply startsWith_spec in Hs as [r ->].
    change (drop 3 (FENCE ++ r)) with r in H.
    destruct (dropWhile_split isWord r) as [tag [Er _]].
    destruct (dropWhile_split isSpace (dropWhile isWord r)) as [gap [Eg _]].
    destruct (lazyBody_sound _ H) as [gap' [Et _]].
    exists (tag ++ gap ++ body ++ gap'). f_equal.
    rewrite Er at 1. rewrite Eg at 1. rewrite Et at 1.
    now rewrite !append_assoc.
  - intros [y ->]. unfold fenceMatch.
    replace (startsWith FENCE (FENCE ++ y ++ FENCE)) with true
      by (symmetry; apply startsWith_spec; now exists (y ++ FENCE)).
    change (drop 3 (FENCE ++ y ++ FENCE)) with (y ++ FENCE).
    destruct (dropWhile_keeps_fence isWord y eq_refl) as [y1 ->].
    destruct (dropWhile_keeps_fence isSpace y1 eq_refl) as [y2 ->].
    apply lazyBody_fenced.
Qed.

Lemma fenceMatch_empty (tag gap : string) :
  allb isWord tag = true -> blank gap ->
  fenceMatch (FENCE ++ tag ++ gap ++ FENCE) = Some "".
Proof.
  intros Htag Hgap. unfold fenceMatch.
  change (startsWith FENCE (FENCE ++ tag ++ gap ++ FENCE)) with true.
  change (drop 3 (FENCE ++ tag ++ gap ++ FENCE)) with (tag ++ gap ++ FENCE).
  cbv iota. rewrite dropWhile_all by exact Htag.
  assert (E : dropWhile isWord (gap ++ FENCE) = gap ++ FENCE).
  { destruct gap as [|c gap]; [reflexivity |].
    unfold blank in Hgap. simpl in Hgap.
    apply andb_true_iff in Hgap as [Hc _].
    apply dropWhile_stops. now apply isSpace_not_isWord. }
  rewrite E, dropWhile_all by exact Hgap. reflexivity.
Qed.

Lemma trim_fenced (y : string) : trim (FENCE ++ y ++ FENCE) = FENCE ++ y ++ FENCE.
Proof.
  unfold trim.
  change (trimStart (FENCE ++ y ++ FENCE)) with (FENCE ++ y ++ FENCE).
  replace (FENCE ++ y ++ FENCE) with ((FENCE ++ y ++ "``") ++ "`").
  - now apply trimEnd_keeps.
  - rewrite !append_assoc. reflexivity.
Qed.

Lemma unescapeNewlines_nonempty (s : string) :
  s <> "" -> unescapeNewlines s <> "".
Proof.
  destruct s as [|c [|d r]]; [congruence | discriminate |].
  intros _. simpl. destruct (_ && _); discriminate.
Qed.

Section GeneratorMore.
Context {Engine : JSEngine}.
Variable JSON_parse : string -> option JSValue.
Variable SQL_GENERATION_PROMPT : string.
Variable model : list string -> string -> Settled string string.

(** A fence without a body is not stripped: the captured group is empty,
    which is falsy, so the answer is parsed with its fences; a parser that
    accepts no text starting with a fence then makes the generator fail with
    the error for an invalid response. *)
Theorem generateSqlAndSummary_empty_fence (history : list string)
  (query text tag gap : string) :
  (forall t, JSON_parse (FENCE ++ t) = None) ->
  model history (promptOf SQL_GENERATION_PROMPT query) = Resolved text ->
  trim text = FENCE ++ tag ++ gap ++ FENCE ->
  allb isWord tag = true -> blank gap ->
  payloadText text = FENCE ++ tag ++ gap ++ FENCE /\
  fst (generateSqlAndSummary JSON_parse SQL_GENERATION_PROMPT model history query)
  = Rejected InvalidResponse.
Proof.
  intros Hparse Hmodel Htrim Htag Hgap.
  assert (Hp : payloadText text = FENCE ++ tag ++ gap ++ FENCE).
  { unfold payloadText. cbv zeta. rewrite Htrim.
    now rewrite fenceMatch_empty by assumption. }
  split; [exact Hp |].
  unfold generateSqlAndSummary. cbv zeta. rewrite Hmodel, Hp.
  unfold parsePayload. now rewrite Hparse.
Qed.

(** A resolved call gives a usable pair, taken from the one answer of the
    model: the statement is not empty and holds no backslash followed by
    [n], the summary is truthy, both are the fields of the parsed payload,
    and the session holds one prompt more. *)
Theorem generateSqlAndSummary_resolved (history history' : list string)
  (query : string) (r : SqlAndSummary) :
  generateSqlAndSummary JSON_parse SQL_GENERATION_PROMPT model history query
  = (Resolved r, history') ->
  sql r <> "" /\ ~ occurs "\n" (sql r) /\ truthy (summary r) = true /\
  history' = (history ++ [promptOf SQL_GENERATION_PROMPT query])%list /\
  exists text parsedData s,
    model history (promptOf SQL_GENERATION_PROMPT query) = Resolved text /\
    JSON_parse (payloadText text) = Some parsedData /\
    getProp parsedData "sql" = Some (VStr s) /\ s <> "" /\
    getProp parsedData "summary" = Some (summary r) /\
    sql r = unescapeNewlines s.
Proof.
  unfold generateSqlAndSummary. cbv zeta.
  destruct (model history _) as [e | text] eqn:Hmodel; [discriminate |].
  destruct (parsePayload JSON_parse (payloadText text)) as [r' |] eqn:Hp;
    [| discriminate].
  intros [= -> <-].
  unfold parsePayload in Hp.
  destruct (JSON_parse (payloadText text)) as [parsedData |] eqn:Hj;
    [| discriminate].
  destruct (getProp parsedData "sql") as [sqlField |] eqn:Hsql; [| discriminate].
  destruct (truthy sqlField) eqn:Ht; [| discriminate].
  destruct (getProp parsedData "summary") as [summaryField |] eqn:Hsum;
    [| discriminate].
  destruct (truthy summaryField) eqn:Ht'; [| discriminate].
  destruct sqlField as [| | b | n | s | a | o]; try discriminate.
  injection Hp as <-. cbn [sql summary].
  assert (Hs : s <> "").
  { intros ->. discriminate. }
  split; [now apply unescapeNewlines_nonempty |].
  split; [apply unescapeNewlines_clean |].
  split; [exact Ht' |].
  split; [reflexivity |].
  exists text, parsedData, s. repeat split; auto.
Qed.

End GeneratorMore.

(** ** The chart of the executor's results *)

Section ChartOfResults.
Context {Engine : JSEngine}.

(** The shaper on the results of the mock executor: whatever the statement,
    [chartData] returns a series and never throws.  The arrests by an
    officer give the date-count series, with two arrests in May 2025 and one
    in June; every other result gives the categorical-value series, with one
    point for each row, named by the first column and valued by the last
    one, so that a crime type that two districts share gives two points. *)
Theorem chartData_of_executeQuery (sql : string) :
  exists r,
    executeQuery sql = Resolved r /\
    match selectView sql with
    | ArrestsByKumar =>
        exists points,
          chartData r = Returned {| strategy := DateCount; series := points |} /\
          Permutation points
            [ {| name := "2025-05"; value := NumberValue (num_of_Z 2) |};
              {| name := "2025-06"; value := NumberValue (num_of_Z 1) |} ]
    | _ =>
        chartData r
        = Returned
            {| strategy := CategoricalValue;
               series :=
                 map (fun row =>
                        {| name := String_ (cellAt row 0);
                           value :=
                             NumberValue
                               (Number_
                                  (cellAt row (List.length (columns r) - 1))) |})
                     (rows r) |}
    end.
Proof.
  unfold executeQuery, selectView. cbv zeta.
  destruct (includes "group by" (toLowerCase sql)
            && includes "guntur" (toLowerCase sql)).
  { eexists. split; reflexivity. }
  destruct (includes "officer_master" (toLowerCase sql)
            && includes "kumar" (toLowerCase sql)).
  { eexists. split; [reflexivity |].
    eexists. split; [reflexivity |].
    apply Permutation_sym.
    exact (sortByName_perm
             [ {| name := "2025-05"; value := NumberValue (num_of_Z 2) |};
               {| name := "2025-06"; value := NumberValue (num_of_Z 1) |} ]). }
  destruct (includes "fir" (toLowerCase sql)
            && includes "group by" (toLowerCase sql)
            && includes "month" (toLowerCase sql)).
  { eexists. split; reflexivity. }
  eexists. split; reflexivity.
Qed.

End ChartOfResults.

(** ** The other clients of the backend *)

Section ClientFacts.
Context {Engine : JSEngine}.

(** [processQueryWithBackend] against [processQuery].  The client of
    [constants.ts] resolves exactly when the response is ok and its body is
    a JSON text, with the parsed payload unchanged; no property read of it
    can fail.  [processQuery] resolves with a payload exactly when this
    client does and the field [error] of the payload can be read and is
    falsy: a payload that reports an error, and the payload [null], are
    handed on by [processQueryWithBackend] as results. *)
Theorem processQueryWithBackend_outcomes (backend : string -> FetchResult)
  (queryText : string) :
  (forall data,
     processQueryWithBackend backend queryText = Resolved data <->
     exists response,
       backend queryText = Responded response /\ ok response = true /\
       json response = Some data) /\
  processQueryWithBackend backend queryText <> Rejected PropertyTypeError /\
  (forall data,
     processQuery backend queryText = Resolved data <->
     processQueryWithBackend backend queryText = Resolved data /\
     exists err, getProp data "error" = Some err /\ truthy err = false).
Proof.
  unfold processQueryWithBackend, processQuery.
  destruct (backend queryText) as [e | response].
  { repeat split; try discriminate.
    - intros [r [H _]]. discriminate.
    - intros [H _]. discriminate. }
  destruct (ok response) eqn:Hok; cbn [negb].
  - destruct (json response) as [payload |] eqn:Hj.
    + split; [| split]; [| discriminate |].
      * intros data. split.
        -- intros [= <-]. now exists response.
        -- intros [r [[= <-] [_ Hr]]]. congruence.
      * intros data.
        destruct (getProp payload "error") as [err |] eqn:He.
        -- destruct (truthy err) eqn:Ht.
           ++ split; [discriminate |].
              intros [[= <-] [err' [He' Ht']]]. congruence.
           ++ split.
              ** intros [= <-]. split; [reflexivity | now exists err].
              ** now intros [H _].
        -- split; [discriminate |].
           intros [[= <-] [err' [He' _]]]. congruence.
    + split; [| split]; [| discriminate |].
      * intros data. split; [discriminate |].
        intros [r [[= <-] [_ Hr]]]. congruence.
      * intros data. split; [discriminate | intros [H _]; discriminate].
  - split; [| split].
    + intros data. split.
      * destruct (json response) as [errorData |]; [| discriminate].
        destruct (getProp errorData "detail") as [detail |]; [| discriminate].
        destruct (truthy detail); [discriminate |].
        destruct (getProp errorData "error") as [err |]; [| discriminate].
        destruct (truthy err); discriminate.
      * intros [r [[= <-] [Hr _]]]. congruence.
    + destruct (json response) as [errorData |]; [| discriminate].
      destruct (getProp errorData "detail") as [detail |]; [| discriminate].
      destruct (truthy detail); [discriminate |].
      destruct (getProp errorData "error") as [err |]; [| discriminate].
      destruct (truthy err); discriminate.
    + intros data. split.
      * destruct (json response) as [errorData |]; cbv zeta.
        -- destruct (getProp errorData "detail") as [detail |]; [| discriminate].
           destruct (truthy detail); discriminate.
        -- cbn. discriminate.
      * intros [H _]. revert H.
        destruct (json response) as [errorData |]; [| discriminate].
        destruct (getProp errorData "detail") as [detail |]; [| discriminate].
        destruct (truthy detail); [discriminate |].
        destruct (getProp errorData "error") as [err |]; [| discriminate].
        destruct (truthy err); discriminate.
Qed.

Lemma getProp_defined (v w : JSValue) (k k' : string) :
  getProp v k = Some w -> exists w', getProp v k' = Some w'.
Proof. destruct v; simpl; try discriminate; intros _; eexists; reflexivity. Qed.

(** An ok answer in the flat structure, without the fields [success] and
    [transcription], makes [transcribeAudio] fail with the TypeError of a
    property read on [undefined]: the test for a failed transcription lets
    the payload pass, and the returned object reads
    [result.transcription.text]. *)
Theorem transcribeAudio_flat_payload
  (backend : TranscriptionRequest -> FetchResult) (blobType language : string)
  (response : Response) (result : JSValue) :
  backend {| request_url :=
               "http://127.0.0.1:8000/api/voice/transcribe?language=" ++ language;
             file_name := filenameFor blobType;
             language_field := language |} = Responded response ->
  ok response = true ->
  json response = Some result ->
  getProp result "success" = Some VUndefined ->
  getProp result "transcription" = Some VUndefined ->
  transcribeAudio backend blobType language = Rejected PropertyTypeError.
Proof.
  intros Hb Hok Hj Hs Ht. unfold transcribeAudio. cbv zeta.
  rewrite Hb, Hok, Hj, Hs, Ht. cbn [negb].
  destruct (@getProp_defined result _ "success" "error" Hs) as [err ->].
  destruct (@getProp_defined result _ "success" "message" Hs) as [message ->].
  reflexivity.
Qed.

(** What a resolved [transcribeAudio] gives: the response was ok, its
    payload did not say [success: false] and holds a transcription that is
    neither [null] nor [undefined], and the result is an object of five
    fields, the first four read from the transcription, the last one
    [undefined] or an object of two fields. *)
Theorem transcribeAudio_resolved
  (backend : TranscriptionRequest -> FetchResult) (blobType language : string)
  (v : JSValue) :
  transcribeAudio backend blobType language = Resolved v ->
  exists response result transcription text confidence lang modelUsed enhanced,
    backend {| request_url :=
                 "http://127.0.0.1:8000/api/voice/transcribe?language=" ++ language;
               file_name := filenameFor blobType;
               language_field := language |} = Responded response /\
    ok response = true /\ json response = Some result /\
    getProp result "success" <> Some (VBool false) /\
    getProp result "transcription" = Some transcription /\
    getProp transcription "text" = Some text /\
    getProp transcription "confidence" = Some confidence /\
    getProp transcription "language" = Some lang /\
    getProp transcription "model_used" = Some modelUsed /\
    (enhanced = VUndefined \/
     exists a b, enhanced = VObj [("enhancedText", a); ("corrections", b)]) /\
    v = VObj [("text", text); ("confidence", confidence); ("language", lang);
              ("modelUsed", modelUsed); ("enhanced", enhanced)].
Proof.
  unfold transcribeAudio. cbv zeta.
  destruct (backend _) as [e | response] eqn:Hb; [discriminate |].
  destruct (ok response) eqn:Hok; cbn [negb].
  2:{ destruct (json response) as [errorData |]; cbv zeta.
      - destruct (getProp errorData "detail") as [detail |]; [| discriminate].
        destruct (truthy detail); discriminate.
      - cbn. discriminate. }
  destruct (json response) as [result |] eqn:Hj; [| discriminate].
  destruct (getProp result "success") as [success |] eqn:Hs; [| discriminate].
  destruct (getProp result "transcription") as [transcription |] eqn:Ht;
    [| discriminate].
  destruct (getProp result "error") as [err |]; [| discriminate].
  destruct (getProp result "message") as [message |]; [| discriminate].
  destruct (isFalse success || (truthy success && negb (truthy transcription)))
    eqn:Hfail; [discriminate |].
  apply orb_false_iff in Hfail as [Hfalse _].
  destruct (transcriptionResult result transcription) as [r |] eqn:Hr;
    [| discriminate].
  intros [= <-]. unfold transcriptionResult in Hr.
  destruct (getProp transcription "text") as [text |] eqn:H1; [| discriminate].
  destruct (getProp transcription "confidence") as [confidence |] eqn:H2;
    [| discriminate].
  destruct (getProp transcription "language") as [lang |] eqn:H3; [| discriminate].
  destruct (getProp transcription "model_used") as [modelUsed |] eqn:H4;
    [| discriminate].
  destruct (getProp result "enhancement") as [enhancement |]; [| discriminate].
  assert (Hsuccess : getProp result "success" <> Some (VBool false)).
  { rewrite Hs. intros [= ->]. discriminate. }
  destruct (truthy enhancement).
  - destruct (getProp enhancement "enhanced_text") as [a |]; [| discriminate].
    destruct (getProp enhancement "corrections_applied") as [b |];
      [| discriminate].
    injection Hr as <-.
    exists response, result, transcription, text, confidence, lang, modelUsed.
    eexists. repeat split; try assumption; try reflexivity.
    right. now exists a, b.
  - injection Hr as <-.
    exists response, result, transcription, text, confidence, lang, modelUsed.
    exists VUndefined. repeat split; try assumption; try reflexivity.
    now left.
Qed.

End ClientFacts.

(** ** The application *)

Lemma slice_drop_last {A : Type} (l : list A) (a b : A) :
  slice (l ++ [a; b])%list 0 (-1) = (l ++ [a])%list.
Proof.
  unfold slice. cbv zeta. rewrite length_app. cbn [List.length].
  change (0 <? 0)%Z with false. change (-1 <? 0)%Z with true. cbv iota.
  rewrite Z.min_l by lia. rewrite Z.max_l by lia.
  replace (Z.to_nat (Z.of_nat (List.length l + 2) + -1 - 0))
    with (List.length l + 1) by lia.
  change (Z.to_nat 0) with 0. cbn [skipn].
  rewrite firstn_app_2. reflexivity.
Qed.

Section AppFacts.
Context {Engine : JSEngine}.
Variable errorMessage : ApiError -> string.
Variable backend : string -> FetchResult.

#[local] Abbreviation submit := (handleQuerySubmit errorMessage backend).

Lemma handleQuerySubmit_ignored (st : AppState) (query : string) :
  submitted query = false -> submit st query = st.
Proof.
  unfold submitted, handleQuerySubmit. intros H.
  apply negb_false_iff in H. now rewrite H.
Qed.

Lemma handleQuerySubmit_step (st : AppState) (query : string) :
  submitted query = true -> isLoading (app_status st) = false ->
  exists reply,
    messages (submit st query)
    = (messages st
       ++ [ {| sender := SenderUser; type := TypeText; content := VStr query;
               message_summary := VUndefined |}; reply ])%list /\
    sender reply = SenderAi /\
    app_status (submit st query) = StatusIdle /\
    ((exists response,
        processQuery backend query = Resolved response /\
        reply = {| sender := SenderAi; type := TypeSql;
                   content := field response "sql";
                   message_summary := field response "summary" |} /\
        queryResult (submit st query) = field response "result" /\
        app_error (submit st query) = None)
     \/
     (exists e,
        processQuery backend query = Rejected e /\
        reply = {| sender := SenderAi; type := TypeError;
                   content :=
                     VStr ("I'm sorry, I encountered an error: "
                           ++ errorMessage e);
                   message_summary := VUndefined |} /\
        queryResult (submit st query) = VNull /\
        app_error (submit st query)
        = Some ("Failed to process your request. " ++ errorMessage e))).
Proof.
  unfold submitted, handleQuerySubmit. intros Hq Hl.
  apply negb_true_iff in Hq. rewrite Hq, Hl. cbn [orb]. cbv zeta.
  destruct (processQuery backend query) as [e | response].
  - eexists. cbn [messages app_status queryResult app_error].
    rewrite slice_drop_last, <- app_assoc.
    split; [reflexivity |]. split; [reflexivity |]. split; [reflexivity |].
    right. exists e. repeat split.
  - eexists. cbn [messages app_status queryResult app_error].
    rewrite slice_drop_last, <- app_assoc.
    split; [reflexivity |]. split; [reflexivity |]. split; [reflexivity |].
    left. exists response. repeat split.
Qed.

Lemma submitAll_cons (st : AppState) (q : string) (queries : list string) :
  submitAll errorMessage backend st (q :: queries)
  = submitAll errorMessage backend (submit st q) queries.
Proof. reflexivity. Qed.

(** One submission, from a state that is not loading: the log grows by the
    message of the user and one reply of the assistant, the status message
    is gone, and the status is idle.  The reply is the statement with its
    summary, without an error line, exactly when [processQuery] resolves;
    otherwise the reply is an error message, the error line is set and the
    result panel loses its table.  The panel never shows the spinner once
    the call has settled. *)
Theorem handleQuerySubmit_settles (st : AppState) (query : string) :
  submitted query = true -> isLoading (app_status st) = false ->
  exists reply,
    messages (submit st query)
    = (messages st
       ++ [ {| sender := SenderUser; type := TypeText; content := VStr query;
               message_summary := VUndefined |}; reply ])%list /\
    sender reply = SenderAi /\
    app_status (submit st query) = StatusIdle /\
    (type reply = TypeSql \/ type reply = TypeError) /\
    (type reply = TypeSql <->
     exists response, processQuery backend query = Resolved response) /\
    (type reply = TypeSql <-> app_error (submit st query) = None) /\
    (type reply = TypeError ->
     renderContent (queryResult (submit st query)) (app_status (submit st query))
     = ShowPlaceholder) /\
    renderContent (queryResult (submit st query)) (app_status (submit st query))
    <> ShowSpinner.
Proof.
  intros Hq Hl.
  destruct (@handleQuerySubmit_step st query Hq Hl)
    as [reply [Hm [Hs [Hi [[response [Hp [-> [Hr He]]]] | [e [Hp [-> [Hr He]]]]]]]]];
    eexists; (split; [exact Hm |]); (split; [reflexivity |]);
    (split; [exact Hi |]); rewrite Hi, Hr, He, Hp; cbn [type].
  - split; [now left |]. split; [split; [now exists response | reflexivity] |].
    split; [tauto |]. split; [discriminate |].
    unfold renderContent. cbn [isLoading andb].
    destruct (truthy _); discriminate.
  - split; [now right |].
    split; [split; [discriminate | intros [r H]; discriminate] |].
    split; [split; discriminate |].
    split; [reflexivity | discriminate].
Qed.

(** Any sequence of submissions, from a state that is not loading: blank
    queries leave no trace; every other query adds its own text as a message
    of the user, followed by one message of the assistant; no status message
    stays in the log; and the application is idle again as soon as one query
    has been submitted. *)
Theorem submitAll_log (st : AppState) (queries : list string) :
  isLoading (app_status st) = false ->
  exists log,
    messages (submitAll errorMessage backend st queries)
    = (messages st ++ log)%list /\
    map sender log
    = flat_map (fun _ => [SenderUser; SenderAi]) (filter submitted queries) /\
    map content (filter fromUser log) = map VStr (filter submitted queries) /\
    existsb isStatusMessage (filter (fun m => negb (fromUser m)) log) = false /\
    isLoading (app_status (submitAll errorMessage backend st queries)) = false /\
    (filter submitted queries <> [] ->
     app_status (submitAll errorMessage backend st queries) = StatusIdle).
Proof.
  revert st. induction queries as [|q queries IH]; intros st Hl.
  - exists []. cbn. rewrite app_nil_r. repeat split; auto. congruence.
  - rewrite submitAll_cons. cbn [filter]. destruct (submitted q) eqn:Hq.
    + destruct (@handleQuerySubmit_step st q Hq Hl)
        as [reply [Hm [Hs [Hi Hcases]]]].
      assert (Hl' : isLoading (app_status (submit st q)) = false)
        by now rewrite Hi.
      destruct (IH _ Hl') as [log [Em [Es [Ec [En [El Ei]]]]]].
      exists ({| sender := SenderUser; type := TypeText; content := VStr q;
                 message_summary := VUndefined |} :: reply :: log).
      assert (Hu : fromUser reply = false) by (unfold fromUser; now rewrite Hs).
      assert (Ht : isStatusMessage reply = false).
      { destruct Hcases as [[r [_ [-> _]]] | [e [_ [-> _]]]]; reflexivity. }
      split; [| split; [| split; [| split; [| split]]]].
      * rewrite Em, Hm, <- app_assoc. reflexivity.
      * cbn [map flat_map app]. now rewrite Hs, Es.
      * cbn [filter fromUser sender]. rewrite Hu. cbn [map]. now rewrite Ec.
      * cbn [filter fromUser sender negb]. rewrite Hu. cbn [negb existsb].
        now rewrite Ht, En.
      * exact El.
      * intros _. destruct (filter submitted queries) eqn:Hf.
        -- clear - Hf Hi Hl'.
           assert (E : forall s, submitAll errorMessage backend s queries = s).
           { induction queries as [|x xs IHxs]; intros s; [reflexivity |].
             cbn [filter] in Hf. destruct (submitted x) eqn:Hx; [discriminate |].
             rewrite submitAll_cons, handleQuerySubmit_ignored by exact Hx.
             now apply IHxs. }
           now rewrite E.
        -- apply Ei. discriminate.
    + rewrite handleQuerySubmit_ignored by exact Hq. now apply IH.
Qed.

End AppFacts.

(** ** The theorems at work *)

(** The second and last page of the monthly trend holds its two last rows. *)
Lemma page_sizes_witness :
  1 <= List.length (paginatedRows firTrend 2) <= 10 /\
  ((2 < totalPages firTrend)%Z -> List.length (paginatedRows firTrend 2) = 10).
Proof. apply (@page_sizes IntEngine firTrend 2). vm_compute. split; discriminate. Defined.

Lemma page_empty_iff_beyond_witness :
  paginatedRows firTrend 3 = [] <-> (totalPages firTrend < 3)%Z.
Proof. apply (@page_empty_iff_beyond IntEngine firTrend 3). lia. Defined.

Lemma csvContent_reads_back_witness :
  exists payload,
    csvContent (columns crimeCounts) (rows crimeCounts)
    = "data:text/csv;charset=utf-8," ++ payload /\
    map (splitOn ",") (splitOn LF payload)
    = columns crimeCounts :: map (map cellText) (rows crimeCounts).
Proof.
  apply (@csvContent_reads_back IntEngine (columns crimeCounts) (rows crimeCounts)).
  - discriminate.
  - discriminate.
  - repeat constructor; discriminate.
  - repeat constructor.
  - repeat constructor.
Defined.

Lemma chartData_category_count_witness :
  ((exists a b, In a (labelsOf 0 (rows crimeList)) /\
                In b (labelsOf 0 (rows crimeList)) /\ a <> b) ->
   exists points,
     chartData crimeList
     = Returned {| strategy := CategoryCount; series := points |} /\
     NoDup (map name points) /\
     forall p,
       In p points <->
       exists k, In k (labelsOf 0 (rows crimeList)) /\
                 p = {| name := k;
                        value :=
                          NumberValue
                            (Int
                               (Z.of_nat
                                  (count_occ string_dec
                                             (labelsOf 0 (rows crimeList)) k))) |})
  /\
  ((forall a b, In a (labelsOf 0 (rows crimeList)) ->
                In b (labelsOf 0 (rows crimeList)) -> a = b) ->
   chartData crimeList = Returned noChart).
Proof.
  apply (@chartData_category_count IntEngine crimeList
           [CStr "Theft"; CStr "Guntur"] (tl (rows crimeList)) 0);
    try reflexivity.
  repeat constructor.
Defined.

Lemma chartData_date_count_total_witness :
  exists points counts,
    chartData kumarArrests
    = Returned {| strategy := DateCount; series := points |} /\
    map value points = map (fun c => NumberValue (Int (Z.of_nat c))) counts /\
    list_sum counts = List.length (rows kumarArrests).
Proof.
  apply (@chartData_date_count_total IntEngine kumarArrests
           [CStr "S. Kumar"; CStr "2025-05-15"; CStr "Theft of motorcycle"]
           (tl (rows kumarArrests)) 1); try reflexivity.
  repeat constructor; eexists; split; reflexivity.
Defined.

Lemma fenceMatch_sound_witness :
  exists tag gap gap',
    fencedPayload = FENCE ++ tag ++ gap ++ goodPayload ++ gap' ++ FENCE /\
    allb isWord tag = true /\ blank gap /\ blank gap' /\
    forall body' gap'',
      goodPayload ++ gap' ++ FENCE = body' ++ gap'' ++ FENCE -> blank gap'' ->
      String.length goodPayload <= String.length body'.
Proof. apply (@fenceMatch_sound fencedPayload goodPayload). reflexivity. Defined.

Lemma generateSqlAndSummary_empty_fence_witness :
  payloadText emptyFence = FENCE ++ "json" ++ String LF "" ++ FENCE /\
  fst (@generateSqlAndSummary IntEngine demoParse "Generate SQL." emptyFenceModel
         [] "Show all FIRs")
  = Rejected InvalidResponse.
Proof.
  apply (@generateSqlAndSummary_empty_fence IntEngine demoParse "Generate SQL."
           emptyFenceModel [] "Show all FIRs" emptyFence "json" (String LF ""));
    reflexivity.
Defined.

Lemma generateSqlAndSummary_resolved_witness :
  "SELECT fir_id" ++ String LF "FROM FIR" <> "" /\
  ~ occurs "\n" ("SELECT fir_id" ++ String LF "FROM FIR") /\
  @truthy IntEngine (VStr "All FIRs.") = true /\
  [@promptOf "Generate SQL." "Show all FIRs"]
  = ([] ++ [@promptOf "Generate SQL." "Show all FIRs"])%list /\
  exists text parsedData s,
    fencedModel [] (@promptOf "Generate SQL." "Show all FIRs") = Resolved text /\
    demoParse (payloadText text) = Some parsedData /\
    getProp parsedData "sql" = Some (VStr s) /\ s <> "" /\
    getProp parsedData "summary" = Some (VStr "All FIRs.") /\
    "SELECT fir_id" ++ String LF "FROM FIR" = unescapeNewlines s.
Proof.
  apply (@generateSqlAndSummary_resolved IntEngine demoParse "Generate SQL."
           fencedModel [] [@promptOf "Generate SQL." "Show all FIRs"]
           "Show all FIRs"
           {| sql := "SELECT fir_id" ++ String LF "FROM FIR";
              summary := VStr "All FIRs." |}).
  reflexivity.
Defined.

Lemma transcribeAudio_flat_payload_witness :
  transcribeAudio flatBackend "audio/webm" "te" = Rejected PropertyTypeError.
Proof.
  apply (@transcribeAudio_flat_payload IntEngine flatBackend "audio/webm" "te"
           {| ok := true; status := 200;
              json := Some (VObj [("text", VStr "show all firs");
                                  ("language", VStr "en")]) |}
           (VObj [("text", VStr "show all firs"); ("language", VStr "en")]));
    reflexivity.
Defined.

Lemma transcribeAudio_resolved_witness :
  exists response result transcription text confidence lang modelUsed enhanced,
    nestedBackend
      {| request_url :=
           "http://127.0.0.1:8000/api/voice/transcribe?language=" ++ "te";
         file_name := filenameFor "audio/webm";
         language_field := "te" |} = Responded response /\
    ok response = true /\ json response = Some result /\
    getProp result "success" <> Some (VBool false) /\
    getProp result "transcription" = Some transcription /\
    getProp transcription "text" = Some text /\
    getProp transcription "confidence" = Some confidence /\
    getProp transcription "language" = Some lang /\
    getProp transcription "model_used" = Some modelUsed /\
    (enhanced = VUndefined \/
     exists a b, enhanced = VObj [("enhancedText", a); ("corrections", b)]) /\
    VObj [("text", VStr "show all firs"); ("confidence", VUndefined);
          ("language", VStr "en"); ("modelUsed", VUndefined);
          ("enhanced", VUndefined)]
    = VObj [("text", text); ("confidence", confidence); ("language", lang);
            ("modelUsed", modelUsed); ("enhanced", enhanced)].
Proof.
  apply (@transcribeAudio_resolved IntEngine nestedBackend "audio/webm" "te").
  reflexivity.
Defined.

Lemma handleQuerySubmit_settles_witness :
  exists reply,
    messages (handleQuerySubmit plainMessage nullBackend welcomeState "Show all FIRs")
    = (messages welcomeState
       ++ [ {| sender := SenderUser; type := TypeText;
               content := VStr "Show all FIRs";
               message_summary := VUndefined |}; reply ])%list /\
    sender reply = SenderAi /\
    app_status (handleQuerySubmit plainMessage nullBackend welcomeState "Show all FIRs")
    = StatusIdle /\
    (type reply = TypeSql \/ type reply = TypeError) /\
    (type reply = TypeSql <->
     exists response, processQuery nullBackend "Show all FIRs" = Resolved response) /\
    (type reply = TypeSql <->
     app_error (handleQuerySubmit plainMessage nullBackend welcomeState "Show all FIRs")
     = None) /\
    (type reply = TypeError ->
     renderContent
       (queryResult (handleQuerySubmit plainMessage nullBackend welcomeState "Show all FIRs"))
       (app_status (handleQuerySubmit plainMessage nullBackend welcomeState "Show all FIRs"))
     = ShowPlaceholder) /\
    renderContent
      (queryResult (handleQuerySubmit plainMessage nullBackend welcomeState "Show all FIRs"))
      (app_status (handleQuerySubmit plainMessage nullBackend welcomeState "Show all FIRs"))
    <> ShowSpinner.
Proof.
  apply (@handleQuerySubmit_settles IntEngine plainMessage nullBackend
           welcomeState "Show all FIRs"); reflexivity.
Defined.

Lemma submitAll_log_witness :
  exists log,
    messages (submitAll plainMessage sqlBackend welcomeState
                ["Show all FIRs"; "   "; "Count them"])
    = (messages welcomeState ++ log)%list /\
    map sender log
    = flat_map (fun _ => [SenderUser; SenderAi])
               (filter submitted ["Show all FIRs"; "   "; "Count them"]) /\
    map content (filter fromUser log)
    = map VStr (filter submitted ["Show all FIRs"; "   "; "Count them"]) /\
    existsb isStatusMessage (filter (fun m => negb (fromUser m)) log) = false /\
    isLoading (app_status (submitAll plainMessage sqlBackend welcomeState
                             ["Show all FIRs"; "   "; "Count them"])) = false /\
    (filter submitted ["Show all FIRs"; "   "; "Count them"] <> [] ->
     app_status (submitAll plainMessage sqlBackend welcomeState
                   ["Show all FIRs"; "   "; "Count them"]) = StatusIdle).
Proof.
  apply (@submitAll_log IntEngine plainMessage sqlBackend welcomeState
           ["Show all FIRs"; "   "; "Count them"]).
  reflexivity.
Defined.

(** ** Labels that the accumulator inherits *)

Section InheritedLabels.
Context {Engine : JSEngine}.

Lemma append_nonempty (a : string) : a ++ "1" <> "".
Proof. destruct a; discriminate. Qed.

Lemma increment_inheritedTexts (m : string) (acc : Aggregation) :
  inheritedTexts acc -> inheritedTexts (increment m acc).
Proof.
  intros [Hnd Hinh]. unfold increment.
  destruct (ownProperty m acc) as [[c | t] |] eqn:Hm.
  - split; [now apply setOwn_NoDup |]. intros k Hk.
    rewrite ownProperty_setOwn. destruct (String.eqb_spec k m) as [-> | Hne].
    + specialize (Hinh m Hk). now rewrite Hm in Hinh.
    + exact (Hinh k Hk).
  - split; [now apply setOwn_NoDup |]. intros k Hk.
    rewrite ownProperty_setOwn. destruct (String.eqb_spec k m) as [-> | Hne].
    + specialize (Hinh m Hk). rewrite Hm in Hinh. destruct Hinh as [Ht Hp].
      apply String.eqb_neq in Ht. rewrite Ht.
      split; [apply append_nonempty | exact Hp].
    + exact (Hinh k Hk).
  - destruct (existsb (String.eqb m) OBJECT_PROTOTYPE_KEYS) eqn:Hex.
    + destruct (String.eqb_spec m "__proto__") as [-> | Hproto].
      * now split.
      * split; [now apply setOwn_NoDup |]. intros k Hk.
        rewrite ownProperty_setOwn.
        destruct (String.eqb_spec k m) as [-> | Hne].
        -- split; [apply append_nonempty | exact Hproto].
        -- exact (Hinh k Hk).
    + split; [now apply setOwn_NoDup |]. intros k Hk.
      rewrite ownProperty_setOwn. destruct (String.eqb_spec k m) as [-> | Hne].
      * apply existsb_eqb_In in Hk. congruence.
      * exact (Hinh k Hk).
Qed.

Lemma countByLabel_inheritedTexts (l : nat) (rows : list (list Cell)) :
  forall acc, inheritedTexts acc -> inheritedTexts (countByLabel l rows acc).
Proof.
  induction rows as [|row rows IH]; intros acc H; simpl; [exact H |].
  now apply IH, increment_inheritedTexts.
Qed.

Lemma countByMonth_inheritedTexts (d : nat) (rows : list (list Cell)) :
  forall acc agg,
    inheritedTexts acc -> countByMonth d rows acc = Returned agg ->
    inheritedTexts agg.
Proof.
  induction rows as [|row rows IH]; intros acc agg H; simpl.
  - now intros [= <-].
  - destruct (cellAt row d) as [[s | n] |]; try discriminate.
    apply IH. now apply increment_inheritedTexts.
Qed.

Lemma toPoint_inherited (agg : Aggregation) (p : ChartPoint) :
  inheritedTexts agg -> In p (map toPoint agg) ->
  In (name p) OBJECT_PROTOTYPE_KEYS ->
  name p <> "__proto__" /\ exists t, value p = TextValue t /\ t <> "".
Proof.
  intros [Hnd Hinh] Hin Hk.
  apply in_map_iff in Hin as [[k v] [<- Hkv]].
  cbn [toPoint name value fst snd] in *.
  apply (ownProperty_In agg k v Hnd) in Hkv.
  specialize (Hinh k Hk). rewrite Hkv in Hinh.
  destruct v as [c | t]; [contradiction |].
  destruct Hinh as [Ht Hp]. split; [exact Hp |]. now exists t.
Qed.

(** The two counting strategies on a label that the accumulator object
    inherits from [Object.prototype], such as [constructor] or [valueOf]:
    the point of such a label never carries a number, its value is a text
    that is not empty; and the label [__proto__] gets no point at all. *)
Theorem chartData_inherited_label (data : QueryResult) (spec : ChartSpec)
  (p : ChartPoint) :
  chartData data = Returned spec ->
  strategy spec <> CategoricalValue ->
  In p (series spec) ->
  In (name p) OBJECT_PROTOTYPE_KEYS ->
  name p <> "__proto__" /\ exists t, value p = TextValue t /\ t <> "".
Proof.
  assert (Hempty : inheritedTexts []).
  { split; [constructor | intros k _; exact I]. }
  unfold chartData. destruct (List.length (rows data) <? 1).
  { intros [= <-] _ []. }
  destruct (numericColumnIndex (hd [] (rows data))) as [n |].
  { intros [= <-] H. now contradiction H. }
  destruct (dateColumnIndex (hd [] (rows data))) as [d |].
  - destruct (countByMonth d (rows data) []) as [| agg] eqn:Hc; [discriminate |].
    intros [= <-] _ Hin. cbn [series] in Hin.
    apply (countByMonth_inheritedTexts _ _ Hempty) in Hc.
    apply (@toPoint_inherited _ p Hc).
    eapply Permutation_in; [| eapply Permutation_in; [| exact Hin]].
    + apply Permutation_sym, Permutation_map, ownEntries_perm.
    + apply Permutation_sym, sortByName_perm.
  - destruct (labelColumnIndex (hd [] (rows data))) as [l |].
    + cbv zeta.
      pose proof (countByLabel_inheritedTexts l (rows data) Hempty) as Hc.
      destruct (1 <? List.length (countByLabel l (rows data) [])).
      * intros [= <-] _ Hin. cbn [series] in Hin.
        apply (@toPoint_inherited _ p Hc).
        eapply Permutation_in; [| exact Hin].
        apply Permutation_sym, Permutation_map, ownEntries_perm.
      * intros [= <-] _ [].
    + intros [= <-] _ [].
Qed.

End InheritedLabels.

Lemma chartData_inherited_label_witness :
  "constructor" <> "__proto__" /\
  exists t,
    TextValue ("function Object() { [native code] }11") = @TextValue IntEngine t
    /\ t <> "".
Proof.
  apply (@chartData_inherited_label IntEngine oddLabels
           {| strategy := CategoryCount;
              series :=
                [ {| name := "constructor";
                     value := TextValue "function Object() { [native code] }11" |};
                  {| name := "Theft"; value := NumberValue (num_of_Z 1) |} ] |}
           {| name := "constructor";
              value := TextValue "function Object() { [native code] }11" |}).
  - reflexivity.
  - discriminate.
  - left. reflexivity.
  - left. reflexivity.
Defined.

(** ** When the charts are shown *)

Section ChartsShown.
Context {Engine : JSEngine}.

Lemma setOwn_length (k : string) (v : AccValue) (acc : Aggregation) :
  List.length acc <= List.length (setOwn k v acc).
Proof.
  induction acc as [|[k' v'] acc IH]; simpl; [lia |].
  destruct (String.eqb k k'); simpl; lia.
Qed.

Lemma increment_length (k : string) (acc : Aggregation) :
  List.length acc <= List.length (increment k acc).
Proof.
  unfold increment.
  destruct (ownProperty k acc) as [[c | t] |]; try apply setOwn_length.
  destruct (existsb _ _); [| apply setOwn_length].
  destruct (String.eqb k "__proto__"); [lia | apply setOwn_length].
Qed.

Lemma take_length (n : nat) (s : string) : String.length (take n s) <= n.
Proof.
  revert s. induction n as [|n IH]; intros [|c s]; simpl; try lia.
  specialize (IH s). lia.
Qed.

Lemma increment_month_nonempty (s : string) :
  increment (take 7 s) [] <> [].
Proof.
  unfold increment. cbn [ownProperty].
  destruct (existsb _ _); [| discriminate].
  destruct (String.eqb_spec (take 7 s) "__proto__") as [E | _]; [| discriminate].
  pose proof (take_length 7 s) as H. rewrite E in H. simpl in H. lia.
Qed.

Lemma countByMonth_length (d : nat) (rows : list (list Cell)) :
  forall acc agg,
    countByMonth d rows acc = Returned agg ->
    List.length acc <= List.length agg.
Proof.
  induction rows as [|row rows IH]; intros acc agg; cbn [countByMonth].
  - intros [= <-]. lia.
  - destruct (cellAt row d) as [[s | n] |]; try discriminate.
    cbv zeta. intros H. apply IH in H. pose proof (increment_length (take 7 s) acc). lia.
Qed.

(** The charts are drawn when the series is not empty.  Whenever [chartData]
    returns, the series is empty exactly when no strategy applies: each of
    the three strategies gives at least one point. *)
Theorem chartData_empty_iff_none (data : QueryResult) (spec : ChartSpec) :
  chartData data = Returned spec ->
  (series spec = [] <-> strategy spec = StrategyNone).
Proof.
  unfold chartData. destruct (rows data) as [|firstRow rest] eqn:Hrows.
  { intros [= <-]. now split. }
  cbn [List.length Nat.ltb Nat.leb hd].
  destruct (numericColumnIndex firstRow) as [n |].
  { intros [= <-]. cbn. split; discriminate. }
  destruct (dateColumnIndex firstRow) as [d |].
  - destruct (countByMonth d (firstRow :: rest) []) as [| agg] eqn:Hc;
      [discriminate |].
    intros [= <-]. cbn [series strategy]. split; [| discriminate].
    intros Hnil. exfalso.
    assert (Hlen : List.length agg
                   = List.length (sortByName (map toPoint (ownEntries agg)))).
    { rewrite <- (Permutation_length (sortByName_perm _)), length_map.
      apply Permutation_length, ownEntries_perm. }
    rewrite Hnil in Hlen. cbn [countByMonth] in Hc.
    destruct (cellAt firstRow d) as [[s | x] |]; try discriminate.
    cbv zeta in Hc. apply countByMonth_length in Hc.
    pose proof (increment_month_nonempty s) as Hne.
    destruct (increment (take 7 s) []); [congruence | simpl in *; lia].
  - destruct (labelColumnIndex firstRow) as [l |].
    + cbv zeta.
      destruct (List.length (countByLabel l (firstRow :: rest) []))
        as [|[|k]] eqn:Hlen.
      * intros [= <-]. now split.
      * intros [= <-]. now split.
      * intros [= <-]. cbn [series strategy]. split; [| discriminate].
        intros Hnil. exfalso.
        apply (f_equal (@List.length _)) in Hnil.
        rewrite length_map, <- (Permutation_length (ownEntries_perm _)) in Hnil.
        cbn [countByLabel] in Hlen. cbv zeta in Hlen.
        rewrite Hlen in Hnil. discriminate.
    + intros [= <-]. now split.
Qed.

End ChartsShown.

Lemma chartData_empty_iff_none_witness :
  series (@noChart IntEngine) = [] <-> strategy (@noChart IntEngine) = StrategyNone.
Proof.
  apply (@chartData_empty_iff_none IntEngine
           {| columns := ["crime_type"]; rows := [ [CStr "Theft"] ];
              query := "SELECT crime_type FROM crimes" |}).
  reflexivity.
Defined.

(** Page 3 of twenty-five rows, then a result of two rows. *)
Lemma stale_page_is_stuck_witness :
  tableAfter manyRows [PageRequest 3; DataChange crimeCounts]
  = {| table_data := crimeCounts; currentPage := 3 |} /\
  paginatedRows crimeCounts 3 = [] /\
  forall clicks,
    fold_left click clicks {| table_data := crimeCounts; currentPage := 3 |}
    = {| table_data := crimeCounts; currentPage := 3 |}.
Proof.
  apply (@stale_page_is_stuck IntEngine manyRows crimeCounts 3).
  - vm_compute. split; discriminate.
  - reflexivity.
Defined.
